(** * pySHACL, SHACL-JS extension: [pyshacl/extras/js/constraint.py]

    A shallow embedding of the JavaScript constraint components of pySHACL
    and the properties of their binding and result-interpretation protocol.

    Layout: the first half of the file holds the embedding (one module per
    Python class, definitions named after the methods they embed); the second
    half holds the lemmas and theorems. *)

From Stdlib Require Import ZArith Lia.
From stdpp Require Import base option list strings gmap.

#[local] Set Warnings "-register-all".

(* ===================================================================== *)
(** * Part I. The embedding                                               *)
(* ===================================================================== *)

(** ** RDF terms and graphs (rdflib, used through a narrow interface) *)

(** The three kinds of rdflib terms the module distinguishes.  [str(t)] is the
    carried string; [isinstance(t, Literal)] is [is_literal]. *)
Inductive term :=
| URIRef (iri : string)
| BNode (label : string)
| Literal (lexical : string).

#[global] Instance term_eq_dec : EqDecision term.
Proof. solve_decision. Defined.

Definition is_literal (t : term) : bool :=
  match t with Literal _ => true | _ => false end.

Definition term_str (t : term) : string :=
  match t with URIRef s | BNode s | Literal s => s end.

Definition triple : Type := term * term * term.

(** A shapes graph: the identity of the underlying graph object
    ([id(shacl_graph.graph)]) and its triples in iteration order. *)
Record ShapesGraph := mkShapesGraph {
  graph_id : Z;
  triples : list triple
}.

(** [sg.objects(node, predicate)] *)
Definition objects (sg : ShapesGraph) (node predicate : term) : list term :=
  omap (fun '(s, p, o) =>
          if decide (s = node /\ p = predicate) then Some o else None)
       (triples sg).

Definition SH (local : string) : term := URIRef ("http://www.w3.org/ns/shacl#" +:+ local).
Definition SH_message : term := SH "message".
Definition SH_js : term := SH "js".
Definition SH_jsLibrary : term := SH "jsLibrary".
Definition SH_jsFunctionName : term := SH "jsFunctionName".
Definition SH_ConstraintComponent : term := SH "ConstraintComponent".
Definition SH_jsLibraryURL : term := SH "jsLibraryURL".
Definition SH_JSConstraint : term := SH "JSConstraint".
Definition SH_JSConstraintComponent : term := SH "JSConstraintComponent".

(** ** Python values and exceptions *)

(** Values a script hands back to Python, and the values this module passes
    around.  [PyResult] is a result table: an object with a [bindings]
    attribute that iterates over its rows. *)
Inductive pyval :=
| PyNone
| PyBool (b : bool)
| PyInt (n : Z)
| PyStr (s : string)
| PyDict (items : list (string * pyval))
| PyList (elems : list pyval)
| PyTuple (elems : list pyval)
| PyTerm (t : term)
| PyResult (bindings : list (list (string * pyval))).

Inductive exn :=
| ConstraintLoadError (msg link : string)
| ReportableRuntimeError (msg : string)
| ValidationFailure (msg : string)
| KeyError (key : string)
| TypeError (msg : string)
| ValueError (msg : string)
| AttributeError (attr : string)
| JSError (msg : string).

(** The result of a call that may raise. *)
Inductive outcome (A : Type) :=
| Ok (a : A)
| Raise (e : exn).
Arguments Ok {A} a.
Arguments Raise {A} e.

Definition obind {A B} (m : outcome A) (k : A -> outcome B) : outcome B :=
  match m with Ok a => k a | Raise e => Raise e end.

Declare Scope outcome_scope.
Delimit Scope outcome_scope with outcome.
Notation "x <-- m ;; k" := (obind m (fun x => k))
  (at level 100, m at next level, right associativity) : outcome_scope.
Local Open Scope outcome_scope.

Definition is_raise {A} (m : outcome A) : bool :=
  match m with Raise _ => true | Ok _ => false end.

Definition raises_load_error {A} (m : outcome A) : Prop :=
  exists msg link, m = Raise (ConstraintLoadError msg link).

(** Behaviour of the Python runtime and of rdflib that the module relies on
    and that is not fixed by the module itself: the iteration order of a
    [set] built from a sequence, and the truth value of an rdflib term. *)
Class Runtime := {
  set_order : list term -> list term;
  set_order_perm : forall l, set_order l ≡ₚ remove_dups l;
  term_truthy : term -> bool;
  literal_value_is_str : term -> bool
}.

(** An insertion-ordered [dict]: keys are unique, a new key goes last. *)
Module Dict.
Section Dict.
Context {K V : Type} `{EqDecision K}.

Fixpoint get (k : K) (d : list (K * V)) : option V :=
  match d with
  | [] => None
  | (k', v) :: d' => if decide (k = k') then Some v else get k d'
  end.

Fixpoint set (k : K) (v : V) (d : list (K * V)) : list (K * V) :=
  match d with
  | [] => [(k, v)]
  | (k', v') :: d' =>
      if decide (k = k') then (k, v) :: d' else (k', v') :: set k v d'
  end.
End Dict.
End Dict.

(** ** class JSExecutable *)

Module JSExecutable.

Definition link : string := "https://www.w3.org/TR/shacl-js/#dfn-javascript-executables".

Record t := mk {
  sg : ShapesGraph;
  node : term;
  fn_name : string;
  libraries : list (term * list string)
}.

(** State of the two library loops: [seen_library_defs] and [libraries]. *)
Definition lib_state : Type := list term * list (term * list string).

Section Init.
Context {rt : Runtime}.

(** Lines 27-46: the function name. *)
Definition init_fn_name (sg : ShapesGraph) (node : term) : outcome string :=
  let fn_names := set_order (objects sg node SH_jsFunctionName) in
  if (length fn_names <? 1)%nat then
    Raise (ConstraintLoadError
             "At least one sh:jsFunctionName must be present on a JS Executable." link)
  else if (1 <? length fn_names)%nat then
    Raise (ConstraintLoadError
             "At most one sh:jsFunctionName can be present on a JS Executable." link)
  else
    match fn_names with
    | fn_name :: _ =>
        if negb (is_literal fn_name) then
          Raise (ConstraintLoadError
                   "sh:jsFunctionName must be an RDF Literal with type xsd:string." link)
        else Ok (term_str fn_name)
    | [] => Raise (TypeError "StopIteration")
    end.

(** [for u in jsLibraryURLs: ... libraries[libn].append(str(u))] *)
Fixpoint append_urls (libn : term) (urls : list term)
    (libraries : list (term * list string)) : outcome (list (term * list string)) :=
  match urls with
  | [] => Ok libraries
  | u :: urls' =>
      if negb (is_literal u) then
        Raise (ConstraintLoadError
                 "sh:jsLibraryURL must have a value that is a Literal." link)
      else
        match Dict.get libn libraries with
        | None => Raise (KeyError (term_str libn))
        | Some l =>
            append_urls libn urls' (Dict.set libn (l ++ [term_str u]) libraries)
        end
  end.

(** The body shared by both loops once a library node is known to be new:
    the Literal check, the bookkeeping and the URLs of the node. *)
Definition visit (sg : ShapesGraph) (libn : term) (st : lib_state) : outcome lib_state :=
  let '(seen_library_defs, libraries) := st in
  if is_literal libn then
    Raise (ConstraintLoadError
             "sh:jsLibrary must not have a value that is a Literal." link)
  else
    let seen_library_defs := seen_library_defs ++ [libn] in
    let jsLibraryURLs := objects sg libn SH_jsLibraryURL in
    let libraries :=
      if (0 <? length jsLibraryURLs)%nat
      then Dict.set libn (default [] (Dict.get libn libraries)) libraries
      else libraries in
    libraries <-- append_urls libn jsLibraryURLs libraries ;;
    Ok (seen_library_defs, libraries).

(** [for libn2 in library_defs2: ...] *)
Fixpoint inner_loop (sg : ShapesGraph) (library_defs2 : list term) (st : lib_state)
    : outcome lib_state :=
  match library_defs2 with
  | [] => Ok st
  | libn2 :: rest =>
      if decide (libn2 ∈ st.1) then inner_loop sg rest st
      else st <-- visit sg libn2 st ;; inner_loop sg rest st
  end.

(** [for libn in library_defs: ...] *)
Fixpoint outer_loop (sg : ShapesGraph) (library_defs : list term) (st : lib_state)
    : outcome lib_state :=
  match library_defs with
  | [] => Ok st
  | libn :: rest =>
      if decide (libn ∈ st.1) then outer_loop sg rest st
      else
        st <-- visit sg libn st ;;
        st <-- inner_loop sg (objects sg libn SH_jsLibrary) st ;;
        outer_loop sg rest st
  end.

(** Lines 47-89: the libraries. *)
Definition init_libraries (sg : ShapesGraph) (node : term) : outcome lib_state :=
  outer_loop sg (objects sg node SH_jsLibrary) ([], []).

(** [JSExecutable.__init__] *)
Definition init (sg : ShapesGraph) (node : term) : outcome t :=
  fn_name <-- init_fn_name sg node ;;
  st <-- init_libraries sg node ;;
  Ok (mk sg node fn_name st.2).
End Init.

End JSExecutable.

(** ** The script sandbox ([SHACLJSContext], [pyshacl/extras/js/context.py]) *)

(** A data graph is an rdflib graph; the module only hands it on. *)
Definition DataGraph : Type := list triple.

(** The context is used through three calls only: its constructor,
    [load_js_library] and [run_js_function]; both calls may raise. *)
Class JSEngine := {
  ctx : Type;
  new_ctx : ShapesGraph -> DataGraph -> ctx;
  load_js_library : ctx -> string -> outcome ctx;
  run_js_function : ctx -> string -> list pyval -> outcome pyval
}.

Module JSExecutableRun.
Section Execute.
Context {js : JSEngine}.

(** [for lib_url in lib_urls: ctx.load_js_library(lib_url)] *)
Fixpoint load_urls (c : ctx) (lib_urls : list string) : outcome ctx :=
  match lib_urls with
  | [] => Ok c
  | lib_url :: rest => c <-- load_js_library c lib_url ;; load_urls c rest
  end.

(** [for lib_node, lib_urls in self.libraries.items(): ...] *)
Fixpoint load_libraries (c : ctx) (items : list (term * list string)) : outcome ctx :=
  match items with
  | [] => Ok c
  | (_, lib_urls) :: rest => c <-- load_urls c lib_urls ;; load_libraries c rest
  end.

(** [JSExecutable.execute(datagraph, *args)] *)
Definition execute (self : JSExecutable.t) (datagraph : DataGraph) (args : list pyval)
    : outcome pyval :=
  let c := new_ctx (JSExecutable.sg self) datagraph in
  c <-- load_libraries c (JSExecutable.libraries self) ;;
  run_js_function c (JSExecutable.fn_name self) args.
End Execute.
End JSExecutableRun.

(** ** Shapes and validation results (the surrounding engine) *)

Record Shape := mkShape {
  shape_sg : ShapesGraph;
  shape_node : term;
  is_property_shape : bool
}.

(** [shape.objects(predicate)] *)
Definition shape_objects (shape : Shape) (predicate : term) : list term :=
  objects (shape_sg shape) (shape_node shape) predicate.

(** [Literal(x)]: an rdflib literal built from the Python value [x]. *)
Inductive message := LiteralOf (x : pyval).

(** What [make_v_result] is called with; a keyword that is left out has its
    default [None]. *)
Record v_result := mk_v_result {
  focus_node : pyval;
  value_node : pyval;
  result_path : pyval;
  extra_messages : option (list message);
  constraint_component : option term
}.

Definition is_None (x : pyval) : bool :=
  match x with PyNone => true | _ => false end.

(** [d.get(key, None)] *)
Definition dict_get_or_None (key : string) (d : list (string * pyval)) : pyval :=
  default PyNone (Dict.get key d).

(** ** class JSConstraint *)

Module JSConstraint.

Record t := mk {
  shape : Shape;
  js_exes : list JSExecutable.t
}.

Section Methods.
Context {rt : Runtime} {js : JSEngine}.

(** [[JSExecutable(shape.sg, j) for j in js_decls]] *)
Fixpoint make_exes (sg : ShapesGraph) (js_decls : list term) : outcome (list JSExecutable.t) :=
  match js_decls with
  | [] => Ok []
  | j :: rest =>
      e <-- JSExecutable.init sg j ;;
      es <-- make_exes sg rest ;;
      Ok (e :: es)
  end.

(** [JSConstraint.__init__] *)
Definition init (shape : Shape) : outcome t :=
  let js_decls := shape_objects shape SH_js in
  if (length js_decls <? 1)%nat then
    Raise (ConstraintLoadError "JSConstraint must have at least one sh:js predicate."
             "https://www.w3.org/TR/shacl-js/#js-constraints")
  else
    js_exes <-- make_exes (shape_sg shape) js_decls ;;
    Ok (mk shape js_exes).

Definition constraint_parameters : list term := [SH_js].
Definition constraint_name : string := "JSConstraint".
Definition shacl_constraint_class : term := SH_JSConstraint.

Definition make_generic_messages : list message :=
  [LiteralOf (PyStr "Javascript Function generated constraint validation reports.")].

(** The report built from a record, in the scalar branch (lines 163-171)
    and in the list branch (lines 181-190) alike. *)
Definition dict_report (self : t) (f v : term) (d : list (string * pyval)) : v_result :=
  let val := dict_get_or_None "value" d in
  let val := if is_None val then PyTerm v else val in
  let path :=
    if negb (is_property_shape (shape self)) then dict_get_or_None "path" d else PyNone in
  let msgs := [] in
  let message := dict_get_or_None "message" d in
  let msgs := if negb (is_None message) then msgs ++ [LiteralOf message] else msgs in
  mk_v_result (PyTerm f) val path (Some msgs) None.

(** [for r in res: ...] (lines 173-190); the state is [(failed, reports)]. *)
Fixpoint list_loop (self : t) (f v : term) (res : list pyval)
    (st : bool * list v_result) : bool * list v_result :=
  match res with
  | [] => st
  | r :: rest =>
      let '(failed, reports) := st in
      let failed := true in
      let reports :=
        match r with
        | PyBool false =>
            reports ++ [mk_v_result (PyTerm f) (PyTerm v) PyNone None None]
        | PyStr _ | PyTerm _ =>
            let m := LiteralOf r in
            reports ++ [mk_v_result (PyTerm f) (PyTerm v) PyNone (Some [m]) None]
        | PyDict d => reports ++ [dict_report self f v d]
        | _ => reports
        end in
      list_loop self f v rest (failed, reports)
  end.

(** The dispatch on the raw result [res] of one (focus, value) pair
    (lines 154-190); returns [failed] and the extended [reports].  The
    [isinstance(res, str)] branch also takes rdflib terms, which are [str]
    instances. *)
Definition interpret (self : t) (f v : term) (res : pyval) (reports : list v_result)
    : bool * list v_result :=
  let failed := false in
  match res with
  | PyBool false =>
      (true, reports ++ [mk_v_result (PyTerm f) (PyTerm v) PyNone None None])
  | PyStr _ | PyTerm _ =>
      let m := LiteralOf res in
      (true, reports ++ [mk_v_result (PyTerm f) (PyTerm v) PyNone (Some [m]) None])
  | PyDict d => (true, reports ++ [dict_report self f v d])
  | PyList l => list_loop self f v l (failed, reports)
  | _ => (failed, reports)
  end.

(** [for v in value_nodes: ...]; the state is [(non_conformant, reports)]. *)
Fixpoint value_loop (self : t) (data_graph : DataGraph) (js_exe : JSExecutable.t)
    (f : term) (value_nodes : list term) (st : bool * list v_result)
    : outcome (bool * list v_result) :=
  match value_nodes with
  | [] => Ok st
  | v :: rest =>
      let '(non_conformant, reports) := st in
      res <-- JSExecutableRun.execute js_exe data_graph [PyTerm f; PyTerm v] ;;
      let '(failed, reports) := interpret self f v res reports in
      let non_conformant := if failed then true else non_conformant in
      value_loop self data_graph js_exe f rest (non_conformant, reports)
  end.

(** [for f, value_nodes in f_v_dict.items(): ...] *)
Fixpoint focus_loop (self : t) (data_graph : DataGraph) (js_exe : JSExecutable.t)
    (items : list (term * list term)) (st : bool * list v_result)
    : outcome (bool * list v_result) :=
  match items with
  | [] => Ok st
  | (f, value_nodes) :: rest =>
      st <-- value_loop self data_graph js_exe f value_nodes st ;;
      focus_loop self data_graph js_exe rest st
  end.

(** [JSConstraint._evaluate_js_exe]: returns [(non_conformant, reports)]. *)
Definition _evaluate_js_exe (self : t) (data_graph : DataGraph)
    (f_v_dict : list (term * list term)) (js_exe : JSExecutable.t)
    : outcome (bool * list v_result) :=
  focus_loop self data_graph js_exe f_v_dict (false, []).

(** [for c in self.js_exes: ...] *)
Fixpoint exe_loop (self : t) (data_graph : DataGraph)
    (focus_value_nodes : list (term * list term)) (exes : list JSExecutable.t)
    (st : bool * list v_result) : outcome (bool * list v_result) :=
  match exes with
  | [] => Ok st
  | c :: rest =>
      let '(non_conformant, reports) := st in
      r <-- _evaluate_js_exe self data_graph focus_value_nodes c ;;
      exe_loop self data_graph focus_value_nodes rest
        (non_conformant || r.1, reports ++ r.2)
  end.

(** [JSConstraint.evaluate]: returns [(conformant, reports)]. *)
Definition evaluate (self : t) (data_graph : DataGraph)
    (focus_value_nodes : list (term * list term)) : outcome (bool * list v_result) :=
  r <-- exe_loop self data_graph focus_value_nodes (js_exes self) (false, []) ;;
  Ok (negb r.1, r.2).
End Methods.

End JSConstraint.

(** ** Python truth values, equality and sets *)

Section Truth.
Context {rt : Runtime}.

(** [bool(x)]; a result table is true when it has rows. *)
Definition py_truthy (x : pyval) : bool :=
  match x with
  | PyNone => false
  | PyBool b => b
  | PyInt n => negb (n =? 0)%Z
  | PyStr s => negb (bool_decide (s = ""))
  | PyDict items => negb (bool_decide (length items = 0%nat))
  | PyList elems | PyTuple elems => negb (bool_decide (length elems = 0%nat))
  | PyTerm t => term_truthy t
  | PyResult bindings => negb (bool_decide (length bindings = 0%nat))
  end.

(** [a or b] *)
Definition py_or (a b : pyval) : pyval := if py_truthy a then a else b.
End Truth.

(** Equality of values is taken structurally (Python's [==] additionally
    identifies [True] with [1]; no value of this module depends on that). *)
Definition pyval_eq_dec : forall a b : pyval, {a = b} + {a <> b}.
Proof.
  fix IH 1.
  assert (Hl : forall l1 l2 : list pyval, {l1 = l2} + {l1 <> l2})
    by (apply List.list_eq_dec, IH).
  assert (Hp : forall p1 p2 : string * pyval, {p1 = p2} + {p1 <> p2})
    by (intros [s1 v1] [s2 v2]; destruct (String.string_dec s1 s2);
        [destruct (IH v1 v2); [left | right]; congruence | right; congruence]).
  assert (Hd : forall d1 d2 : list (string * pyval), {d1 = d2} + {d1 <> d2})
    by (apply List.list_eq_dec, Hp).
  assert (Hr : forall r1 r2 : list (list (string * pyval)), {r1 = r2} + {r1 <> r2})
    by (apply List.list_eq_dec, Hd).
  decide equality; auto using Bool.bool_dec, String.string_dec.
  - apply Z.eq_dec.
  - apply term_eq_dec.
Defined.

#[global] Instance pyval_eq_decision : EqDecision pyval := pyval_eq_dec.

(** [s.add(x)] on a [set] kept in insertion order. *)
Definition set_add (x : pyval) (s : list pyval) : list pyval :=
  if decide (x ∈ s) then s else s ++ [x].

(** ** Constraint components and their parameters (the surrounding engine) *)

(** A declared parameter ([SHACLParameter]): [p.localname], [p.path()],
    [p.optional]. *)
Record SHACLParameter := mkSHACLParameter {
  localname : string;
  path : term;
  optional : bool
}.

(** The fields of a [CustomConstraintComponent]; the three validator
    collections are given in their iteration order. *)
Record Component := mkComponent {
  component_sg : ShapesGraph;
  component_node : term;
  parameters : list SHACLParameter;
  validators : list term;
  node_validators : list term;
  property_validators : list term
}.

(** [next(iter(xs))] *)
Definition next_iter {A} (xs : list A) : outcome A :=
  match xs with
  | x :: _ => Ok x
  | [] => Raise (TypeError "StopIteration")
  end.

(** ** class BoundShapeJSValidatorComponent *)

Module BoundShapeJSValidatorComponent.

Definition invalid_parameter_names : gset string :=
  {[ "this"; "shapesGraph"; "currentShape"; "path"; "PATH"; "value" ]}.

(** The object; [validator] is the heap address of the shared validator. *)
Record t := mk {
  shape : Shape;
  constraint : Component;
  validator : nat;
  param_bind_map : gmap string term;
  messages : list message
}.

Section Methods.
Context {rt : Runtime}.

(** [for p in self.constraint.parameters: ...] of [bind_params]. *)
Fixpoint bind_loop (shape : Shape) (params : list SHACLParameter)
    (bind_map : gmap string term) : outcome (gmap string term) :=
  match params with
  | [] => Ok bind_map
  | p :: rest =>
      let name := localname p in
      if decide (name ∈ invalid_parameter_names) then
        Raise (ReportableRuntimeError ("Parameter name " +:+ name +:+ " cannot be used."))
      else
        let shape_params := set_order (shape_objects shape (path p)) in
        if (length shape_params <? 1)%nat then
          if negb (optional p) then
            Raise (ReportableRuntimeError
                     ("Shape does not have mandatory parameter "
                        +:+ term_str (path p) +:+ "."))
          else bind_loop shape rest bind_map
        else
          x <-- next_iter shape_params ;;
          bind_loop shape rest (<[name := x]> bind_map)
  end.

(** [bind_params]: the new value of [self.param_bind_map]. *)
Definition bind_params (constraint : Component) (shape : Shape)
    : outcome (gmap string term) :=
  bind_loop shape (parameters constraint) ∅.

(** [BoundShapeJSValidatorComponent.__init__] *)
Definition init (constraint : Component) (shape : Shape) (validator : nat) : outcome t :=
  bind_map <-- bind_params constraint shape ;;
  Ok (mk shape constraint validator bind_map []).

Definition constraint_parameters : list term := [].
Definition constraint_name : string := "ConstraintComponent".
Definition shacl_constraint_class : term := SH_ConstraintComponent.

(** The validator is reached through [self.validator.validate]; it hands
    back [None] or a collection, listed in iteration order. *)
Definition validate_fn : Type :=
  term -> list term -> DataGraph -> gmap string term -> outcome (option (list pyval)).

(** [self.messages or None] *)
Definition messages_or_None (self : t) : option (list message) :=
  match messages self with [] => None | ms => Some ms end.

(** The report for one violation [v] (lines 280-289). *)
Definition report_of (self : t) (f : term) (result_val : pyval) (v : pyval)
    : outcome v_result :=
  let extra_messages := messages_or_None self in
  let cc := Some (component_node (constraint self)) in
  match v with
  | PyBool true => Ok (mk_v_result (PyTerm f) result_val PyNone extra_messages cc)
  | PyTuple elems =>
      match elems with
      | [t; p; v] =>
          let v := if is_None v then result_val else v in
          Ok (mk_v_result (py_or t (PyTerm f)) v p extra_messages cc)
      | _ => Raise (ValueError "unpack")
      end
  | _ => Ok (mk_v_result (PyTerm f) v PyNone extra_messages cc)
  end.

(** [for v in violations: ...]; the state is [(non_conformant, reports)]. *)
Fixpoint violation_loop (self : t) (f : term) (result_val : pyval)
    (violations : list pyval) (st : bool * list v_result)
    : outcome (bool * list v_result) :=
  match violations with
  | [] => Ok st
  | v :: rest =>
      let '(non_conformant, reports) := st in
      let non_conformant := true in
      rept <-- report_of self f result_val v ;;
      violation_loop self f result_val rest (non_conformant, reports ++ [rept])
  end.

(** [for f, value_nodes in focus_value_nodes.items(): ...] *)
Fixpoint focus_loop (validate : validate_fn) (self : t) (target_graph : DataGraph)
    (items : list (term * list term)) (st : bool * list v_result)
    : outcome (bool * list v_result) :=
  match items with
  | [] => Ok st
  | (f, value_nodes) :: rest =>
      violations <-- validate f value_nodes target_graph (param_bind_map self) ;;
      let result_val := if negb (is_property_shape (shape self)) then PyTerm f else PyNone in
      match violations with
      | None => Raise (TypeError "'NoneType' object is not iterable")
      | Some violations =>
          st <-- violation_loop self f result_val violations st ;;
          focus_loop validate self target_graph rest st
      end
  end.

(** [BoundShapeJSValidatorComponent.evaluate]: returns [(conformant, reports)]. *)
Definition evaluate (validate : validate_fn) (self : t) (target_graph : DataGraph)
    (focus_value_nodes : list (term * list term)) : outcome (bool * list v_result) :=
  r <-- focus_loop validate self target_graph focus_value_nodes (false, []) ;;
  Ok (negb r.1, r.2).
End Methods.

End BoundShapeJSValidatorComponent.

(** ** class JSConstraintComponentValidator *)

Module JSConstraintComponentValidator.

(** The attributes of one validator object; an attribute that has not been
    assigned yet is [None] ([initialised] is read with a default of [False]). *)
Record instance := mkInstance {
  initialised : bool;
  shacl_graph : option ShapesGraph;
  node : option term;
  messages : option (list term);
  js_exe : option JSExecutable.t
}.

Definition blank : instance := mkInstance false None None None None.

(** The objects allocated so far (an object's identity is its index) and the
    class attribute [validator_cache]. *)
Record world := mkWorld {
  heap : list instance;
  validator_cache : gmap (Z * string) nat
}.

Definition empty_world : world := mkWorld [] ∅.

Definition set_attrs (self : nat) (f : instance -> instance) (w : world) : world :=
  mkWorld (alter f self (heap w)) (validator_cache w).

(** [self.shacl_graph = g; self.node = n] *)
Definition assign_graph_node (g : ShapesGraph) (n : term) (i : instance) : instance :=
  mkInstance (initialised i) (Some g) (Some n) (messages i) (js_exe i).

(** [self.messages = ms] *)
Definition assign_messages (ms : list term) (i : instance) : instance :=
  mkInstance (initialised i) (shacl_graph i) (node i) (Some ms) (js_exe i).

(** [self.js_exe = exe; self.initialised = True] *)
Definition assign_js_exe_initialised (exe : JSExecutable.t) (i : instance) : instance :=
  mkInstance true (shacl_graph i) (node i) (messages i) (Some exe).

(** What leaves a [for] body: [return a], or the next round. *)
Inductive ctl (A : Type) :=
| Return (a : A)
| Continue.
Arguments Return {A} a.
Arguments Continue {A}.

(** A [for] loop whose body may return from the enclosing function; falling
    off the end of the function yields [None]. *)
Fixpoint for_each {X A} (body : X -> outcome (ctl A)) (xs : list X) : outcome (option A) :=
  match xs with
  | [] => Ok None
  | x :: rest =>
      c <-- body x ;;
      match c with
      | Return a => Ok (Some a)
      | Continue => for_each body rest
      end
  end.

Section Methods.
Context {rt : Runtime} {js : JSEngine}.

(** [__new__]: the cached object for the key, or a new object, cached. *)
Definition new (shacl_graph : ShapesGraph) (node : term) (w : world) : nat * world :=
  let cache_key := (graph_id shacl_graph, term_str node) in
  match validator_cache w !! cache_key with
  | Some found_in_cache => (found_in_cache, w)
  | None =>
      let self := length (heap w) in
      (self, mkWorld (heap w ++ [blank]) (<[cache_key := self]> (validator_cache w)))
  end.

(** [for m in message_nodes: ...] *)
Fixpoint check_messages (message_nodes : list term) : outcome unit :=
  match message_nodes with
  | [] => Ok ()
  | m :: rest =>
      if negb (is_literal m && literal_value_is_str m) then
        Raise (ConstraintLoadError
                 "Validator sh:message must be an RDF Literal of type xsd:string."
                 "https://www.w3.org/TR/shacl/#ConstraintComponent")
      else check_messages rest
  end.

(** [__init__] on the object [self]. *)
Definition init (self : nat) (shacl_graph : ShapesGraph) (node : term) (w : world)
    : outcome unit * world :=
  match heap w !! self with
  | None => (Raise (TypeError "no object"), w)
  | Some inst =>
      if initialised inst then (Ok (), w)
      else
        let w := set_attrs self (assign_graph_node shacl_graph node) w in
        let message_nodes := set_order (objects shacl_graph node SH_message) in
        match check_messages message_nodes with
        | Raise e => (Raise e, w)
        | Ok _ =>
            let w := set_attrs self (assign_messages message_nodes) w in
            match JSExecutable.init shacl_graph node with
            | Raise e => (Raise e, w)
            | Ok exe =>
                let w := set_attrs self (assign_js_exe_initialised exe) w in
                (Ok (), w)
            end
        end
  end.

(** [JSConstraintComponentValidator(shacl_graph, node)]: [__new__], then
    [__init__] on the object it returned. *)
Definition construct (shacl_graph : ShapesGraph) (node : term) (w : world)
    : outcome nat * world :=
  let '(self, w) := new shacl_graph node w in
  let '(r, w) := init self shacl_graph node w in
  (_ <-- r ;; Ok self, w).

(** [try: x = r[key] except KeyError: x = None] *)
Definition item_or_None (key : string) (r : list (string * pyval)) : pyval :=
  match Dict.get key r with Some x => x | None => PyNone end.

(** One round of [for r in results: ...] (lines 386-409). *)
Definition row_step (violations : list pyval) (r : list (string * pyval)) : list pyval :=
  let p := item_or_None "path" r in
  let v := item_or_None "value" r in
  let t := item_or_None "this" r in
  if py_truthy p || py_truthy v || py_truthy t then
    set_add (PyTuple [t; p; v]) violations
  else
    match Dict.get "failure" r with
    | Some _ => set_add (PyBool true) violations
    | None => violations
    end.

(** [results.bindings] *)
Definition get_bindings (results : pyval) : outcome (list (list (string * pyval))) :=
  match results with
  | PyResult bindings => Ok bindings
  | _ => Raise (AttributeError "bindings")
  end.

(** The body of [for v in value_nodes: ...] (lines 378-410). *)
Definition validate_body (self : instance) (target_graph : DataGraph)
    (bind_vals : gmap string term) (v : term) : outcome (ctl (list pyval)) :=
  max_length <-- match bind_vals !! "maxLength" with
                 | Some x => Ok x
                 | None => Raise (KeyError "maxLength")
                 end ;;
  let args := [PyTerm v; PyTerm max_length] in
  exe <-- match js_exe self with
          | Some exe => Ok exe
          | None => Raise (AttributeError "js_exe")
          end ;;
  results <-- JSExecutableRun.execute exe target_graph args ;;
  if negb (py_truthy results) then Ok (Return [])
  else
    bindings <-- get_bindings results ;;
    if (length bindings <? 1)%nat then Ok (Return [])
    else
      let violations := [] in
      Ok (Return (foldl row_step violations bindings)).

(** [validate] *)
Definition validate (self : instance) (focus : term) (value_nodes : list term)
    (target_graph : DataGraph) (param_bind_vals : gmap string term)
    (new_bind_vals : option (gmap string term)) : outcome (option (list pyval)) :=
  let new_bind_vals := default ∅ new_bind_vals in
  let bind_vals := new_bind_vals ∪ param_bind_vals in
  for_each (validate_body self target_graph bind_vals) value_nodes.

(** [apply_to_shape_via_constraint] *)
Definition apply_to_shape_via_constraint (self : nat) (constraint : Component)
    (shape : Shape) : outcome BoundShapeJSValidatorComponent.t :=
  BoundShapeJSValidatorComponent.init constraint shape self.

(** [BoundShapeJSValidatorComponent.evaluate] with [self.validator] looked
    up in the heap. *)
Definition evaluate_bound (w : world) (bound : BoundShapeJSValidatorComponent.t)
    (target_graph : DataGraph) (focus_value_nodes : list (term * list term))
    : outcome (bool * list v_result) :=
  match heap w !! BoundShapeJSValidatorComponent.validator bound with
  | None => Raise (TypeError "no object")
  | Some inst =>
      BoundShapeJSValidatorComponent.evaluate
        (fun f value_nodes g binds => validate inst f value_nodes g binds None)
        bound target_graph focus_value_nodes
  end.
End Methods.

End JSConstraintComponentValidator.

(** ** class JSConstraintComponent *)

Module JSConstraintComponent.
Section Methods.
Context {rt : Runtime}.

(** The choice of [validator_node] (lines 313-326). *)
Definition select_validator_node (self : Component) (shape : Shape) : outcome term :=
  let val_count := length (validators self) in
  let node_val_count := length (node_validators self) in
  let prop_val_count := length (property_validators self) in
  if is_property_shape shape && (0 <? prop_val_count)%nat then
    next_iter (property_validators self)
  else if negb (is_property_shape shape) && (0 <? node_val_count)%nat then
    next_iter (node_validators self)
  else if (0 <? val_count)%nat then
    next_iter (validators self)
  else
    Raise (ConstraintLoadError
             "Cannot select a validator to use, according to the rules."
             "https://www.w3.org/TR/shacl/#constraint-components-validators").

(** [make_validator_for_shape] *)
Definition make_validator_for_shape (self : Component) (shape : Shape)
    (w : JSConstraintComponentValidator.world)
    : outcome BoundShapeJSValidatorComponent.t * JSConstraintComponentValidator.world :=
  match select_validator_node self shape with
  | Raise e => (Raise e, w)
  | Ok validator_node =>
      let '(r, w) :=
        JSConstraintComponentValidator.construct (component_sg self) validator_node w in
      match r with
      | Raise e => (Raise e, w)
      | Ok validator =>
          (JSConstraintComponentValidator.apply_to_shape_via_constraint
             validator self shape, w)
      end
  end.
End Methods.
End JSConstraintComponent.

(** ** A concrete runtime and sandbox, for running the embedding *)

Module Concrete.

(** Sets iterate in first-occurrence order; a term is true when its string
    is not empty; every literal carries a string value. *)
Definition runtime : Runtime :=
  {| set_order := remove_dups;
     set_order_perm := fun l => Permutation_refl (remove_dups l);
     term_truthy := fun t => negb (bool_decide (term_str t = ""));
     literal_value_is_str := is_literal |}.

(** A sandbox whose context is the list of loaded library URLs and whose
    functions are given by [script]. *)
Definition engine (script : string -> list pyval -> outcome pyval) : JSEngine :=
  {| ctx := list string;
     new_ctx := fun _ _ => [];
     load_js_library := fun c u => Ok (c ++ [u]);
     run_js_function := fun _ fn args => script fn args |}.

(** A script that answers every call with [res]. *)
Definition const_engine (res : pyval) : JSEngine := engine (fun _ _ => Ok res).

(** A script that answers with a table of one row, whose [value] column is
    the first argument of the call. *)
Definition echo_engine : JSEngine :=
  engine (fun _ args =>
            match args with
            | v :: _ => Ok (PyResult [[("value", v)]])
            | [] => Ok PyNone
            end).

(** A script that answers [None] when its first argument is the literal
    ["a"], and like [echo_engine] otherwise. *)
Definition echo_unless_a_engine : JSEngine :=
  engine (fun _ args =>
            match args with
            | PyTerm (Literal "a") :: _ => Ok PyNone
            | v :: _ => Ok (PyResult [[("value", v)]])
            | [] => Ok PyNone
            end).

(** A node shape and a property shape with a direct JS constraint. *)
Definition ex_sg : ShapesGraph := mkShapesGraph 1 [].
Definition ex_node_shape : Shape := mkShape ex_sg (URIRef "ex:S") false.
Definition ex_property_shape : Shape := mkShape ex_sg (URIRef "ex:P") true.
Definition ex_exe : JSExecutable.t := JSExecutable.mk ex_sg (URIRef "ex:js") "check" [].
Definition ex_f : term := URIRef "ex:focus".
Definition ex_v : term := Literal "bad".
Definition ex_self : JSConstraint.t := JSConstraint.mk ex_node_shape [ex_exe].
Definition ex_prop_self : JSConstraint.t := JSConstraint.mk ex_property_shape [ex_exe].

(** A source node with the function name ["check"] and the direct libraries
    [direct], in this order; [lib1] declares [lib2], and [lib2] declares
    [deps_of_lib2]; each of [lib1], [lib2], [lib3] has one URL. *)
Definition js_node : term := URIRef "ex:js".
Definition lib1 : term := URIRef "ex:lib1".
Definition lib2 : term := URIRef "ex:lib2".
Definition lib3 : term := URIRef "ex:lib3".

Definition lib_graph (direct : list term) (deps_of_lib2 : list term) : ShapesGraph :=
  mkShapesGraph 7
    ([(js_node, SH_jsFunctionName, Literal "check")]
     ++ ((fun d => (js_node, SH_jsLibrary, d)) <$> direct)
     ++ [(lib1, SH_jsLibrary, lib2)]
     ++ ((fun d => (lib2, SH_jsLibrary, d)) <$> deps_of_lib2)
     ++ [(lib1, SH_jsLibraryURL, Literal "a.js");
         (lib2, SH_jsLibraryURL, Literal "b.js");
         (lib3, SH_jsLibraryURL, Literal "c.js")]).

(** The triples of [lib_graph [] []] in a graph of another identity. *)
Definition other_graph : ShapesGraph := mkShapesGraph 8 (triples (lib_graph [] [])).

(** A shape with a value for [ex:maxLength] and one for [ex:value], and
    three parameters: a mandatory one with a value, an optional one without,
    and one whose local name is reserved. *)
Definition ex_param_shape : Shape :=
  mkShape (mkShapesGraph 3 [(URIRef "ex:S", URIRef "ex:maxLength", Literal "5");
                            (URIRef "ex:S", URIRef "ex:value", Literal "v")])
    (URIRef "ex:S") false.
Definition p_maxLength : SHACLParameter :=
  mkSHACLParameter "maxLength" (URIRef "ex:maxLength") false.

Definition component_with (ps : list SHACLParameter) : Component :=
  mkComponent ex_sg (URIRef "ex:Component") ps [URIRef "ex:generic"] [] [].

(** A validator that reports, for every focus node, the generic violation
    [True], a triple without target and value, and a plain value node. *)
Definition ex_validate : BoundShapeJSValidatorComponent.validate_fn :=
  fun f value_nodes _ _ =>
    Ok (Some [PyBool true;
              PyTuple [PyNone; PyTerm (URIRef "ex:path"); PyNone];
              PyTerm (Literal "raw")]).

Definition ex_bound (shape : Shape) : BoundShapeJSValidatorComponent.t :=
  BoundShapeJSValidatorComponent.mk shape (component_with []) 0 ∅ [].

(** An initialised validator object. *)
Definition ex_instance : JSConstraintComponentValidator.instance :=
  JSConstraintComponentValidator.mkInstance true (Some ex_sg) (Some js_node) (Some [])
    (Some ex_exe).

(** A sandbox that cannot load ["missing.js"] and whose functions answer
    with the list of the libraries loaded so far. *)
Definition picky_engine : JSEngine :=
  {| ctx := list string;
     new_ctx := fun _ _ => [];
     load_js_library := fun c u =>
       if decide (u = "missing.js") then Raise (JSError "cannot load") else Ok (c ++ [u]);
     run_js_function := fun c _ _ => Ok (PyList (PyStr <$> c)) |}.


(** A script that answers [false] for the value ["bad"], raises for the
    value ["boom"] and answers [true] otherwise. *)
Definition verdict_engine : JSEngine :=
  engine (fun _ args =>
            match args with
            | [_; PyTerm (Literal "bad")] => Ok (PyBool false)
            | [_; PyTerm (Literal "boom")] => Raise (JSError "boom")
            | _ => Ok (PyBool true)
            end).

(** What [verdict_engine] answers on the values it does not raise on. *)
Definition verdict (f v : term) : bool :=
  if decide (v = Literal "bad") then false else true.

(** A script library with three functions: ["check"] answers [false],
    ["warn"] answers with a message, and ["boom"] raises. *)
Definition named_engine : JSEngine :=
  engine (fun fn _ =>
            if decide (fn = "check") then Ok (PyBool false)
            else if decide (fn = "boom") then Raise (JSError "boom")
            else Ok (PyStr "careful")).

Definition exe_named (fn : string) : JSExecutable.t :=
  JSExecutable.mk ex_sg (URIRef "ex:js") fn [].

Definition self_with (fns : list string) : JSConstraint.t :=
  JSConstraint.mk ex_node_shape (exe_named <$> fns).

(** A script that answers with a table of four rows: twice the row naming
    the first argument as [value], a row with a [failure] column only, and
    a row without any column. *)
Definition rows_engine : JSEngine :=
  engine (fun _ args =>
            match args with
            | v :: _ =>
                Ok (PyResult [[("value", v)]; [("value", v)];
                              [("failure", PyBool true)]; []])
            | [] => Ok PyNone
            end).

Definition ex_binds : gmap string term := {[ "maxLength" := Literal "5" ]}.

(** A world with one initialised validator, and a component bound to it. *)
Definition ex_world : JSConstraintComponentValidator.world :=
  JSConstraintComponentValidator.mkWorld [ex_instance] ∅.

Definition ex_bound_js (shape : Shape) : BoundShapeJSValidatorComponent.t :=
  BoundShapeJSValidatorComponent.mk shape (component_with [p_maxLength]) 0 ex_binds [].

(** A graph with the identity of [lib_graph] in which the node has no
    function name yet. *)
Definition unfinished_graph : ShapesGraph := mkShapesGraph 7 [].

(** A component whose only validator is [js_node] of [lib_graph [] []],
    with the parameter [maxLength]. *)
Definition lib_component : Component :=
  mkComponent (lib_graph [] []) (URIRef "ex:Component") [p_maxLength] [js_node] [] [].

(** A component graph with a validator of each kind, each with its own
    function name, and the component that offers the three of them. *)
Definition precedence_graph : ShapesGraph :=
  mkShapesGraph 21
    [(URIRef "ex:generic", SH_jsFunctionName, Literal "checkAny");
     (URIRef "ex:forNodes", SH_jsFunctionName, Literal "checkNode");
     (URIRef "ex:forProperties", SH_jsFunctionName, Literal "checkProperty")].

Definition precedence_component : Component :=
  mkComponent precedence_graph (URIRef "ex:Component") []
    [URIRef "ex:generic"] [URIRef "ex:forNodes"] [URIRef "ex:forProperties"].

(** A validator that reports, for every focus node, the one triple
    [(t, p, v)]. *)
Definition triple_validate (t p v : pyval) : BoundShapeJSValidatorComponent.validate_fn :=
  fun _ _ _ _ => Ok (Some [PyTuple [t; p; v]]).

(** A script that answers with a table of one row, whose [this] column is
    [t] and whose [value] column is the first argument of the call. *)
Definition this_engine (t : pyval) : JSEngine :=
  engine (fun _ args =>
            match args with
            | v :: _ => Ok (PyResult [[("this", t); ("value", v)]])
            | [] => Ok PyNone
            end).

End Concrete.

(** ** Reference definitions used to state the properties *)

(** [del d[key]], for every entry under [key]. *)
Definition dict_remove (key : string) (d : list (string * pyval)) : list (string * pyval) :=
  filter (fun kv => kv.1 <> key) d.

(** The scalar rules of the result table, as the specification words them:
    [false], a string (a Python [str], which an rdflib term is too) and a
    record fail with one report each; anything else passes with none. *)
Definition scalar_fails (r : pyval) : bool :=
  match r with
  | PyBool false | PyStr _ | PyTerm _ | PyDict _ => true
  | _ => false
  end.

Definition scalar_reports (self : JSConstraint.t) (f v : term) (r : pyval) : list v_result :=
  match r with
  | PyBool false => [mk_v_result (PyTerm f) (PyTerm v) PyNone None None]
  | PyStr _ | PyTerm _ =>
      [mk_v_result (PyTerm f) (PyTerm v) PyNone (Some [LiteralOf r]) None]
  | PyDict d => [JSConstraint.dict_report self f v d]
  | _ => []
  end.

(** The library nodes a node declares, and the URLs of a library node. *)
Definition declared_libraries (sg : ShapesGraph) (n : term) : list term :=
  objects sg n SH_jsLibrary.

Definition library_urls (sg : ShapesGraph) (libn : term) : list term :=
  objects sg libn SH_jsLibraryURL.

(** What holds of the two loop variables of the library loops at every
    point: no node is seen twice, every seen node is a non-Literal whose URLs
    are all Literals, and [libraries] maps exactly the seen nodes that have
    URLs, each to the strings of its URLs in order. *)
Definition libs_inv (sg : ShapesGraph) (st : JSExecutable.lib_state) : Prop :=
  NoDup st.1 /\
  (forall x, x ∈ st.1 ->
     is_literal x = false /\ forallb is_literal (library_urls sg x) = true) /\
  (forall k, Dict.get k st.2 =
             if decide (k ∈ st.1 /\ library_urls sg k <> [])
             then Some (term_str <$> library_urls sg k) else None).

(** A library node the loops accept: not a Literal, and all its URLs are
    Literals. *)
Definition library_ok (sg : ShapesGraph) (x : term) : Prop :=
  is_literal x = false /\ forallb is_literal (library_urls sg x) = true.

(** The library declarations of [node] are well formed: the loops accept
    every library node that [node] declares and every library node that one
    of these declares (the loops go no deeper). *)
Definition libraries_well_formed (sg : ShapesGraph) (node : term) : Prop :=
  forall x,
    (x ∈ declared_libraries sg node \/
     exists d, d ∈ declared_libraries sg node /\ x ∈ declared_libraries sg d) ->
    library_ok sg x.

(** A call ends in a [ConstraintLoadError] of the executables section, or
    in a result that satisfies [P]. *)
Definition load_error_or {A} (P : A -> Prop) (m : outcome A) : Prop :=
  match m with
  | Ok a => P a
  | Raise e => exists msg, e = ConstraintLoadError msg JSExecutable.link
  end.

(** A call ends in a [ReportableRuntimeError], or in a result that
    satisfies [P]. *)
Definition runtime_error_or {A} (P : A -> Prop) (m : outcome A) : Prop :=
  match m with
  | Ok a => P a
  | Raise e => exists msg, e = ReportableRuntimeError msg
  end.

(** The default value of a report: the focus node on a node shape, [None]
    on a property shape. *)
Definition default_result_value (self : BoundShapeJSValidatorComponent.t) (f : term) : pyval :=
  if is_property_shape (BoundShapeJSValidatorComponent.shape self) then PyNone else PyTerm f.

(** The report for one violation, as the specification words it: [True] is
    reported on the focus node with the default value; a triple (target,
    path, value) is reported on its target if it has one (a target that is
    true, as Python's [or] has it) and on the focus node otherwise, with its
    path, and with its value or, when that is [None], the default value;
    anything else is itself the value node of a report on the focus node. *)
Definition spec_report `{Runtime} (self : BoundShapeJSValidatorComponent.t) (f : term)
    (violation : pyval) : v_result :=
  let msgs := BoundShapeJSValidatorComponent.messages_or_None self in
  let cc := Some (component_node (BoundShapeJSValidatorComponent.constraint self)) in
  match violation with
  | PyBool true => mk_v_result (PyTerm f) (default_result_value self f) PyNone msgs cc
  | PyTuple [target; path; value] =>
      mk_v_result (if py_truthy target then target else PyTerm f)
        (match value with PyNone => default_result_value self f | _ => value end)
        path msgs cc
  | _ => mk_v_result (PyTerm f) violation PyNone msgs cc
  end.

(** A violation that is a tuple is a triple. *)
Definition tuples_are_triples (violation : pyval) : Prop :=
  forall elems, violation = PyTuple elems -> length elems = 3%nat.

(** The violations the validator returns for one focus node and its value
    nodes (none when it raises or returns [None]). *)
Definition violations_of (validate : BoundShapeJSValidatorComponent.validate_fn)
    (self : BoundShapeJSValidatorComponent.t) (g : DataGraph)
    (item : term * list term) : list pyval :=
  match validate item.1 item.2 g (BoundShapeJSValidatorComponent.param_bind_map self) with
  | Ok (Some violations) => violations
  | _ => []
  end.

(** What holds of the heap and the cache at every point: a cached object
    exists, and no object is cached under two keys. *)
Definition cache_inv (w : JSConstraintComponentValidator.world) : Prop :=
  (forall key a, JSConstraintComponentValidator.validator_cache w !! key = Some a ->
     (a < length (JSConstraintComponentValidator.heap w))%nat) /\
  (forall key1 key2 a,
     JSConstraintComponentValidator.validator_cache w !! key1 = Some a ->
     JSConstraintComponentValidator.validator_cache w !! key2 = Some a -> key1 = key2).

(** The worlds a process can be in: it starts with an empty cache and
    constructs validators, whether construction returns or raises. *)
Inductive reachable `{Runtime} : JSConstraintComponentValidator.world -> Prop :=
| reachable_start : reachable JSConstraintComponentValidator.empty_world
| reachable_construct shacl_graph node w :
    reachable w ->
    reachable (JSConstraintComponentValidator.construct shacl_graph node w).2.

(** The keys of [libraries] are the seen nodes that have URLs, in the order
    in which they were seen. *)
Definition libs_keys_inv (sg : ShapesGraph) (st : JSExecutable.lib_state) : Prop :=
  libs_inv sg st /\
  st.2.*1 = filter (fun k => library_urls sg k <> []) st.1.

(** The (focus, value) pairs of a dictionary from focus nodes to value
    nodes, in the order in which the two loops of [_evaluate_js_exe] meet
    them. *)
Definition pairs_of (f_v_dict : list (term * list term)) : list (term * term) :=
  flat_map (fun item => pair item.1 <$> item.2) f_v_dict.

(** One loop over the pairs: run the script on the pair, interpret what it
    returns, raise the flag when the pair failed and append its reports. *)
Fixpoint pair_loop `{JSEngine} (self : JSConstraint.t) (data_graph : DataGraph)
    (js_exe : JSExecutable.t) (pairs : list (term * term)) (st : bool * list v_result)
    : outcome (bool * list v_result) :=
  match pairs with
  | [] => Ok st
  | (f, v) :: rest =>
      res <-- JSExecutableRun.execute js_exe data_graph [PyTerm f; PyTerm v] ;;
      let r := JSConstraint.interpret self f v res [] in
      pair_loop self data_graph js_exe rest (st.1 || r.1, st.2 ++ r.2)
  end.

(** What one pair contributes when the script answers [res]. *)
Definition pair_failed (self : JSConstraint.t) (res : term -> term -> pyval)
    (p : term * term) : bool :=
  (JSConstraint.interpret self p.1 p.2 (res p.1 p.2) []).1.

Definition pair_reports (self : JSConstraint.t) (res : term -> term -> pyval)
    (p : term * term) : list v_result :=
  (JSConstraint.interpret self p.1 p.2 (res p.1 p.2) []).2.

(** What every report of a [JSConstraint] looks like: it is made for a
    focus node of the dictionary, it names no constraint component, its
    value node is never [None], and on a property shape it carries no
    path. *)
Definition js_report_ok (self : JSConstraint.t) (f_v_dict : list (term * list term))
    (r : v_result) : Prop :=
  (exists p, p ∈ pairs_of f_v_dict /\ focus_node r = PyTerm p.1) /\
  constraint_component r = None /\
  value_node r <> PyNone /\
  (is_property_shape (JSConstraint.shape self) = true -> result_path r = PyNone).

(** What every report of a bound validator component looks like: it names
    the constraint component and carries the messages of the component. *)
Definition bound_report_ok (self : BoundShapeJSValidatorComponent.t) (r : v_result) : Prop :=
  constraint_component r = Some (component_node (BoundShapeJSValidatorComponent.constraint self)) /\
  extra_messages r = BoundShapeJSValidatorComponent.messages_or_None self.

(** What [validate] can return as a violation: the generic [True], or the
    triple of the [this], [path] and [value] columns of a row in which one
    of them is true. *)
Definition violation_shape `{Runtime} (x : pyval) : Prop :=
  x = PyBool true \/
  exists t p v, x = PyTuple [t; p; v] /\
                py_truthy p || py_truthy v || py_truthy t = true.

(** [self.validator.validate] for the validator object [inst]. *)
Definition validate_of `{Runtime} `{JSEngine} (inst : JSConstraintComponentValidator.instance)
    : BoundShapeJSValidatorComponent.validate_fn :=
  fun f value_nodes g binds =>
    JSConstraintComponentValidator.validate inst f value_nodes g binds None.

(** A run of constructions, one after the other, whether they return or
    raise. *)
Definition construct_all `{Runtime} (requests : list (ShapesGraph * term))
    (w : JSConstraintComponentValidator.world) : JSConstraintComponentValidator.world :=
  foldl (fun w request => (JSConstraintComponentValidator.construct request.1 request.2 w).2)
    w requests.

(** A message node that passes the check of [__init__]. *)
Definition message_ok `{Runtime} (m : term) : Prop :=
  is_literal m = true /\ literal_value_is_str m = true.

(** The attributes of an object on which [__init__] has run to its end for
    the shapes graph [sg] and the node [n], with the executable [exe]. *)
Definition initialised_instance `{Runtime} (sg : ShapesGraph) (n : term)
    (exe : JSExecutable.t) : JSConstraintComponentValidator.instance :=
  JSConstraintComponentValidator.mkInstance true (Some sg) (Some n)
    (Some (set_order (objects sg n SH_message))) (Some exe).

(** What holds of the heap and the cache of a running process, beyond
    [cache_inv]: an initialised object has the attributes that [__init__]
    gave it for some shapes graph and node, its executable is the one
    constructed from them, and it is cached under their key only. *)
Definition world_ok `{Runtime} (w : JSConstraintComponentValidator.world) : Prop :=
  cache_inv w /\
  forall a inst,
    JSConstraintComponentValidator.heap w !! a = Some inst ->
    JSConstraintComponentValidator.initialised inst = true ->
    exists sg n exe,
      inst = initialised_instance sg n exe /\
      JSExecutable.init sg n = Ok exe /\
      forall key, JSConstraintComponentValidator.validator_cache w !! key = Some a ->
                  key = (graph_id sg, term_str n).

(* ===================================================================== *)
(** * Part II. Properties                                                  *)
(* ===================================================================== *)

(** ** Generic facts *)

Lemma obind_Ok {A B} (m : outcome A) (k : A -> outcome B) (b : B) :
  obind m k = Ok b -> exists a, m = Ok a /\ k a = Ok b.
Proof. destruct m as [a|e]; simpl; [eauto | discriminate]. Qed.

Lemma Dict_get_set_eq {K V} `{EqDecision K} (k : K) (v : V) (d : list (K * V)) :
  Dict.get k (Dict.set k v d) = Some v.
Proof.
  induction d as [|[k' v'] d IH]; simpl.
  - by rewrite decide_True.
  - destruct (decide (k = k')) as [->|Hne]; simpl.
    + by rewrite decide_True.
    + by rewrite decide_False.
Qed.

Lemma Dict_get_set_ne {K V} `{EqDecision K} (k k' : K) (v : V) (d : list (K * V)) :
  k <> k' -> Dict.get k' (Dict.set k v d) = Dict.get k' d.
Proof.
  intros Hne. induction d as [|[k0 v0] d IH]; simpl.
  - rewrite decide_False; [done | congruence].
  - destruct (decide (k = k0)) as [->|Hne0]; simpl.
    + rewrite !decide_False; congruence.
    + destruct (decide (k' = k0)); [done | apply IH].
Qed.

(** ** JSConstraint: interpretation of script results *)

Section JSConstraintFacts.
Context {rt : Runtime} {js : JSEngine}.
Import JSConstraint.

(** One (focus, value) pair: the outcome of [_evaluate_js_exe] is the
    dispatch of [interpret] on what the script returned. *)
Lemma evaluate_one_pair self g exe f v res :
  JSExecutableRun.execute exe g [PyTerm f; PyTerm v] = Ok res ->
  _evaluate_js_exe self g [(f, [v])] exe = Ok (interpret self f v res []).
Proof.
  intros Hex. unfold _evaluate_js_exe. simpl. rewrite Hex. simpl.
  destruct (interpret self f v res []) as [failed reports].
  simpl. by destruct failed.
Qed.

(** The reports of a list result are those of its elements, in order, by
    the scalar rules; the flag is raised by every element, whatever it is. *)
Lemma list_loop_eq self f v l failed reports :
  list_loop self f v l (failed, reports) =
  (if l is [] then failed else true, reports ++ flat_map (scalar_reports self f v) l).
Proof.
  revert failed reports. induction l as [|r l IH]; intros failed reports.
  - simpl. by rewrite app_nil_r.
  - simpl. rewrite IH. f_equal; [by destruct l|].
    destruct r as [| [|] | | | | | | |]; simpl; by rewrite <-?app_assoc.
Qed.
End JSConstraintFacts.

Section JSConstraintClaims.
Context {rt : Runtime} {js : JSEngine}.
Import JSConstraint.

(** On a scalar result, [interpret] follows the scalar rules. *)
Lemma interpret_scalar self f v res :
  (forall l, res <> PyList l) ->
  interpret self f v res [] = (scalar_fails res, scalar_reports self f v res).
Proof.
  intros Hl. destruct res as [| [|] | | | | l | | |]; try reflexivity.
  by destruct (Hl l).
Qed.

Lemma list_loop_spec self f v l failed :
  list_loop self f v l (failed, []) =
  (if l is [] then failed else true, flat_map (scalar_reports self f v) l).
Proof. by rewrite list_loop_eq. Qed.

(** C1. One (focus, value) pair whose script call returns [res]: [false]
    gives one report on the original value node; [true] gives none; a
    string [s] (a Python [str]; an rdflib term is one) gives one report with
    [s] as extra message; a record gives one report whose value node is the
    record's ['value'] when it has one (a ['value'] of [None] counts as
    none, see C10) and the original value node otherwise, whose path is the
    record's ['path'] only on a shape that is not a property shape, and
    whose messages hold the record's ['message'] when it has one; any other
    result that is not a list gives no report and the pair passes. *)
Theorem result_classification self g exe f v res :
  JSExecutableRun.execute exe g [PyTerm f; PyTerm v] = Ok res ->
  exists non_conformant reports,
    _evaluate_js_exe self g [(f, [v])] exe = Ok (non_conformant, reports) /\
    match res with
    | PyBool false =>
        non_conformant = true /\
        reports = [mk_v_result (PyTerm f) (PyTerm v) PyNone None None]
    | PyStr _ | PyTerm _ =>
        non_conformant = true /\
        reports = [mk_v_result (PyTerm f) (PyTerm v) PyNone (Some [LiteralOf res]) None]
    | PyDict d =>
        non_conformant = true /\
        reports =
          [mk_v_result (PyTerm f)
             (match Dict.get "value" d with
              | Some PyNone | None => PyTerm v
              | Some x => x
              end)
             (if is_property_shape (shape self) then PyNone
              else match Dict.get "path" d with Some p => p | None => PyNone end)
             (Some (match Dict.get "message" d with
                    | Some PyNone | None => []
                    | Some m => [LiteralOf m]
                    end))
             None]
    | PyList l => (non_conformant, reports) = list_loop self f v l (false, [])
    | _ => non_conformant = false /\ reports = []
    end.
Proof.
  intros Hex. rewrite (evaluate_one_pair _ _ _ _ _ _ Hex).
  destruct res as [| [|] | n | s | d | l | l | t | b]; simpl;
    try (by eexists _, _; split; [reflexivity | split; reflexivity]).
  - eexists _, _; split; [reflexivity|]. split; [done|].
    unfold dict_report, dict_get_or_None. f_equal. f_equal.
    + by destruct (Dict.get "value" d) as [[]|].
    + destruct (is_property_shape (shape self)); simpl; [done|].
      by destruct (Dict.get "path" d).
    + by destruct (Dict.get "message" d) as [[]|].
  - destruct (list_loop self f v l (false, [])) as [nc rs] eqn:E.
    by eexists _, _.
Qed.
End JSConstraintClaims.

Lemma Dict_get_remove_eq key d : Dict.get key (dict_remove key d) = None.
Proof.
  unfold dict_remove. induction d as [|[k x] d IH]; [done|].
  rewrite filter_cons. simpl. destruct (decide (k <> key)) as [Hne|Heq]; simpl.
  - rewrite decide_False; [apply IH | congruence].
  - apply IH.
Qed.

Lemma Dict_get_remove_ne key key' d :
  key <> key' -> Dict.get key' (dict_remove key d) = Dict.get key' d.
Proof.
  intros Hne. unfold dict_remove. induction d as [|[k x] d IH]; [done|].
  rewrite filter_cons. simpl. destruct (decide (k <> key)) as [Hk|Hk]; simpl.
  - by rewrite IH.
  - apply dec_stable in Hk. subst k. rewrite decide_False; [apply IH | congruence].
Qed.

Lemma get_or_None_remove key key' d :
  Dict.get key d = Some PyNone ->
  dict_get_or_None key' (dict_remove key d) = dict_get_or_None key' d.
Proof.
  intros Hget. unfold dict_get_or_None. destruct (decide (key = key')) as [<-|Hne].
  - by rewrite Dict_get_remove_eq, Hget.
  - by rewrite Dict_get_remove_ne.
Qed.

Section JSConstraintNone.
Import JSConstraint.

Lemma dict_report_remove self f v key d :
  Dict.get key d = Some PyNone ->
  dict_report self f v (dict_remove key d) = dict_report self f v d.
Proof.
  intros Hget. unfold dict_report. by rewrite !(get_or_None_remove key _ d Hget).
Qed.

Lemma list_loop_remove self f v key d pre post st :
  Dict.get key d = Some PyNone ->
  list_loop self f v (pre ++ PyDict (dict_remove key d) :: post) st =
  list_loop self f v (pre ++ PyDict d :: post) st.
Proof.
  intros Hget. revert st. induction pre as [|r pre IH]; intros [failed reports].
  - simpl. by rewrite dict_report_remove.
  - simpl. apply IH.
Qed.

(** C10. A record whose ['value'] (or ['message']) key is present and maps
    to [None] is reported exactly as the record without that key: the
    value node is the original value node of the pair, and a [None]
    message adds no extra message.  This holds for a record returned on
    its own and for a record at any position of a returned list. *)
Theorem none_entry_as_absent self f v d key pre post reports :
  key = "value" \/ key = "message" ->
  Dict.get key d = Some PyNone ->
  interpret self f v (PyDict d) reports =
    interpret self f v (PyDict (dict_remove key d)) reports /\
  interpret self f v (PyList (pre ++ PyDict d :: post)) reports =
    interpret self f v (PyList (pre ++ PyDict (dict_remove key d) :: post)) reports /\
  (key = "value" -> value_node (dict_report self f v d) = PyTerm v) /\
  (key = "message" -> extra_messages (dict_report self f v d) = Some []).
Proof.
  intros Hkey Hget. repeat split.
  - simpl. by rewrite dict_report_remove.
  - simpl. by rewrite list_loop_remove.
  - intros ->. unfold dict_report, dict_get_or_None. simpl. by rewrite Hget.
  - intros ->. unfold dict_report, dict_get_or_None. simpl. by rewrite Hget.
Qed.

Lemma none_entry_as_absent_witness :
  let self := Concrete.ex_self in
  let d := [("value", PyNone); ("message", PyStr "m")] in
  ("value" = "value" \/ "value" = "message") /\
  Dict.get "value" d = Some PyNone /\
  interpret self Concrete.ex_f Concrete.ex_v (PyDict d) [] =
    (true, [mk_v_result (PyTerm Concrete.ex_f) (PyTerm Concrete.ex_v) PyNone
              (Some [LiteralOf (PyStr "m")]) None]) /\
  interpret self Concrete.ex_f Concrete.ex_v (PyList [PyBool true; PyDict d]) [] =
    (true, [mk_v_result (PyTerm Concrete.ex_f) (PyTerm Concrete.ex_v) PyNone
              (Some [LiteralOf (PyStr "m")]) None]) /\
  value_node (dict_report self Concrete.ex_f Concrete.ex_v d) = PyTerm Concrete.ex_v.
Proof.
  intros self d.
  pose proof (none_entry_as_absent self Concrete.ex_f Concrete.ex_v d "value"
                [PyBool true] [] [] (or_introl eq_refl) eq_refl) as (Hi & Hl & Hv & _).
  split; [by left|]. split; [reflexivity|].
  split; [exact Hi|]. split; [exact Hl | exact (Hv eq_refl)].
Defined.
End JSConstraintNone.

Section JSConstraintExamples.
Import JSConstraint Concrete.

Lemma result_classification_witness :
  let res := PyDict [("value", PyTerm (Literal "X")); ("path", PyTerm (URIRef "ex:p"));
                     ("message", PyStr "m")] in
  JSExecutableRun.execute (js := const_engine res) ex_exe [] [PyTerm ex_f; PyTerm ex_v]
    = Ok res /\
  exists non_conformant reports,
    _evaluate_js_exe (js := const_engine res) ex_prop_self [] [(ex_f, [ex_v])] ex_exe
      = Ok (non_conformant, reports) /\
    non_conformant = true /\
    reports = [mk_v_result (PyTerm ex_f) (PyTerm (Literal "X")) PyNone
                 (Some [LiteralOf (PyStr "m")]) None].
Proof.
  intros res. split; [reflexivity|].
  exact (result_classification (js := const_engine res) ex_prop_self [] ex_exe ex_f ex_v res
           eq_refl).
Defined.
End JSConstraintExamples.

Section JSConstraintLists.
Context {js : JSEngine}.
Import JSConstraint.

(** A list result for one pair: one report per element that is [false], a
    string or a record, by the scalar rules and in order; the pair is
    non-conformant as soon as the list has an element. *)
Lemma list_result_outcome self g exe f v l :
  JSExecutableRun.execute exe g [PyTerm f; PyTerm v] = Ok (PyList l) ->
  _evaluate_js_exe self g [(f, [v])] exe =
    Ok (if l is [] then false else true, flat_map (scalar_reports self f v) l).
Proof.
  intros Hex. rewrite (evaluate_one_pair _ _ _ _ _ _ Hex). simpl.
  by rewrite list_loop_spec.
Qed.

(** Every report of a list result stems from an element that fails by the
    scalar rules. *)
Lemma list_reports_from_failing self f v l r :
  r ∈ flat_map (scalar_reports self f v) l ->
  exists e, e ∈ l /\ scalar_fails e = true /\ r ∈ scalar_reports self f v e.
Proof.
  rewrite list_elem_of_In, in_flat_map. intros (e & He & Hr).
  exists e. rewrite !list_elem_of_In. split; [done|]. split; [|done].
  destruct e as [| [|] | | | | | | |]; simpl in *; tauto.
Qed.

(** An element that fails by the scalar rules contributes exactly one
    report. *)
Lemma scalar_reports_length self f v e :
  length (scalar_reports self f v e) = if scalar_fails e then 1%nat else 0%nat.
Proof. by destruct e as [| [|] | | | | | | |]. Qed.
End JSConstraintLists.

Section JSConstraintListExamples.
Import JSConstraint Concrete.

(** The list [[false, true, "m"]] gives exactly two reports, one for
    [false] and one for ["m"]. *)
Example list_false_true_m :
  _evaluate_js_exe (js := const_engine (PyList [PyBool false; PyBool true; PyStr "m"]))
    ex_self [] [(ex_f, [ex_v])] ex_exe =
  Ok (true, [mk_v_result (PyTerm ex_f) (PyTerm ex_v) PyNone None None;
             mk_v_result (PyTerm ex_f) (PyTerm ex_v) PyNone
               (Some [LiteralOf (PyStr "m")]) None]).
Proof. reflexivity. Qed.

(** C2, at the list [[true]].  The specification has this pair conformant
    with no report.  The code sets [failed = True] for every list entry before it
    looks at the entry, so the pair comes out non-conformant, still with
    no report; the same [true] returned on its own passes. *)
Theorem list_of_true_is_non_conformant :
  _evaluate_js_exe (js := const_engine (PyList [PyBool true]))
    ex_self [] [(ex_f, [ex_v])] ex_exe = Ok (true, []) /\
  evaluate (js := const_engine (PyList [PyBool true])) ex_self [] [(ex_f, [ex_v])]
    = Ok (false, []) /\
  evaluate (js := const_engine (PyBool true)) ex_self [] [(ex_f, [ex_v])]
    = Ok (true, []).
Proof. repeat split. Qed.
End JSConstraintListExamples.

(** ** JSExecutable: the function name *)

Section JSExecutableFnName.
Context {rt : Runtime}.
Import JSExecutable.

Lemma set_order_length l : length (set_order l) = length (remove_dups l).
Proof. by rewrite set_order_perm. Qed.

Lemma set_order_singleton l x : remove_dups l = [x] -> set_order l = [x].
Proof.
  intros Hx. apply Permutation_singleton_r. by rewrite set_order_perm, Hx.
Qed.

Lemma set_order_nil l : l = [] -> set_order l = [].
Proof. intros ->. apply Permutation_nil_r. by rewrite set_order_perm. Qed.

Lemma set_order_elem_of l x : x ∈ set_order l <-> x ∈ l.
Proof. by rewrite set_order_perm, elem_of_remove_dups. Qed.

Lemma init_raise_fn_name sg node msg :
  init_fn_name sg node = Raise (ConstraintLoadError msg link) ->
  init sg node = Raise (ConstraintLoadError msg link).
Proof. unfold init. by intros ->. Qed.

End JSExecutableFnName.

(** ** JSExecutable: the libraries *)

Lemma Dict_set_set {K V} `{EqDecision K} (k : K) (v v' : V) (d : list (K * V)) :
  Dict.set k v (Dict.set k v' d) = Dict.set k v d.
Proof.
  induction d as [|[k0 v0] d IH]; simpl.
  - by rewrite decide_True.
  - destruct (decide (k = k0)) as [->|Hne]; simpl.
    + by rewrite decide_True.
    + rewrite decide_False; [by rewrite IH | done].
Qed.

Lemma Dict_set_id {K V} `{EqDecision K} (k : K) (v : V) (d : list (K * V)) :
  Dict.get k d = Some v -> Dict.set k v d = d.
Proof.
  induction d as [|[k0 v0] d IH]; simpl; [done|].
  destruct (decide (k = k0)) as [->|Hne].
  - by intros [= ->].
  - intros Hget. by rewrite IH.
Qed.

Section JSExecutableLibraries.
Import JSExecutable.

Lemma append_urls_spec libn urls libraries l0 :
  Dict.get libn libraries = Some l0 ->
  append_urls libn urls libraries =
    if forallb is_literal urls
    then Ok (Dict.set libn (l0 ++ (term_str <$> urls)) libraries)
    else Raise (ConstraintLoadError
                  "sh:jsLibraryURL must have a value that is a Literal." link).
Proof.
  revert libraries l0. induction urls as [|u urls IH]; intros libraries l0 Hget.
  - simpl. by rewrite app_nil_r, Dict_set_id.
  - simpl. destruct (is_literal u); simpl; [|done].
    rewrite Hget. rewrite (IH _ (l0 ++ [term_str u])) by apply Dict_get_set_eq.
    by rewrite Dict_set_set, <-app_assoc.
Qed.

(** What a visit of a node that has no entry in [libraries] yet does. *)
Lemma visit_spec sg libn seen libraries :
  Dict.get libn libraries = None ->
  visit sg libn (seen, libraries) =
    if is_literal libn then
      Raise (ConstraintLoadError
               "sh:jsLibrary must not have a value that is a Literal." link)
    else if forallb is_literal (library_urls sg libn) then
      Ok (seen ++ [libn],
          if library_urls sg libn is [] then libraries
          else Dict.set libn (term_str <$> library_urls sg libn) libraries)
    else Raise (ConstraintLoadError
                  "sh:jsLibraryURL must have a value that is a Literal." link).
Proof.
  intros Hget. unfold visit, library_urls.
  destruct (is_literal libn); [done|].
  destruct (objects sg libn SH_jsLibraryURL) as [|u urls] eqn:E; [done|].
  rewrite Hget. cbn [length Nat.ltb Nat.leb default from_option id].
  rewrite (append_urls_spec _ _ _ []) by apply Dict_get_set_eq.
  destruct (forallb is_literal (u :: urls)); [|done].
  cbn [obind]. by rewrite Dict_set_set.
Qed.

Lemma load_error_or_bind {A B} (P : A -> Prop) (Q : B -> Prop)
    (m : outcome A) (k : A -> outcome B) :
  load_error_or P m ->
  (forall a, P a -> load_error_or Q (k a)) ->
  load_error_or Q (obind m k).
Proof. destruct m as [a|e]; simpl; auto. Qed.

Lemma load_error_or_mono {A} (P Q : A -> Prop) (m : outcome A) :
  load_error_or P m -> (forall a, P a -> Q a) -> load_error_or Q m.
Proof. destruct m as [a|e]; simpl; auto. Qed.

(** A visit of a node that has not been seen keeps the invariant and adds
    exactly that node. *)
Lemma visit_inv sg libn st :
  libs_inv sg st -> libn ∉ st.1 ->
  load_error_or (fun st' => libs_inv sg st' /\ st'.1 = st.1 ++ [libn]) (visit sg libn st).
Proof.
  destruct st as [seen libraries]. intros (Hnd & Hlit & Hget) Hnew.
  simpl in Hnd, Hlit, Hget, Hnew.
  rewrite visit_spec; last first.
  { rewrite Hget. rewrite decide_False; [done | tauto]. }
  destruct (is_literal libn) eqn:Elit; simpl; [by eexists|].
  destruct (forallb is_literal (library_urls sg libn)) eqn:Eurls; simpl; [|by eexists].
  split; [|done]. split; [|split]; simpl.
  - apply NoDup_app. split; [done|]. split; [|apply NoDup_singleton].
    intros x Hx ->%list_elem_of_singleton. done.
  - intros x [Hx| ->%list_elem_of_singleton]%elem_of_app; [by apply Hlit | done].
  - intros k. destruct (library_urls sg libn) as [|u urls] eqn:E.
    + rewrite Hget. destruct (decide (k = libn)) as [->|Hne].
      * rewrite !decide_False; [done | | tauto]. rewrite E. tauto.
      * apply decide_ext. rewrite elem_of_app, list_elem_of_singleton. tauto.
    + destruct (decide (k = libn)) as [->|Hne].
      * rewrite Dict_get_set_eq, decide_True; [by rewrite E|].
        split; [apply elem_of_app; right; by apply list_elem_of_singleton | by rewrite E].
      * rewrite Dict_get_set_ne by done. rewrite Hget.
        apply decide_ext. rewrite elem_of_app, list_elem_of_singleton. tauto.
Qed.

(** The inner loop keeps the invariant; afterwards the seen nodes are the
    old ones and the nodes it was given. *)
Lemma inner_loop_inv sg library_defs2 st :
  libs_inv sg st ->
  load_error_or
    (fun st' => libs_inv sg st' /\ forall x, x ∈ st'.1 <-> x ∈ st.1 \/ x ∈ library_defs2)
    (inner_loop sg library_defs2 st).
Proof.
  revert st. induction library_defs2 as [|libn2 rest IH]; intros st Hinv; simpl.
  - split; [done|]. intros x. rewrite elem_of_nil. tauto.
  - destruct (decide (libn2 ∈ st.1)) as [Hin|Hnew].
    + eapply load_error_or_mono; [by apply IH|]. simpl. intros st' [Hi Hx].
      split; [done|]. intros x. rewrite Hx, elem_of_cons.
      split; [tauto|]. intros [?|[->|?]]; tauto.
    + eapply load_error_or_bind; [by apply visit_inv|]. simpl.
      intros st1 [Hi1 Hs1]. eapply load_error_or_mono; [by apply IH|]. simpl.
      intros st' [Hi Hx]. split; [done|]. intros x.
      rewrite Hx, Hs1, elem_of_app, list_elem_of_singleton, elem_of_cons. tauto.
Qed.

(** The outer loop keeps the invariant; afterwards every node it was given
    is seen, and every seen node is an old one, a node it was given, or a
    library declared by a node it was given: nothing deeper. *)
Lemma outer_loop_inv sg library_defs st :
  libs_inv sg st ->
  load_error_or
    (fun st' =>
       libs_inv sg st' /\
       (forall x, x ∈ st.1 \/ x ∈ library_defs -> x ∈ st'.1) /\
       (forall x, x ∈ st'.1 ->
          x ∈ st.1 \/ x ∈ library_defs \/
          exists d, d ∈ library_defs /\ x ∈ declared_libraries sg d))
    (outer_loop sg library_defs st).
Proof.
  revert st. induction library_defs as [|libn rest IH]; intros st Hinv; simpl.
  - split; [done|]. split; [|tauto]. intros x [?|[]%elem_of_nil]; done.
  - destruct (decide (libn ∈ st.1)) as [Hin|Hnew].
    + eapply load_error_or_mono; [by apply IH|]. simpl. intros st' (Hi & Hsub & Hsup).
      split; [done|]. split.
      * intros x [?|[->|?]%elem_of_cons]; apply Hsub; tauto.
      * intros x Hx. destruct (Hsup x Hx) as [?|[?|(d & Hd & Hxd)]]; [tauto| |].
        -- right; left. by apply elem_of_cons; right.
        -- right; right. exists d. split; [by apply elem_of_cons; right | done].
    + eapply load_error_or_bind; [by apply visit_inv|]. simpl.
      intros st1 [Hi1 Hs1].
      eapply load_error_or_bind; [by apply inner_loop_inv|]. simpl.
      intros st2 [Hi2 Hs2].
      eapply load_error_or_mono; [by apply IH|]. simpl. intros st' (Hi & Hsub & Hsup).
      split; [done|]. split.
      * intros x Hx. apply Hsub. rewrite Hs2, Hs1, elem_of_app, list_elem_of_singleton.
        destruct Hx as [?|[->|?]%elem_of_cons]; tauto.
      * intros x Hx. destruct (Hsup x Hx) as [Hx2|[?|(d & Hd & Hxd)]].
        -- apply Hs2 in Hx2. rewrite Hs1, elem_of_app, list_elem_of_singleton in Hx2.
           destruct Hx2 as [[?| ->]|Hn]; [tauto | right; left; by left |].
           right; right. exists libn. split; [by left | done].
        -- right; left. by apply elem_of_cons; right.
        -- right; right. exists d. split; [by apply elem_of_cons; right | done].
Qed.

Lemma libs_inv_empty sg : libs_inv sg ([], []).
Proof.
  split; [apply NoDup_nil_2|]. split.
  - by intros x ?%elem_of_nil.
  - intros k. cbn [fst snd Dict.get].
    case_decide as Hd; [by destruct Hd as [?%elem_of_nil _] | done].
Qed.
End JSExecutableLibraries.

Section JSExecutableLibraryClaims.
Import JSExecutable.

(** The libraries loops raise nothing but [ConstraintLoadError]; when they
    return, every library node was visited at most once, the visited nodes are
    the direct libraries and libraries they declare, none is a Literal, all
    their URLs are Literals, and [libraries] holds for each visited node with
    URLs the strings of these URLs in declaration order. *)
Lemma init_libraries_spec sg node :
  load_error_or
    (fun st =>
       NoDup st.1 /\
       (forall x, x ∈ declared_libraries sg node -> x ∈ st.1) /\
       (forall x, x ∈ st.1 ->
          x ∈ declared_libraries sg node \/
          exists d, d ∈ declared_libraries sg node /\ x ∈ declared_libraries sg d) /\
       (forall x, x ∈ st.1 ->
          is_literal x = false /\ forallb is_literal (library_urls sg x) = true) /\
       (forall k, Dict.get k st.2 =
                  if decide (k ∈ st.1 /\ library_urls sg k <> [])
                  then Some (term_str <$> library_urls sg k) else None))
    (init_libraries sg node).
Proof.
  unfold init_libraries.
  eapply load_error_or_mono; [apply outer_loop_inv, libs_inv_empty|].
  simpl. intros st ((Hnd & Hlit & Hget) & Hsub & Hsup).
  split; [done|]. split; [by auto|]. split; [|done].
  intros x Hx. destruct (Hsup x Hx) as [[]%elem_of_nil|?]; tauto.
Qed.

(** A direct library node that is a Literal makes the loops raise. *)
Lemma literal_library_raises sg node d :
  d ∈ declared_libraries sg node -> is_literal d = true ->
  exists msg, init_libraries sg node = Raise (ConstraintLoadError msg link).
Proof.
  intros Hd Hlit. pose proof (init_libraries_spec sg node) as Hspec.
  destruct (init_libraries sg node) as [st|e]; simpl in Hspec.
  - destruct Hspec as (_ & Hsub & _ & Hnl & _).
    destruct (Hnl d (Hsub d Hd)) as [Hf _]. congruence.
  - destruct Hspec as [msg ->]. by exists msg.
Qed.

(** A URL of a direct library node that is not a Literal makes them raise. *)
Lemma non_literal_url_raises sg node d u :
  d ∈ declared_libraries sg node -> u ∈ library_urls sg d -> is_literal u = false ->
  exists msg, init_libraries sg node = Raise (ConstraintLoadError msg link).
Proof.
  intros Hd Hu Hlit. pose proof (init_libraries_spec sg node) as Hspec.
  destruct (init_libraries sg node) as [st|e]; simpl in Hspec.
  - destruct Hspec as (_ & Hsub & _ & Hnl & _).
    destruct (Hnl d (Hsub d Hd)) as [_ Hall].
    rewrite forallb_forall in Hall. apply list_elem_of_In, Hall in Hu. congruence.
  - destruct Hspec as [msg ->]. by exists msg.
Qed.

(** The libraries declared by a direct library are collected when that
    direct library is not itself declared by another direct library. *)
Lemma outer_loop_expands sg library_defs st st' d :
  libs_inv sg st -> outer_loop sg library_defs st = Ok st' ->
  d ∈ library_defs -> d ∉ st.1 ->
  (forall d', d' ∈ library_defs -> d' <> d -> d ∉ declared_libraries sg d') ->
  forall x, x ∈ declared_libraries sg d -> x ∈ st'.1.
Proof.
  revert st. induction library_defs as [|libn rest IH]; intros st Hinv Hok Hd Hnew Hother x Hx.
  { by apply elem_of_nil in Hd. }
  simpl in Hok. destruct (decide (libn ∈ st.1)) as [Hin|Hnin].
  - apply (IH st); try done.
    + apply elem_of_cons in Hd as [->|?]; done.
    + intros d' Hd'. apply Hother. by apply elem_of_cons; right.
  - apply obind_Ok in Hok as (st1 & Hv & Hok).
    apply obind_Ok in Hok as (st2 & Hi & Hok).
    pose proof (visit_inv sg libn st Hinv Hnin) as Hv'. rewrite Hv in Hv'.
    simpl in Hv'. destruct Hv' as [Hinv1 Hs1].
    pose proof (inner_loop_inv sg (objects sg libn SH_jsLibrary) st1 Hinv1) as Hi'.
    rewrite Hi in Hi'. simpl in Hi'. destruct Hi' as [Hinv2 Hs2].
    pose proof (outer_loop_inv sg rest st2 Hinv2) as Ho. rewrite Hok in Ho.
    simpl in Ho. destruct Ho as (_ & Hsub & _).
    destruct (decide (d = libn)) as [->|Hne].
    + apply Hsub. left. apply Hs2. by right.
    + apply (IH st2); try done.
      * apply elem_of_cons in Hd as [?|?]; done.
      * rewrite Hs2, Hs1, elem_of_app, list_elem_of_singleton.
        intros [[?|?]|Hn]; [done | done |].
        apply (Hother libn); [by left | done | done].
      * intros d' Hd'. apply Hother. by apply elem_of_cons; right.
Qed.

Lemma nested_libraries_collected sg node st d :
  init_libraries sg node = Ok st ->
  d ∈ declared_libraries sg node ->
  (forall d', d' ∈ declared_libraries sg node -> d' <> d -> d ∉ declared_libraries sg d') ->
  forall x, x ∈ declared_libraries sg d -> x ∈ st.1.
Proof.
  intros Hok Hd Hother. eapply outer_loop_expands; eauto using libs_inv_empty.
  by intros ?%elem_of_nil.
Qed.

(** C5, at a source node that lists the libraries [lib1] and [lib2], where
    [lib1] declares [lib2] and [lib2] declares [lib3].  The specification has
    the libraries of every direct library collected, so [lib3] among them,
    and has construction raise when a library node is a Literal.  When the
    graph yields [lib1] before [lib2], [lib2] is first met as a library of
    [lib1] and is skipped when it comes up as a direct library: [lib3] is
    not collected, and a Literal that [lib2] declares as a library goes
    unnoticed.  With [lib2] yielded first both are handled. *)
Theorem direct_library_seen_nested_is_skipped :
  let rt := Concrete.runtime in
  let lib1 := Concrete.lib1 in
  let lib2 := Concrete.lib2 in
  let lib3 := Concrete.lib3 in
  lib3 ∈ declared_libraries (Concrete.lib_graph [lib1; lib2] [lib3]) lib2 /\
  init_libraries (Concrete.lib_graph [lib1; lib2] [lib3]) Concrete.js_node
    = Ok ([lib1; lib2], [(lib1, ["a.js"]); (lib2, ["b.js"])]) /\
  init_libraries (Concrete.lib_graph [lib2; lib1] [lib3]) Concrete.js_node
    = Ok ([lib2; lib3; lib1], [(lib2, ["b.js"]); (lib3, ["c.js"]); (lib1, ["a.js"])]) /\
  init (Concrete.lib_graph [lib1; lib2] [Literal "oops"]) Concrete.js_node
    = Ok (mk (Concrete.lib_graph [lib1; lib2] [Literal "oops"]) Concrete.js_node "check"
            [(lib1, ["a.js"]); (lib2, ["b.js"])]) /\
  is_raise (init (Concrete.lib_graph [lib2; lib1] [Literal "oops"]) Concrete.js_node) = true.
Proof.
  repeat split; try reflexivity. by vm_compute; left.
Qed.
End JSExecutableLibraryClaims.

(** ** JSExecutable: when construction returns *)

Section JSExecutableConstruction.
Context {rt : Runtime}.
Import JSExecutable.

(** A visit of an accepted node that has not been seen returns. *)
Lemma visit_Ok sg libn st :
  libs_inv sg st -> libn ∉ st.1 -> library_ok sg libn ->
  exists st', visit sg libn st = Ok st' /\ libs_inv sg st'.
Proof.
  intros Hinv Hnew [Hlit Hurls].
  pose proof (visit_inv sg libn st Hinv Hnew) as Hv.
  destruct st as [seen libraries]. destruct Hinv as (_ & _ & Hget).
  simpl in Hget, Hnew.
  rewrite visit_spec in Hv |- *;
    try (rewrite Hget; rewrite decide_False; [done | tauto]).
  rewrite Hlit, Hurls in Hv |- *. simpl in Hv. eexists. split; [done | apply Hv].
Qed.

(** The inner loop returns when every node it is given is accepted. *)
Lemma inner_loop_Ok sg library_defs2 st :
  libs_inv sg st -> (forall x, x ∈ library_defs2 -> library_ok sg x) ->
  exists st', inner_loop sg library_defs2 st = Ok st' /\ libs_inv sg st'.
Proof.
  revert st. induction library_defs2 as [|libn2 rest IH]; intros st Hinv Hok; simpl.
  - by exists st.
  - assert (Hrest : forall x, x ∈ rest -> library_ok sg x)
      by (intros x Hx; apply Hok; by right).
    destruct (decide (libn2 ∈ st.1)) as [Hin|Hnew]; [by apply IH|].
    destruct (visit_Ok sg libn2 st Hinv Hnew) as (st1 & -> & Hinv1);
      [apply Hok; by left|].
    simpl. by apply IH.
Qed.

(** The outer loop returns when every node it is given, and every library
    node one of them declares, is accepted. *)
Lemma outer_loop_Ok sg library_defs st :
  libs_inv sg st ->
  (forall x, x ∈ library_defs -> library_ok sg x) ->
  (forall d x, d ∈ library_defs -> x ∈ declared_libraries sg d -> library_ok sg x) ->
  exists st', outer_loop sg library_defs st = Ok st'.
Proof.
  revert st. induction library_defs as [|libn rest IH]; intros st Hinv Hok Hnested; simpl.
  - by exists st.
  - assert (Hrest : forall x, x ∈ rest -> library_ok sg x)
      by (intros x Hx; apply Hok; by right).
    assert (Hnrest : forall d x, d ∈ rest -> x ∈ declared_libraries sg d -> library_ok sg x)
      by (intros d x Hd; apply Hnested; by right).
    destruct (decide (libn ∈ st.1)) as [Hin|Hnew]; [by apply IH|].
    destruct (visit_Ok sg libn st Hinv Hnew) as (st1 & -> & Hinv1);
      [apply Hok; by left|].
    simpl.
    destruct (inner_loop_Ok sg (objects sg libn SH_jsLibrary) st1 Hinv1)
      as (st2 & -> & Hinv2); [intros x; apply Hnested; by left|].
    simpl. by apply IH.
Qed.

(** The library loops return on well-formed library declarations. *)
Lemma init_libraries_Ok sg node :
  libraries_well_formed sg node -> exists st, init_libraries sg node = Ok st.
Proof.
  intros Hwf. unfold init_libraries. apply outer_loop_Ok.
  - apply libs_inv_empty.
  - intros x Hx. apply Hwf. by left.
  - intros d x Hd Hx. apply Hwf. right. by exists d.
Qed.

(** C4. Construction from a source node: no [sh:jsFunctionName] object
    raises [ConstraintLoadError]; more than one raises it; exactly one that
    is not a Literal raises it.  With exactly one Literal the name check
    passes with the string of that Literal, and construction goes on to the
    library loops: it returns an executable exactly when these return, and
    that executable carries the string as [fn_name]; it does return when the
    library declarations are well formed; and when the loops raise,
    construction raises [ConstraintLoadError]. *)
Theorem fn_name_declaration sg node :
  let fn_names := remove_dups (objects sg node SH_jsFunctionName) in
  (fn_names = [] -> raises_load_error (init sg node)) /\
  ((1 < length fn_names)%nat -> raises_load_error (init sg node)) /\
  (forall x, fn_names = [x] -> is_literal x = false -> raises_load_error (init sg node)) /\
  (forall s, fn_names = [Literal s] ->
     init_fn_name sg node = Ok s /\
     init sg node = (st <-- init_libraries sg node ;; Ok (mk sg node s st.2)) /\
     (libraries_well_formed sg node ->
        exists exe, init sg node = Ok exe /\ fn_name exe = s) /\
     (forall exe, init sg node = Ok exe -> fn_name exe = s) /\
     (is_raise (init_libraries sg node) = true -> raises_load_error (init sg node))).
Proof.
  intros fn_names. split; [|split; [|split]].
  - intros Hnil. eexists _, _. apply init_raise_fn_name. unfold init_fn_name.
    rewrite set_order_length. fold fn_names. by rewrite Hnil.
  - intros Hlen. eexists _, _. apply init_raise_fn_name. unfold init_fn_name.
    rewrite set_order_length. fold fn_names.
    destruct (length fn_names) as [|[|n]] eqn:E; simpl; [lia | lia | done].
  - intros x Hx Hlit. eexists _, _. apply init_raise_fn_name. unfold init_fn_name.
    rewrite (set_order_singleton _ x Hx). simpl. by rewrite Hlit.
  - intros s Hs.
    assert (Hname : init_fn_name sg node = Ok s)
      by (unfold init_fn_name; by rewrite (set_order_singleton _ _ Hs)).
    assert (Hinit : init sg node = (st <-- init_libraries sg node ;; Ok (mk sg node s st.2)))
      by (unfold init; by rewrite Hname).
    split; [exact Hname|]. split; [exact Hinit|]. split; [|split].
    + intros Hwf. destruct (init_libraries_Ok sg node Hwf) as [st Hst].
      exists (mk sg node s st.2). rewrite Hinit, Hst. done.
    + intros exe. rewrite Hinit. destruct (init_libraries sg node); simpl; [|done].
      by intros [= <-].
    + intros Hraise. rewrite Hinit.
      pose proof (init_libraries_spec sg node) as Hspec.
      destruct (init_libraries sg node) as [st|e]; [done|].
      simpl in Hspec. destruct Hspec as [msg ->]. by eexists _, _.
Qed.
End JSExecutableConstruction.

(** C4, at a source node with the one function name ["check"] whose
    [sh:jsLibrary] object is a Literal: the name check passes, and
    construction raises all the same. *)
Lemma literal_library_fails_construction :
  let sg := Concrete.lib_graph [Literal "oops"] [] in
  remove_dups (objects sg Concrete.js_node SH_jsFunctionName) = [Literal "check"] /\
  JSExecutable.init_fn_name (rt := Concrete.runtime) sg Concrete.js_node = Ok "check" /\
  JSExecutable.init (rt := Concrete.runtime) sg Concrete.js_node =
    Raise (ConstraintLoadError "sh:jsLibrary must not have a value that is a Literal."
             JSExecutable.link) /\
  ~ (exists exe, JSExecutable.init (rt := Concrete.runtime) sg Concrete.js_node = Ok exe /\
                 JSExecutable.fn_name exe = "check").
Proof.
  intros sg. split; [reflexivity|]. split; [reflexivity|]. split; [reflexivity|].
  intros (exe & Hexe & _). discriminate Hexe.
Qed.

Lemma fn_name_declaration_witness :
  let sg := Concrete.lib_graph [Concrete.lib1] [Concrete.lib3] in
  remove_dups (objects sg Concrete.js_node SH_jsFunctionName) = [Literal "check"] /\
  libraries_well_formed sg Concrete.js_node /\
  JSExecutable.init_libraries sg Concrete.js_node
    = Ok ([Concrete.lib1; Concrete.lib2],
          [(Concrete.lib1, ["a.js"]); (Concrete.lib2, ["b.js"])]) /\
  JSExecutable.init (rt := Concrete.runtime) sg Concrete.js_node
    = Ok (JSExecutable.mk sg Concrete.js_node "check"
            [(Concrete.lib1, ["a.js"]); (Concrete.lib2, ["b.js"])]) /\
  exists exe, JSExecutable.init (rt := Concrete.runtime) sg Concrete.js_node = Ok exe /\
              JSExecutable.fn_name exe = "check".
Proof.
  intros sg.
  assert (Hwf : libraries_well_formed sg Concrete.js_node).
  { assert (Hd1 : declared_libraries sg Concrete.js_node = [Concrete.lib1]) by reflexivity.
    assert (Hd2 : declared_libraries sg Concrete.lib1 = [Concrete.lib2]) by reflexivity.
    intros x [Hx|(d & Hd & Hx)].
    - rewrite Hd1 in Hx. apply list_elem_of_singleton in Hx as ->. by split.
    - rewrite Hd1 in Hd. apply list_elem_of_singleton in Hd as ->.
      rewrite Hd2 in Hx. apply list_elem_of_singleton in Hx as ->. by split. }
  split; [reflexivity|]. split; [exact Hwf|]. split; [reflexivity|].
  destruct (fn_name_declaration (rt := Concrete.runtime) sg Concrete.js_node)
    as (_ & _ & _ & Hone).
  destruct (Hone "check" eq_refl) as (_ & Hinit & Hok & _).
  split; [exact Hinit | exact (Hok Hwf)].
Defined.

(** ** JSConstraintComponent: the choice of a validator *)

Section ValidatorPrecedence.
Context {rt : Runtime} {js : JSEngine}.
Import JSConstraintComponent.

Lemma next_iter_elem_of {A} (xs : list A) :
  xs <> [] -> exists x, next_iter xs = Ok x /\ x ∈ xs.
Proof. destruct xs as [|x xs]; [done|]. intros _. exists x. split; [done | by left]. Qed.

Lemma length_pos_nonempty {A} (xs : list A) : (0 <? length xs)%nat = true <-> xs <> [].
Proof. destruct xs; simpl; split; intros; done. Qed.

Lemma length_pos_empty {A} (xs : list A) : xs = [] -> (0 <? length xs)%nat = false.
Proof. by intros ->. Qed.

(** [__init__] never touches the cache. *)
Lemma init_validator_cache self sg node w :
  JSConstraintComponentValidator.validator_cache
    (JSConstraintComponentValidator.init self sg node w).2
  = JSConstraintComponentValidator.validator_cache w.
Proof.
  unfold JSConstraintComponentValidator.init.
  destruct (JSConstraintComponentValidator.heap w !! self) as [inst|]; [|done].
  destruct (JSConstraintComponentValidator.initialised inst); [done|].
  destruct (JSConstraintComponentValidator.check_messages _); [|done].
  by destruct (JSExecutable.init sg node).
Qed.

(** The object a construction returns is the one cached under its key. *)
Lemma construct_cached sg node w a w' :
  JSConstraintComponentValidator.construct sg node w = (Ok a, w') ->
  JSConstraintComponentValidator.validator_cache w' !! (graph_id sg, term_str node) = Some a.
Proof.
  unfold JSConstraintComponentValidator.construct.
  destruct (JSConstraintComponentValidator.new sg node w) as [self w1] eqn:Enew.
  pose proof (init_validator_cache self sg node w1) as Hc.
  destruct (JSConstraintComponentValidator.init self sg node w1) as [r w2].
  destruct r as [[]|e]; simpl; [|done]. intros [= <- <-]. simpl in Hc. rewrite Hc.
  unfold JSConstraintComponentValidator.new in Enew.
  destruct (JSConstraintComponentValidator.validator_cache w !! _) as [found|] eqn:E.
  - by injection Enew as <- <-.
  - injection Enew as <- <-. simpl. apply lookup_insert_eq.
Qed.

(** C6. [make_validator_for_shape] chooses the validator node by a fixed
    precedence: a property shape takes a property-scoped validator when
    there is one; a node shape takes a node-scoped validator when there is
    one; otherwise a generic validator is taken when there is one; and
    [ConstraintLoadError] is raised, with the cache untouched, when none
    applies.  The statement holds for the three collections in any order, so
    the order of declaration cannot change the kind of validator chosen.
    With a node chosen, the function constructs the validator of that node
    and binds the parameters of the shape: it returns the bound component,
    which holds the validator cached for the chosen node, whenever both
    return, and it raises what the first of them to fail raises. *)
Theorem validator_precedence (self : Component) (shape : Shape) :
  (is_property_shape shape = true -> property_validators self <> [] ->
     exists n, select_validator_node self shape = Ok n /\ n ∈ property_validators self) /\
  (is_property_shape shape = false -> node_validators self <> [] ->
     exists n, select_validator_node self shape = Ok n /\ n ∈ node_validators self) /\
  ((if is_property_shape shape then property_validators self else node_validators self) = [] ->
     (validators self <> [] ->
        exists n, select_validator_node self shape = Ok n /\ n ∈ validators self) /\
     (validators self = [] ->
        raises_load_error (select_validator_node self shape) /\
        forall w, exists e, make_validator_for_shape self shape w = (Raise e, w) /\
                            select_validator_node self shape = Raise e)) /\
  (forall w w' bound,
     make_validator_for_shape self shape w = (Ok bound, w') ->
     exists n, select_validator_node self shape = Ok n /\
       JSConstraintComponentValidator.validator_cache w'
         !! (graph_id (component_sg self), term_str n)
       = Some (BoundShapeJSValidatorComponent.validator bound)) /\
  (forall n w, select_validator_node self shape = Ok n ->
     (forall a w' m,
        JSConstraintComponentValidator.construct (component_sg self) n w = (Ok a, w') ->
        BoundShapeJSValidatorComponent.bind_params self shape = Ok m ->
        make_validator_for_shape self shape w
        = (Ok (BoundShapeJSValidatorComponent.mk shape self a m []), w') /\
        JSConstraintComponentValidator.validator_cache w'
          !! (graph_id (component_sg self), term_str n) = Some a) /\
     (forall e w',
        JSConstraintComponentValidator.construct (component_sg self) n w = (Raise e, w') ->
        make_validator_for_shape self shape w = (Raise e, w')) /\
     (forall a w' e,
        JSConstraintComponentValidator.construct (component_sg self) n w = (Ok a, w') ->
        BoundShapeJSValidatorComponent.bind_params self shape = Raise e ->
        make_validator_for_shape self shape w = (Raise e, w'))).
Proof.
  split; [|split; [|split; [|split]]].
  - intros Hp Hne. unfold select_validator_node. rewrite Hp.
    rewrite (proj2 (length_pos_nonempty _) Hne). by apply next_iter_elem_of.
  - intros Hp Hne. unfold select_validator_node. rewrite Hp.
    rewrite (proj2 (length_pos_nonempty _) Hne). by apply next_iter_elem_of.
  - intros Hnone.
    assert (Hsel : select_validator_node self shape =
                   if (0 <? length (validators self))%nat then next_iter (validators self)
                   else Raise (ConstraintLoadError
                          "Cannot select a validator to use, according to the rules."
                          "https://www.w3.org/TR/shacl/#constraint-components-validators")).
    { unfold select_validator_node.
      destruct (is_property_shape shape); rewrite (length_pos_empty _ Hnone); simpl;
        rewrite ?andb_false_r; done. }
    split.
    + intros Hne. rewrite Hsel, (proj2 (length_pos_nonempty _) Hne).
      by apply next_iter_elem_of.
    + intros Hv. rewrite Hsel, (length_pos_empty _ Hv). split; [by eexists _, _|].
      intros w. eexists. unfold make_validator_for_shape.
      rewrite Hsel, (length_pos_empty _ Hv). done.
  - intros w w' bound. unfold make_validator_for_shape.
    destruct (select_validator_node self shape) as [n|e]; [|done].
    destruct (JSConstraintComponentValidator.construct _ n w) as [r w1] eqn:Ec.
    destruct r as [a|e]; [|done].
    unfold JSConstraintComponentValidator.apply_to_shape_via_constraint,
      BoundShapeJSValidatorComponent.init.
    destruct (BoundShapeJSValidatorComponent.bind_params self shape) as [m|e]; simpl; [|done].
    intros [= <- <-]. exists n. split; [done|]. simpl. by apply construct_cached in Ec.
  - intros n w Hsel. unfold make_validator_for_shape. rewrite Hsel.
    split; [|split].
    + intros a w' m Hc Hb. rewrite Hc.
      unfold JSConstraintComponentValidator.apply_to_shape_via_constraint,
        BoundShapeJSValidatorComponent.init.
      rewrite Hb. split; [done|]. by apply construct_cached in Hc.
    + intros e w' Hc. by rewrite Hc.
    + intros a w' e Hc Hb. rewrite Hc.
      unfold JSConstraintComponentValidator.apply_to_shape_via_constraint,
        BoundShapeJSValidatorComponent.init.
      by rewrite Hb.
Qed.
End ValidatorPrecedence.

Lemma validator_precedence_witness :
  let rt := Concrete.runtime in
  let c := Concrete.precedence_component in
  let w0 := JSConstraintComponentValidator.empty_world in
  (is_property_shape Concrete.ex_property_shape = true /\
   property_validators c <> [] /\
   JSConstraintComponent.select_validator_node c Concrete.ex_property_shape
     = Ok (URIRef "ex:forProperties") /\
   (exists n, JSConstraintComponent.select_validator_node c Concrete.ex_property_shape = Ok n /\
              n ∈ property_validators c) /\
   exists w1,
     JSConstraintComponentValidator.construct (component_sg c) (URIRef "ex:forProperties") w0
       = (Ok 0%nat, w1) /\
     BoundShapeJSValidatorComponent.bind_params c Concrete.ex_property_shape = Ok ∅ /\
     JSConstraintComponent.make_validator_for_shape c Concrete.ex_property_shape w0
       = (Ok (BoundShapeJSValidatorComponent.mk Concrete.ex_property_shape c 0 ∅ []), w1) /\
     JSConstraintComponentValidator.validator_cache w1 !! (21%Z, "ex:forProperties")
       = Some 0%nat /\
     JSConstraintComponentValidator.js_exe <$> JSConstraintComponentValidator.heap w1 !! 0%nat
       = Some (Some (JSExecutable.mk Concrete.precedence_graph (URIRef "ex:forProperties")
                       "checkProperty" []))) /\
  (is_property_shape Concrete.ex_node_shape = false /\
   node_validators c <> [] /\
   JSConstraintComponent.select_validator_node c Concrete.ex_node_shape
     = Ok (URIRef "ex:forNodes") /\
   (exists n, JSConstraintComponent.select_validator_node c Concrete.ex_node_shape = Ok n /\
              n ∈ node_validators c) /\
   exists w1,
     JSConstraintComponentValidator.construct (component_sg c) (URIRef "ex:forNodes") w0
       = (Ok 0%nat, w1) /\
     BoundShapeJSValidatorComponent.bind_params c Concrete.ex_node_shape = Ok ∅ /\
     JSConstraintComponent.make_validator_for_shape c Concrete.ex_node_shape w0
       = (Ok (BoundShapeJSValidatorComponent.mk Concrete.ex_node_shape c 0 ∅ []), w1) /\
     JSConstraintComponentValidator.validator_cache w1 !! (21%Z, "ex:forNodes")
       = Some 0%nat /\
     JSConstraintComponentValidator.js_exe <$> JSConstraintComponentValidator.heap w1 !! 0%nat
       = Some (Some (JSExecutable.mk Concrete.precedence_graph (URIRef "ex:forNodes")
                       "checkNode" []))).
Proof.
  intros rt c w0.
  assert (Hp : property_validators c <> []) by done.
  assert (Hn : node_validators c <> []) by done.
  split.
  - destruct (validator_precedence (rt := rt) c Concrete.ex_property_shape)
      as (Hprop & _ & _ & _ & Hrun).
    split; [reflexivity|]. split; [exact Hp|]. split; [reflexivity|].
    split; [exact (Hprop eq_refl Hp)|].
    destruct (Hrun (URIRef "ex:forProperties") w0 eq_refl) as (Hok & _ & _).
    eexists. split; [reflexivity|]. split; [reflexivity|].
    destruct (Hok 0%nat _ ∅ eq_refl eq_refl) as [Hmake Hcache].
    split; [exact Hmake|]. split; [exact Hcache | reflexivity].
  - destruct (validator_precedence (rt := rt) c Concrete.ex_node_shape)
      as (_ & Hnode & _ & _ & Hrun).
    split; [reflexivity|]. split; [exact Hn|]. split; [reflexivity|].
    split; [exact (Hnode eq_refl Hn)|].
    destruct (Hrun (URIRef "ex:forNodes") w0 eq_refl) as (Hok & _ & _).
    eexists. split; [reflexivity|]. split; [reflexivity|].
    destruct (Hok 0%nat _ ∅ eq_refl eq_refl) as [Hmake Hcache].
    split; [exact Hmake|]. split; [exact Hcache | reflexivity].
Defined.

(** ** BoundShapeJSValidatorComponent: binding the parameters *)

Section BindParams.
Context {rt : Runtime}.
Import BoundShapeJSValidatorComponent.

Lemma set_order_empty_iff l : set_order l = [] <-> l = [].
Proof.
  split; [|apply set_order_nil].
  intros Hs. destruct l as [|x l]; [done|].
  assert (x ∈ set_order (x :: l)) as Hx by (apply set_order_elem_of; by left).
  rewrite Hs in Hx. by apply elem_of_nil in Hx.
Qed.

(** The value taken from a non-empty set of values is one of them. *)
Lemma set_order_pick l :
  l <> [] -> exists x rest, set_order l = x :: rest /\ x ∈ l.
Proof.
  intros Hne. destruct (set_order l) as [|x rest] eqn:E.
  - apply (proj1 (set_order_empty_iff l)) in E. by destruct Hne.
  - exists x, rest. split; [done|]. apply set_order_elem_of. rewrite E. by left.
Qed.

(** One round of the loop over the declared parameters. *)
Lemma bind_loop_step shape p rest bind_map :
  (localname p ∈ invalid_parameter_names ->
     bind_loop shape (p :: rest) bind_map =
       Raise (ReportableRuntimeError
                ("Parameter name " +:+ localname p +:+ " cannot be used."))) /\
  (localname p ∉ invalid_parameter_names -> shape_objects shape (path p) = [] ->
     optional p = false ->
     bind_loop shape (p :: rest) bind_map =
       Raise (ReportableRuntimeError
                ("Shape does not have mandatory parameter " +:+ term_str (path p) +:+ "."))) /\
  (localname p ∉ invalid_parameter_names -> shape_objects shape (path p) = [] ->
     optional p = true ->
     bind_loop shape (p :: rest) bind_map = bind_loop shape rest bind_map) /\
  (localname p ∉ invalid_parameter_names -> shape_objects shape (path p) <> [] ->
     exists x, x ∈ shape_objects shape (path p) /\
       bind_loop shape (p :: rest) bind_map =
         bind_loop shape rest (<[localname p := x]> bind_map)).
Proof.
  repeat split.
  - intros Hres. simpl. by rewrite decide_True.
  - intros Hok Hnone Hopt. simpl. rewrite decide_False by done.
    rewrite (set_order_nil _ Hnone). simpl. by rewrite Hopt.
  - intros Hok Hnone Hopt. simpl. rewrite decide_False by done.
    rewrite (set_order_nil _ Hnone). simpl. by rewrite Hopt.
  - intros Hok Hsome. simpl. rewrite decide_False by done.
    destruct (set_order_pick _ Hsome) as (x & xs & -> & Hx). by exists x.
Qed.

(** The whole loop: it raises nothing but [ReportableRuntimeError]; when it
    returns, no parameter had a reserved name, every parameter without a
    value was optional, and the map holds the old bindings and, for each
    parameter with values, one of its values under its local name. *)
Lemma bind_loop_spec shape params bind_map :
  runtime_error_or
    (fun m =>
       (forall p, p ∈ params ->
          (localname p ∉ invalid_parameter_names) /\
          (shape_objects shape (path p) = [] -> optional p = true)) /\
       (forall name x, m !! name = Some x ->
          bind_map !! name = Some x \/
          exists p, p ∈ params /\ localname p = name /\ x ∈ shape_objects shape (path p)) /\
       (forall p, p ∈ params -> shape_objects shape (path p) <> [] ->
          is_Some (m !! localname p)) /\
       (forall name,
          (forall p, p ∈ params -> localname p = name -> shape_objects shape (path p) = []) ->
          m !! name = bind_map !! name) /\
       (forall name, is_Some (bind_map !! name) -> is_Some (m !! name)))
    (bind_loop shape params bind_map).
Proof.
  revert bind_map. induction params as [|p rest IH]; intros bind_map.
  { simpl. split; [by intros p ?%elem_of_nil|]. split; [by left|].
    split; [by intros p ?%elem_of_nil | done]. }
  destruct (bind_loop_step shape p rest bind_map) as (Hres & Hmand & Hopt & Hbind).
  destruct (decide (localname p ∈ invalid_parameter_names)) as [Hin|Hok].
  { rewrite (Hres Hin). by eexists. }
  destruct (decide (shape_objects shape (path p) = [])) as [Hnone|Hsome].
  - destruct (optional p) eqn:Eopt; [|rewrite (Hmand Hok Hnone eq_refl); by eexists].
    rewrite (Hopt Hok Hnone eq_refl). specialize (IH bind_map).
    destruct (bind_loop shape rest bind_map) as [m|e]; [|done].
    simpl in IH |- *. destruct IH as (Ha & Hb & Hc & Hd & He).
    split; [|split; [|split; [|split]]].
    + intros q [->|Hq]%elem_of_cons; [done | by apply Ha].
    + intros name x Hm. destruct (Hb name x Hm) as [?|(q & Hq & ? & ?)]; [by left|].
      right. exists q. split; [by apply elem_of_cons; right | done].
    + intros q [->|Hq]%elem_of_cons Hv; [done | by apply Hc].
    + intros name Hall. apply Hd. intros q Hq. apply Hall. by apply elem_of_cons; right.
    + done.
  - destruct (Hbind Hok Hsome) as (x & Hx & ->).
    specialize (IH (<[localname p := x]> bind_map)).
    destruct (bind_loop shape rest _) as [m|e]; [|done].
    simpl in IH |- *. destruct IH as (Ha & Hb & Hc & Hd & He).
    split; [|split; [|split; [|split]]].
    + intros q [->|Hq]%elem_of_cons; [done | by apply Ha].
    + intros name y Hm. destruct (Hb name y Hm) as [Hins|(q & Hq & ? & ?)].
      * destruct (decide (localname p = name)) as [<-|Hne].
        -- rewrite lookup_insert_eq in Hins. injection Hins as <-.
           right. exists p. split; [by left | done].
        -- rewrite lookup_insert_ne in Hins by done. by left.
      * right. exists q. split; [by apply elem_of_cons; right | done].
    + intros q [->|Hq]%elem_of_cons Hv; [|by apply Hc].
      apply He. rewrite lookup_insert_eq. by eexists.
    + intros name Hall. rewrite Hd.
      * apply lookup_insert_ne. intros Heq. by apply Hsome, Hall; [left|].
      * intros q Hq. apply Hall. by apply elem_of_cons; right.
    + intros name Hn. apply He. destruct (decide (localname p = name)) as [<-|Hne].
      * rewrite lookup_insert_eq. by eexists.
      * by rewrite lookup_insert_ne.
Qed.


(** The reserved names. *)
Lemma invalid_parameter_names_spec name :
  name ∈ invalid_parameter_names <->
  name ∈ ["this"; "shapesGraph"; "currentShape"; "path"; "PATH"; "value"].
Proof.
  unfold invalid_parameter_names.
  rewrite !elem_of_union, !elem_of_singleton, !elem_of_cons, elem_of_nil. tauto.
Qed.

(** A parameter whose local name is reserved is rejected before the shape is
    looked at: the error is the same for every shape. *)
Lemma reserved_name_rejected_first shape shape' p rest bind_map bind_map' :
  localname p ∈ invalid_parameter_names ->
  bind_loop shape (p :: rest) bind_map = bind_loop shape' (p :: rest) bind_map' /\
  is_raise (bind_loop shape (p :: rest) bind_map) = true.
Proof.
  intros Hres.
  rewrite (proj1 (bind_loop_step shape p rest bind_map) Hres).
  by rewrite (proj1 (bind_loop_step shape' p rest bind_map') Hres).
Qed.
End BindParams.


(** ** BoundShapeJSValidatorComponent: evaluation *)

Section BoundEvaluate.
Context {rt : Runtime}.
Import BoundShapeJSValidatorComponent.

Lemma report_of_spec self f v :
  tuples_are_triples v ->
  report_of self f (default_result_value self f) v = Ok (spec_report self f v).
Proof.
  intros Hwf. unfold report_of, spec_report, py_or.
  destruct v as [| [|] | | | | | elems | |]; try reflexivity.
  specialize (Hwf elems eq_refl).
  destruct elems as [|t [|p [|v [|]]]]; try discriminate Hwf.
  by destruct v.
Qed.

Lemma violation_loop_spec self f violations non_conformant reports :
  Forall tuples_are_triples violations ->
  violation_loop self f (default_result_value self f) violations (non_conformant, reports) =
    Ok (if violations is [] then non_conformant else true,
        reports ++ (spec_report self f <$> violations)).
Proof.
  intros Hwf. revert non_conformant reports.
  induction Hwf as [|v violations Hv Hwf IH]; intros non_conformant reports.
  - simpl. by rewrite app_nil_r.
  - simpl. rewrite (report_of_spec _ _ _ Hv). simpl. rewrite IH.
    rewrite <-app_assoc. simpl. by destruct violations.
Qed.

Lemma focus_loop_spec validate self g items non_conformant reports :
  (forall item, item ∈ items ->
     exists violations,
       validate item.1 item.2 g (param_bind_map self) = Ok (Some violations) /\
       Forall tuples_are_triples violations) ->
  focus_loop validate self g items (non_conformant, reports) =
    Ok (non_conformant || existsb (fun item => negb (bool_decide (violations_of validate self g item = []))) items,
        reports ++ flat_map (fun item => spec_report self item.1 <$> violations_of validate self g item) items).
Proof.
  revert non_conformant reports.
  induction items as [|[f value_nodes] items IH]; intros non_conformant reports Hall.
  - simpl. by rewrite orb_false_r, app_nil_r.
  - destruct (Hall (f, value_nodes)) as (violations & Hv & Hwf); [by left|].
    simpl in Hv. cbn [focus_loop]. rewrite Hv. cbn [obind].
    assert (Hdef : (if negb (is_property_shape (shape self)) then PyTerm f else PyNone)
                   = default_result_value self f).
    { unfold default_result_value. by destruct (is_property_shape (shape self)). }
    rewrite Hdef, (violation_loop_spec _ _ _ _ _ Hwf). cbn [obind].
    rewrite IH by (intros item Hitem; apply Hall; by right).
    assert (Hvo : violations_of validate self g (f, value_nodes) = violations)
      by (unfold violations_of; simpl; by rewrite Hv).
    cbn [existsb flat_map fst]. rewrite Hvo, <-app_assoc. f_equal. f_equal.
    destruct violations; simpl; [done|]. by rewrite orb_true_r.
Qed.

(** What [evaluate] does for a validator that returns a collection for
    every focus node: it calls the validator once for each focus node, with all
    the value nodes of that focus node.  Each violation it returns gives one
    report: [True] gives a report on the focus node with the default value
    (the focus node on a node shape, [None] on a property shape); a triple
    gives a report on its target when it has one (a target that is true, as
    Python's [or] has it) and on the focus node otherwise, with its path and
    with its value or, when that is [None], the default value; any other
    violation is the value node of a report on the focus node.  The result is conformant exactly when the validator
    returned no violation for any focus node. *)
Theorem bound_evaluate_protocol validate self g items :
  (forall item, item ∈ items ->
     exists violations,
       validate item.1 item.2 g (param_bind_map self) = Ok (Some violations) /\
       Forall tuples_are_triples violations) ->
  exists conformant reports,
    evaluate validate self g items = Ok (conformant, reports) /\
    reports = flat_map (fun item => spec_report self item.1 <$> violations_of validate self g item)
                items /\
    (conformant = false <->
     exists item, item ∈ items /\ violations_of validate self g item <> []) /\
    (forall f,
       report_of self f (default_result_value self f) (PyBool true) =
         Ok (mk_v_result (PyTerm f)
               (if is_property_shape (shape self) then PyNone else PyTerm f)
               PyNone (messages_or_None self) (Some (component_node (constraint self))))) /\
    (forall f t p v,
       report_of self f (default_result_value self f) (PyTuple [t; p; v]) =
         Ok (mk_v_result (if py_truthy t then t else PyTerm f)
               (match v with
                | PyNone => if is_property_shape (shape self) then PyNone else PyTerm f
                | _ => v
                end)
               p (messages_or_None self) (Some (component_node (constraint self))))) /\
    (forall f v, v <> PyBool true -> (forall elems, v <> PyTuple elems) ->
       report_of self f (default_result_value self f) v =
         Ok (mk_v_result (PyTerm f) v PyNone
               (messages_or_None self) (Some (component_node (constraint self))))).
Proof.
  intros Hall. unfold evaluate. rewrite (focus_loop_spec _ _ _ _ _ _ Hall). cbn [obind].
  eexists _, _. split; [reflexivity|]. split; [done|]. split; [|split; [|split]].
  - simpl. rewrite negb_false_iff, existsb_exists. split.
    + intros (item & Hin & Hne). exists item. split; [by apply list_elem_of_In|].
      apply negb_true_iff, bool_decide_eq_false in Hne. done.
    + intros (item & Hin & Hne). exists item. split; [by apply list_elem_of_In|].
      by apply negb_true_iff, bool_decide_eq_false.
  - intros f. reflexivity.
  - intros f t p v. unfold report_of, py_or, default_result_value. by destruct v.
  - intros f v Hnt Hntup. destruct v as [| [|] | | | | | elems | |]; try reflexivity.
    + done.
    + by destruct (Hntup elems).
Qed.
End BoundEvaluate.

Lemma bound_evaluate_protocol_witness :
  let rt := Concrete.runtime in
  let self := Concrete.ex_bound Concrete.ex_property_shape in
  let items := [(Concrete.ex_f, [Concrete.ex_v; Literal "good"])] in
  (forall item, item ∈ items ->
     exists violations,
       Concrete.ex_validate item.1 item.2 [] (BoundShapeJSValidatorComponent.param_bind_map self)
         = Ok (Some violations) /\
       Forall tuples_are_triples violations) /\
  exists conformant reports,
    BoundShapeJSValidatorComponent.evaluate Concrete.ex_validate self [] items
      = Ok (conformant, reports) /\
    length reports = 3%nat /\
    (conformant = false <->
     exists item, item ∈ items /\ violations_of Concrete.ex_validate self [] item <> []).
Proof.
  intros rt self items.
  assert (Hall : forall item, item ∈ items ->
     exists violations,
       Concrete.ex_validate item.1 item.2 [] (BoundShapeJSValidatorComponent.param_bind_map self)
         = Ok (Some violations) /\
       Forall tuples_are_triples violations).
  { intros item _. eexists. split; [reflexivity|].
    repeat constructor; intros elems [=]; by subst. }
  split; [exact Hall|].
  destruct (bound_evaluate_protocol Concrete.ex_validate self [] items Hall)
    as (conformant & reports & Hev & Hrep & Hconf & _).
  exists conformant, reports. split; [exact Hev|]. split; [by rewrite Hrep | exact Hconf].
Defined.

Section BoundEvaluateTarget.
Import BoundShapeJSValidatorComponent Concrete.

(** C8, at a triple whose target is the empty-string Literal.  The
    specification has a triple reported on its override target whenever it
    has one, and on the focus node otherwise.  The code picks the target with
    [t or f] (line 287): a target that is present but false in Python's
    sense, here [Literal("")], is dropped and the violation is reported on
    the focus node.  Two lines above, the value of the same triple is tested
    with [is None], so the same Literal as value is kept; and a target that
    is true is reported as the specification has it.  The last two parts run
    the whole path from a script whose row names the target in [this]. *)
Theorem false_target_is_reported_on_focus :
  let rt := Concrete.runtime in
  let self := ex_bound ex_node_shape in
  let items := [(ex_f, [ex_v])] in
  let cc := Some (URIRef "ex:Component") in
  let empty := PyTerm (Literal "") in
  let other := PyTerm (URIRef "ex:other") in
  evaluate (triple_validate empty PyNone (PyTerm (Literal "x"))) self [] items
    = Ok (false, [mk_v_result (PyTerm ex_f) (PyTerm (Literal "x")) PyNone None cc]) /\
  evaluate (triple_validate other PyNone (PyTerm (Literal "x"))) self [] items
    = Ok (false, [mk_v_result other (PyTerm (Literal "x")) PyNone None cc]) /\
  evaluate (triple_validate other PyNone empty) self [] items
    = Ok (false, [mk_v_result other empty PyNone None cc]) /\
  evaluate (triple_validate other PyNone PyNone) self [] items
    = Ok (false, [mk_v_result other (PyTerm ex_f) PyNone None cc]) /\
  JSConstraintComponentValidator.evaluate_bound (js := this_engine empty)
      ex_world (ex_bound_js ex_node_shape) [] items
    = Ok (false, [mk_v_result (PyTerm ex_f) (PyTerm ex_v) PyNone None cc]) /\
  JSConstraintComponentValidator.evaluate_bound (js := this_engine other)
      ex_world (ex_bound_js ex_node_shape) [] items
    = Ok (false, [mk_v_result other (PyTerm ex_v) PyNone None cc]).
Proof. repeat split. Qed.
End BoundEvaluateTarget.

(** ** JSConstraintComponentValidator: the cache of validators *)

Section ValidatorCache.
Context {rt : Runtime}.
Import JSConstraintComponentValidator.

Lemma init_heap_length self sg n w :
  length (heap (init self sg n w).2) = length (heap w).
Proof.
  unfold init. destruct (heap w !! self) as [inst|]; [|done].
  destruct (initialised inst); [done|].
  destruct (check_messages _); simpl; [|by rewrite length_alter].
  destruct (JSExecutable.init sg n); simpl; by rewrite !length_alter.
Qed.

(** When [__init__] returns, the object is initialised. *)
Lemma init_Ok_initialised self sg n w w' :
  init self sg n w = (Ok (), w') ->
  exists inst, heap w' !! self = Some inst /\ initialised inst = true.
Proof.
  unfold init. destruct (heap w !! self) as [inst|] eqn:Eheap; [|done].
  destruct (initialised inst) eqn:Einit.
  { intros [= <-]. by exists inst. }
  destruct (check_messages _); [|done].
  destruct (JSExecutable.init sg n) as [exe|]; [|done].
  intros [= <-]. simpl. rewrite !list_lookup_alter_eq, Eheap. simpl. by eexists.
Qed.

(** On an initialised object [__init__] returns at once: nothing changes. *)
Lemma init_initialised self sg n w inst :
  heap w !! self = Some inst -> initialised inst = true ->
  init self sg n w = (Ok (), w).
Proof. intros Hh Hi. unfold init. by rewrite Hh, Hi. Qed.

Lemma new_cache_inv sg n w :
  cache_inv w -> cache_inv (new sg n w).2.
Proof.
  intros [Hbound Hinj]. unfold new.
  destruct (validator_cache w !! (graph_id sg, term_str n)) as [a|] eqn:E; [done|].
  split; simpl.
  - intros key a. rewrite length_app. simpl. destruct (decide ((graph_id sg, term_str n) = key)) as [<-|Hne].
    + rewrite lookup_insert_eq. intros [= <-]. lia.
    + rewrite lookup_insert_ne by done. intros Hk%Hbound. lia.
  - intros key1 key2 a.
    destruct (decide ((graph_id sg, term_str n) = key1)) as [<-|Hne1];
      destruct (decide ((graph_id sg, term_str n) = key2)) as [<-|Hne2];
      rewrite ?lookup_insert_eq, ?lookup_insert_ne by done; try done.
    + intros [= <-] Hk%Hbound. lia.
    + intros Hk%Hbound [= <-]. lia.
    + apply Hinj.
Qed.

Lemma init_cache_inv self sg n w :
  cache_inv w -> cache_inv (init self sg n w).2.
Proof.
  intros [Hbound Hinj]. split.
  - intros key a. rewrite init_validator_cache, init_heap_length. apply Hbound.
  - intros key1 key2 a. rewrite !init_validator_cache. apply Hinj.
Qed.

Lemma construct_cache_inv sg n w :
  cache_inv w -> cache_inv (construct sg n w).2.
Proof.
  intros Hinv. unfold construct.
  pose proof (new_cache_inv sg n w Hinv) as Hnew.
  destruct (new sg n w) as [self w1]. simpl in Hnew.
  pose proof (init_cache_inv self sg n w1 Hnew) as Hinit.
  by destruct (init self sg n w1) as [r w2].
Qed.

(** The invariant holds in every world the process can be in. *)
Lemma reachable_cache_inv w : reachable w -> cache_inv w.
Proof.
  induction 1 as [|sg n w _ IH].
  - split; intros *; simpl; by rewrite lookup_empty.
  - by apply construct_cache_inv.
Qed.

(** C9. Once a validator has been constructed for a key (the identity of
    the shapes graph and the string of the validator node), constructing it
    again for the same key returns the very same object and changes nothing:
    the object comes from the cache and its initialisation is not run again.
    Constructing for a different shapes-graph identity, be it with the same
    node, returns a different object. *)
Theorem validator_singleton sg n w a w1 :
  reachable w ->
  construct sg n w = (Ok a, w1) ->
  (forall sg' n', graph_id sg' = graph_id sg -> term_str n' = term_str n ->
     construct sg' n' w1 = (Ok a, w1)) /\
  (forall sg' n' b w2, graph_id sg' <> graph_id sg ->
     construct sg' n' w1 = (Ok b, w2) -> b <> a).
Proof.
  intros Hinv%reachable_cache_inv Hc.
  pose proof (construct_cached _ _ _ _ _ Hc) as Hcached.
  pose proof (construct_cache_inv sg n w Hinv) as Hinv1. rewrite Hc in Hinv1. simpl in Hinv1.
  assert (Hinit : exists inst, heap w1 !! a = Some inst /\ initialised inst = true).
  { unfold construct in Hc. destruct (new sg n w) as [self w0].
    destruct (init self sg n w0) as [[[]|e] w'] eqn:Einit; [|done].
    injection Hc as <- <-. by apply init_Ok_initialised in Einit. }
  destruct Hinit as (inst & Hheap & Hinitd). split.
  - intros sg' n' Hg Hn. unfold construct, new. rewrite Hg, Hn, Hcached.
    by rewrite (init_initialised _ _ _ _ _ Hheap Hinitd).
  - intros sg' n' b w2 Hg Hc2 ->. destruct Hinv1 as [Hbound Hinj].
    unfold construct, new in Hc2.
    destruct (validator_cache w1 !! (graph_id sg', term_str n')) as [found|] eqn:E.
    + destruct (init found sg' n' w1) as [[[]|e] w'] eqn:Einit; [|done].
      injection Hc2 as -> <-.
      pose proof (Hinj _ _ _ E Hcached) as Hkey. by injection Hkey as Hkey _.
    + destruct (init _ sg' n' _) as [[[]|e] w'] eqn:Einit; [|done].
      injection Hc2 as Ha _. apply Hbound in Hcached. lia.
Qed.
End ValidatorCache.

Lemma validator_singleton_witness :
  let rt := Concrete.runtime in
  let sg := Concrete.lib_graph [] [] in
  let n := Concrete.js_node in
  let w1 := (JSConstraintComponentValidator.construct sg n
               JSConstraintComponentValidator.empty_world).2 in
  reachable JSConstraintComponentValidator.empty_world /\
  JSConstraintComponentValidator.construct sg n JSConstraintComponentValidator.empty_world
    = (Ok 0%nat, w1) /\
  JSConstraintComponentValidator.construct sg n w1 = (Ok 0%nat, w1) /\
  (JSConstraintComponentValidator.construct Concrete.other_graph n w1).1 = Ok 1%nat /\
  1%nat <> 0%nat.
Proof.
  intros rt sg n w1.
  assert (Hc : JSConstraintComponentValidator.construct sg n
                 JSConstraintComponentValidator.empty_world = (Ok 0%nat, w1)) by reflexivity.
  destruct (validator_singleton sg n _ _ _ reachable_start Hc) as [Hsame Hdiff].
  split; [exact reachable_start|]. split; [exact Hc|].
  split; [exact (Hsame sg n eq_refl eq_refl)|].
  assert (Hc2 : JSConstraintComponentValidator.construct Concrete.other_graph n w1
                = (Ok 1%nat, (JSConstraintComponentValidator.construct
                                Concrete.other_graph n w1).2)) by reflexivity.
  split; [by rewrite Hc2|].
  refine (Hdiff Concrete.other_graph n 1%nat _ _ Hc2). by vm_compute.
Defined.

(** ** JSConstraintComponentValidator: validation *)

Section Validate.
Context {rt : Runtime} {js : JSEngine}.
Import JSConstraintComponentValidator.

(** The body of the loop over the value nodes returns in every case. *)
Lemma validate_body_returns self g bind_vals v :
  match validate_body self g bind_vals v with
  | Ok Continue => False
  | _ => True
  end.
Proof.
  unfold validate_body. destruct (bind_vals !! "maxLength"); simpl; [|done].
  destruct (js_exe self); simpl; [|done].
  destruct (JSExecutableRun.execute _ _ _) as [results|]; simpl; [|done].
  destruct (py_truthy results); simpl; [|done].
  destruct (get_bindings results) as [bindings|]; simpl; [|done].
  by destruct (length bindings <? 1)%nat.
Qed.

(** So [validate] never gets past the first value node. *)
Lemma validate_first_only self focus v rest g binds new_binds :
  validate self focus (v :: rest) g binds new_binds = validate self focus [v] g binds new_binds.
Proof.
  unfold validate. simpl.
  pose proof (validate_body_returns self g (default ∅ new_binds ∪ binds) v) as Hret.
  destruct (validate_body _ _ _ v) as [[a|]|e]; simpl; done.
Qed.

(** A row with a true [path], [value] or [this] adds the triple of the three
    columns. *)
Lemma row_step_triple violations r :
  py_truthy (item_or_None "path" r) || py_truthy (item_or_None "value" r)
    || py_truthy (item_or_None "this" r) = true ->
  row_step violations r =
    set_add (PyTuple [item_or_None "this" r; item_or_None "path" r; item_or_None "value" r])
      violations.
Proof. intros Hany. unfold row_step. by rewrite Hany. Qed.

(** A row with none of them adds [True] when it has a [failure] column and
    nothing otherwise. *)
Lemma row_step_generic violations r :
  py_truthy (item_or_None "path" r) || py_truthy (item_or_None "value" r)
    || py_truthy (item_or_None "this" r) = false ->
  row_step violations r =
    if Dict.get "failure" r is Some _ then set_add (PyBool true) violations else violations.
Proof. intros Hnone. unfold row_step. by rewrite Hnone. Qed.
End Validate.

(** C3, at two value nodes.  The specification has the executable run for
    each value node, with the bound parameter values as further arguments.
    The loop over the value nodes returns from [validate] in its first
    round, so that only the first value node is ever handed to the script:
    when the script returns a table of one row for each value node, the
    violation of the second is missing; when it returns [None] for the first
    and a row for the second, no violation is returned at all.  The
    arguments are the value node and the binding of [maxLength] alone, whose
    absence is a [KeyError]; and with no value node at all the result is
    [None], which is no collection. *)
Theorem validate_stops_after_first_value_node :
  let rt := Concrete.runtime in
  let a := Literal "a" in
  let b := Literal "b" in
  let binds : gmap string term := {[ "maxLength" := Literal "5" ]} in
  let validate js := JSConstraintComponentValidator.validate (js := js)
                       Concrete.ex_instance Concrete.ex_f in
  validate Concrete.echo_engine [a] [] binds None
    = Ok (Some [PyTuple [PyNone; PyNone; PyTerm a]]) /\
  validate Concrete.echo_engine [b] [] binds None
    = Ok (Some [PyTuple [PyNone; PyNone; PyTerm b]]) /\
  validate Concrete.echo_engine [a; b] [] binds None
    = Ok (Some [PyTuple [PyNone; PyNone; PyTerm a]]) /\
  validate Concrete.echo_unless_a_engine [b] [] binds None
    = Ok (Some [PyTuple [PyNone; PyNone; PyTerm b]]) /\
  validate Concrete.echo_unless_a_engine [a; b] [] binds None = Ok (Some []) /\
  validate Concrete.echo_engine [a; b] [] {[ "pattern" := Literal "x" ]} None
    = Raise (KeyError "maxLength") /\
  validate Concrete.echo_engine [] [] binds None = Ok None.
Proof. repeat split. Qed.

(* ===================================================================== *)
(** * Part III. Further properties of the module                           *)
(* ===================================================================== *)

(** ** JSExecutable.execute *)

Section ExecuteFacts.
Context {js : JSEngine}.
Import JSExecutableRun.

Lemma load_urls_app c urls1 urls2 :
  load_urls c (urls1 ++ urls2) = (c' <-- load_urls c urls1 ;; load_urls c' urls2).
Proof.
  revert c. induction urls1 as [|u urls1 IH]; intros c; simpl; [done|].
  destruct (load_js_library c u) as [c1|e]; simpl; [apply IH | done].
Qed.

(** The two nested loops load the URLs of all libraries, one after the
    other. *)
Lemma load_libraries_flat c items :
  load_libraries c items = load_urls c (concat (items.*2)).
Proof.
  revert c. induction items as [|[libn urls] items IH]; intros c; simpl; [done|].
  rewrite load_urls_app. destruct (load_urls c urls) as [c1|e]; simpl; [apply IH | done].
Qed.

(** X1. [execute] loads every URL of [libraries], library by library in the
    order of the dictionary and URL by URL in the order of each list, into a
    context made for the shapes graph and the data graph, and then calls the
    function in the resulting context.  When a library fails to load, the
    later ones are not loaded, the function is not called, and the error of
    the load is the error of [execute]. *)
Theorem execute_loads_then_calls self datagraph args :
  let urls := concat ((JSExecutable.libraries self).*2) in
  let c0 := new_ctx (JSExecutable.sg self) datagraph in
  (forall c, load_urls c0 urls = Ok c ->
     execute self datagraph args = run_js_function c (JSExecutable.fn_name self) args) /\
  (forall loaded url rest c e,
     urls = loaded ++ url :: rest ->
     load_urls c0 loaded = Ok c -> load_js_library c url = Raise e ->
     execute self datagraph args = Raise e).
Proof.
  intros urls c0. unfold execute. fold c0. rewrite load_libraries_flat. fold urls. split.
  - by intros c ->.
  - intros loaded url rest c e -> Hloaded Hfail.
    rewrite load_urls_app, Hloaded. simpl. by rewrite Hfail.
Qed.
End ExecuteFacts.

Lemma execute_loads_then_calls_witness :
  let js := Concrete.picky_engine in
  let exe urls := JSExecutable.mk Concrete.ex_sg Concrete.js_node "check"
                    [(Concrete.lib1, ["a.js"; "b.js"]); (Concrete.lib2, urls)] in
  JSExecutableRun.load_urls (new_ctx Concrete.ex_sg []) ["a.js"; "b.js"; "c.js"]
    = Ok ["a.js"; "b.js"; "c.js"] /\
  JSExecutableRun.execute (exe ["c.js"]) [] []
    = Ok (PyList [PyStr "a.js"; PyStr "b.js"; PyStr "c.js"]) /\
  load_js_library ["a.js"; "b.js"] "missing.js" = Raise (JSError "cannot load") /\
  JSExecutableRun.execute (exe ["missing.js"; "c.js"]) [] [] = Raise (JSError "cannot load").
Proof.
  intros js exe.
  destruct (execute_loads_then_calls (exe ["c.js"]) [] []) as [Hok _].
  destruct (execute_loads_then_calls (exe ["missing.js"; "c.js"]) [] []) as [_ Hfail].
  split; [reflexivity|]. split; [exact (Hok _ eq_refl)|]. split; [reflexivity|].
  exact (Hfail ["a.js"; "b.js"] "missing.js" ["c.js"] _ _ eq_refl eq_refl eq_refl).
Defined.

(** ** JSExecutable.__init__ as a whole *)

Section InitFacts.
Context {rt : Runtime}.
Import JSExecutable.

Lemma init_fn_name_outcome sg n :
  load_error_or
    (fun s => remove_dups (objects sg n SH_jsFunctionName) = [Literal s])
    (init_fn_name sg n).
Proof.
  unfold init_fn_name.
  pose proof (set_order_perm (objects sg n SH_jsFunctionName)) as Hperm.
  destruct (set_order (objects sg n SH_jsFunctionName)) as [|x [|y l]]; simpl.
  - by eexists.
  - destruct x as [s|s|s]; simpl; [by eexists | by eexists |].
    symmetry in Hperm. by apply Permutation_singleton_r in Hperm.
  - by eexists.
Qed.

Lemma init_Ok_libraries sg n exe :
  init sg n = Ok exe -> exists seen, init_libraries sg n = Ok (seen, libraries exe).
Proof.
  unfold init. destruct (init_fn_name sg n) as [s|]; simpl; [|done].
  destruct (init_libraries sg n) as [[seen libs]|]; simpl; [|done].
  intros [= <-]. by exists seen.
Qed.

(** X2. Constructing a [JSExecutable] raises nothing but
    [ConstraintLoadError], always with the link to the section on JavaScript
    executables.  When it returns, the executable keeps the shapes graph and
    the node it was made from, its [fn_name] is the string of the one
    [sh:jsFunctionName] object of the node, a Literal, and its [libraries]
    are those the library loops have built. *)
Theorem init_outcome sg n :
  load_error_or
    (fun exe =>
       JSExecutable.sg exe = sg /\ node exe = n /\
       remove_dups (objects sg n SH_jsFunctionName) = [Literal (fn_name exe)] /\
       exists seen, init_libraries sg n = Ok (seen, libraries exe))
    (init sg n).
Proof.
  unfold init. eapply load_error_or_bind; [apply init_fn_name_outcome|].
  intros s Hs. simpl.
  pose proof (init_libraries_spec sg n) as Hlibs.
  destruct (init_libraries sg n) as [[seen libs]|e]; simpl; [|done].
  repeat split; [done|]. by exists seen.
Qed.

Lemma Dict_set_keys_new {K V} `{EqDecision K} (k : K) (v : V) (d : list (K * V)) :
  Dict.get k d = None -> (Dict.set k v d).*1 = d.*1 ++ [k].
Proof.
  induction d as [|[k0 v0] d IH]; simpl; [done|].
  destruct (decide (k = k0)); [done|]. intros Hget. rewrite !fmap_cons.
  simpl. f_equal. by apply IH.
Qed.

Lemma Dict_get_elem_of {K V} `{EqDecision K} (k : K) (v : V) (d : list (K * V)) :
  NoDup d.*1 -> (k, v) ∈ d -> Dict.get k d = Some v.
Proof.
  induction d as [|[k0 v0] d IH]; simpl.
  - by intros _ ?%elem_of_nil.
  - intros [Hk0 Hnd]%NoDup_cons [[= -> ->]|Hin]%elem_of_cons.
    + by rewrite decide_True.
    + rewrite decide_False; [by apply IH|].
      intros ->. apply Hk0. apply list_elem_of_fmap. by exists (k0, v).
Qed.

(** Whatever a visit of a new node keeps, the two loops keep. *)
Lemma inner_loop_preserves sg (P : lib_state -> Prop) library_defs2 st :
  (forall libn st, P st -> libn ∉ st.1 -> load_error_or P (visit sg libn st)) ->
  P st -> load_error_or P (inner_loop sg library_defs2 st).
Proof.
  intros Hvisit. revert st. induction library_defs2 as [|libn2 rest IH]; intros st HP; simpl.
  - done.
  - destruct (decide (libn2 ∈ st.1)); [by apply IH|].
    eapply load_error_or_bind; [by apply Hvisit|]. simpl. apply IH.
Qed.

Lemma outer_loop_preserves sg (P : lib_state -> Prop) library_defs st :
  (forall libn st, P st -> libn ∉ st.1 -> load_error_or P (visit sg libn st)) ->
  P st -> load_error_or P (outer_loop sg library_defs st).
Proof.
  intros Hvisit. revert st. induction library_defs as [|libn rest IH]; intros st HP; simpl.
  - done.
  - destruct (decide (libn ∈ st.1)); [by apply IH|].
    eapply load_error_or_bind; [by apply Hvisit|]. simpl. intros st1 HP1.
    eapply load_error_or_bind; [by apply inner_loop_preserves|]. simpl. apply IH.
Qed.

Lemma visit_keys_inv sg libn st :
  libs_keys_inv sg st -> libn ∉ st.1 -> load_error_or (libs_keys_inv sg) (visit sg libn st).
Proof.
  intros [Hinv Hkeys] Hnew.
  pose proof (visit_inv sg libn st Hinv Hnew) as Hv.
  destruct st as [seen libraries]. simpl in Hkeys, Hnew.
  assert (Hget : Dict.get libn libraries = None).
  { destruct Hinv as (_ & _ & Hget). rewrite Hget. simpl.
    rewrite decide_False; [done | tauto]. }
  rewrite visit_spec in Hv |- * by done.
  destruct (is_literal libn); [done|].
  destruct (forallb is_literal (library_urls sg libn)); [|done].
  simpl in Hv |- *. destruct Hv as [Hinv' _]. split; [done|]. simpl.
  rewrite filter_app, filter_cons, filter_nil.
  destruct (library_urls sg libn) as [|u urls] eqn:E.
  - rewrite decide_False by tauto. by rewrite app_nil_r.
  - rewrite decide_True by done. by rewrite Dict_set_keys_new, Hkeys.
Qed.

Lemma init_libraries_keys sg n :
  load_error_or (libs_keys_inv sg) (init_libraries sg n).
Proof.
  apply outer_loop_preserves; [apply visit_keys_inv|].
  split; [apply libs_inv_empty | done].
Qed.

(** X3. The [libraries] of a constructed executable: its keys are distinct
    and stand in the order in which the library nodes were first met; every
    key is a library node that is no Literal, declared by the source node or
    by a library the source node declares; and its value is the list, never
    empty, of the strings of all [sh:jsLibraryURL] objects of that node, in
    the order of the graph.  A library node without URL has no entry. *)
Theorem libraries_entries sg n exe :
  init sg n = Ok exe ->
  NoDup (libraries exe).*1 /\
  (exists seen, init_libraries sg n = Ok (seen, libraries exe) /\
     (libraries exe).*1 = filter (fun k => library_urls sg k <> []) seen) /\
  (forall k urls, (k, urls) ∈ libraries exe ->
     is_literal k = false /\
     urls = term_str <$> library_urls sg k /\ urls <> [] /\
     (k ∈ declared_libraries sg n \/
      exists d, d ∈ declared_libraries sg n /\ k ∈ declared_libraries sg d)) /\
  (forall k, library_urls sg k = [] -> k ∉ (libraries exe).*1).
Proof.
  intros Hinit.
  destruct (init_Ok_libraries sg n exe Hinit) as [seen Hlibs].
  pose proof (init_libraries_keys sg n) as Hk. rewrite Hlibs in Hk.
  destruct Hk as [(Hnd & Hlit & Hget) Hkeys]. simpl in Hnd, Hlit, Hget, Hkeys.
  pose proof (init_libraries_spec sg n) as Hspec. rewrite Hlibs in Hspec.
  simpl in Hspec. destruct Hspec as (_ & _ & Hsup & _).
  assert (Hndk : NoDup (libraries exe).*1) by (rewrite Hkeys; by apply NoDup_filter).
  split; [done|]. split; [by exists seen|]. split.
  - intros k urls Hin. apply Dict_get_elem_of in Hin; [|done].
    rewrite Hget in Hin. case_decide as Hd; [|done]. destruct Hd as [Hseen Hne].
    injection Hin as <-. split; [by apply Hlit|]. split; [done|]. split.
    + destruct (library_urls sg k); [done | by simpl].
    + by apply Hsup.
  - intros k Hnone. rewrite Hkeys, list_elem_of_filter. tauto.
Qed.
End InitFacts.

Lemma libraries_entries_witness :
  let rt := Concrete.runtime in
  let sg := Concrete.lib_graph [Concrete.lib2; Concrete.lib1] [Concrete.lib3] in
  let exe := JSExecutable.mk sg Concrete.js_node "check"
               [(Concrete.lib2, ["b.js"]); (Concrete.lib3, ["c.js"]); (Concrete.lib1, ["a.js"])] in
  JSExecutable.init sg Concrete.js_node = Ok exe /\
  NoDup (JSExecutable.libraries exe).*1 /\
  forall k urls, (k, urls) ∈ JSExecutable.libraries exe ->
    urls = term_str <$> library_urls sg k.
Proof.
  intros rt sg exe.
  assert (Hinit : JSExecutable.init sg Concrete.js_node = Ok exe) by reflexivity.
  destruct (libraries_entries sg Concrete.js_node exe Hinit) as (Hnd & _ & Hent & _).
  split; [exact Hinit|]. split; [exact Hnd|].
  intros k urls Hin. exact (proj1 (proj2 (Hent k urls Hin))).
Defined.

(** ** JSConstraint.__init__ *)

Section JSConstraintInit.
Context {rt : Runtime}.

Lemma executable_init_load_error sg n :
  load_error_or (fun _ => True) (JSExecutable.init sg n).
Proof.
  unfold JSExecutable.init.
  eapply load_error_or_bind; [apply init_fn_name_outcome|]. intros s _. simpl.
  eapply load_error_or_bind; [apply init_libraries_spec|]. by intros st _.
Qed.



End JSConstraintInit.


(** ** JSConstraint: evaluation over all pairs and all executables *)

Section JSConstraintEvaluate.
Context {js : JSEngine}.
Import JSConstraint.

Lemma interpret_app self f v res reports :
  interpret self f v res reports =
  ((interpret self f v res []).1, reports ++ (interpret self f v res []).2).
Proof.
  destruct res as [| [|] | | | | l | | |]; simpl; rewrite ?app_nil_r; try done.
  by rewrite !list_loop_eq.
Qed.

Lemma pair_loop_app self g exe pairs1 pairs2 st :
  pair_loop self g exe (pairs1 ++ pairs2) st =
  (st' <-- pair_loop self g exe pairs1 st ;; pair_loop self g exe pairs2 st').
Proof.
  revert st. induction pairs1 as [|[f v] pairs1 IH]; intros st; simpl; [done|].
  destruct (JSExecutableRun.execute exe g _); simpl; [apply IH | done].
Qed.

Lemma value_loop_flat self g exe f value_nodes st :
  value_loop self g exe f value_nodes st = pair_loop self g exe (pair f <$> value_nodes) st.
Proof.
  revert st. induction value_nodes as [|v rest IH]; intros [non_conformant reports]; [done|].
  cbn [value_loop fmap list_fmap pair_loop]. 
  destruct (JSExecutableRun.execute exe g _) as [res|]; simpl; [|done].
  rewrite (interpret_app _ _ _ _ reports).
  destruct (interpret self f v res []) as [failed rs]. simpl. rewrite IH.
  by destruct failed, non_conformant.
Qed.

(** The two nested loops are one loop over the pairs. *)
Lemma focus_loop_flat self g exe items st :
  focus_loop self g exe items st = pair_loop self g exe (pairs_of items) st.
Proof.
  revert st. induction items as [|[f value_nodes] items IH]; intros st; [done|].
  cbn [focus_loop]. unfold pairs_of. cbn [flat_map]. rewrite pair_loop_app.
  rewrite value_loop_flat. simpl.
  destruct (pair_loop self g exe (pair f <$> value_nodes) st); simpl; [apply IH | done].
Qed.

Lemma pair_loop_Ok self g exe res pairs st :
  (forall p, p ∈ pairs ->
     JSExecutableRun.execute exe g [PyTerm p.1; PyTerm p.2] = Ok (res p.1 p.2)) ->
  pair_loop self g exe pairs st =
    Ok (st.1 || existsb (pair_failed self res) pairs,
        st.2 ++ flat_map (pair_reports self res) pairs).
Proof.
  revert st. induction pairs as [|[f v] pairs IH]; intros [nc reports] Hall.
  - simpl. by rewrite orb_false_r, app_nil_r.
  - assert (Hfv := Hall (f, v) ltac:(by left)). simpl in Hfv.
    cbn [pair_loop]. rewrite Hfv. cbn [obind].
    rewrite IH by (intros p Hp; apply Hall; by right).
    simpl. unfold pair_failed at 2, pair_reports at 2. simpl.
    by rewrite orb_assoc, app_assoc.
Qed.

(** X5. When the script returns for every pair, [_evaluate_js_exe] goes
    through the focus nodes in order and, for each, through its value nodes
    in order; its reports are the reports of the pairs, in that order, and
    it is non-conformant exactly when one of the pairs failed. *)
Theorem evaluate_js_exe_all_pairs self g exe res f_v_dict :
  (forall p, p ∈ pairs_of f_v_dict ->
     JSExecutableRun.execute exe g [PyTerm p.1; PyTerm p.2] = Ok (res p.1 p.2)) ->
  _evaluate_js_exe self g f_v_dict exe =
    Ok (existsb (pair_failed self res) (pairs_of f_v_dict),
        flat_map (pair_reports self res) (pairs_of f_v_dict)).
Proof.
  intros Hall. unfold _evaluate_js_exe. rewrite focus_loop_flat.
  by rewrite (pair_loop_Ok _ _ _ res).
Qed.

(** X6. An exception of the script is not caught: when the script raises on
    a pair and has returned on all pairs before it, [_evaluate_js_exe]
    raises that exception, and the reports made so far are lost with it. *)
Theorem evaluate_js_exe_raises self g exe res f_v_dict before f v after e :
  pairs_of f_v_dict = before ++ (f, v) :: after ->
  (forall p, p ∈ before ->
     JSExecutableRun.execute exe g [PyTerm p.1; PyTerm p.2] = Ok (res p.1 p.2)) ->
  JSExecutableRun.execute exe g [PyTerm f; PyTerm v] = Raise e ->
  _evaluate_js_exe self g f_v_dict exe = Raise e.
Proof.
  intros Hsplit Hbefore Hraise. unfold _evaluate_js_exe.
  rewrite focus_loop_flat, Hsplit, pair_loop_app, (pair_loop_Ok _ _ _ res) by done.
  simpl. by rewrite Hraise.
Qed.
End JSConstraintEvaluate.

Lemma evaluate_js_exe_all_pairs_witness :
  let js := Concrete.verdict_engine in
  let F := Concrete.ex_f in
  let f_v_dict := [(F, [Literal "bad"; Literal "good"]); (URIRef "ex:G", [Literal "bad"])] in
  let res := fun f v => PyBool (Concrete.verdict f v) in
  (forall p, p ∈ pairs_of f_v_dict ->
     JSExecutableRun.execute Concrete.ex_exe [] [PyTerm p.1; PyTerm p.2] = Ok (res p.1 p.2)) /\
  JSConstraint._evaluate_js_exe Concrete.ex_self [] f_v_dict Concrete.ex_exe =
    Ok (true, [mk_v_result (PyTerm F) (PyTerm (Literal "bad")) PyNone None None;
               mk_v_result (PyTerm (URIRef "ex:G")) (PyTerm (Literal "bad")) PyNone None None]).
Proof.
  intros js F f_v_dict res.
  assert (Hall : forall p, p ∈ pairs_of f_v_dict ->
     JSExecutableRun.execute Concrete.ex_exe [] [PyTerm p.1; PyTerm p.2] = Ok (res p.1 p.2)).
  { intros p Hp. vm_compute in Hp.
    repeat (apply elem_of_cons in Hp as [->|Hp]; [reflexivity|]).
    by apply elem_of_nil in Hp. }
  split; [exact Hall|].
  exact (evaluate_js_exe_all_pairs Concrete.ex_self [] Concrete.ex_exe res f_v_dict Hall).
Defined.

Lemma evaluate_js_exe_raises_witness :
  let js := Concrete.verdict_engine in
  let F := Concrete.ex_f in
  let f_v_dict := [(F, [Literal "bad"; Literal "boom"; Literal "good"])] in
  let res := fun f v => PyBool (Concrete.verdict f v) in
  pairs_of f_v_dict = [(F, Literal "bad")] ++ (F, Literal "boom") :: [(F, Literal "good")] /\
  JSExecutableRun.execute Concrete.ex_exe [] [PyTerm F; PyTerm (Literal "boom")]
    = Raise (JSError "boom") /\
  JSConstraint._evaluate_js_exe Concrete.ex_self [] f_v_dict Concrete.ex_exe
    = Raise (JSError "boom").
Proof.
  intros js F f_v_dict res. split; [reflexivity|]. split; [reflexivity|].
  refine (evaluate_js_exe_raises Concrete.ex_self [] Concrete.ex_exe res f_v_dict
            [(F, Literal "bad")] F (Literal "boom") [(F, Literal "good")] _ eq_refl _ eq_refl).
  intros p Hp. apply elem_of_cons in Hp as [->|Hp]; [reflexivity|].
  by apply elem_of_nil in Hp.
Defined.

Section JSConstraintInvariants.
Context {js : JSEngine}.
Import JSConstraint.

(** Whatever every pair keeps, the loop over the pairs keeps. *)
Lemma pair_loop_invariant self g exe (I : bool * list v_result -> Prop) pairs st st' :
  (forall st p res, p ∈ pairs -> I st ->
     I (st.1 || (interpret self p.1 p.2 res []).1,
        st.2 ++ (interpret self p.1 p.2 res []).2)) ->
  I st -> pair_loop self g exe pairs st = Ok st' -> I st'.
Proof.
  revert st. induction pairs as [|[f v] pairs IH]; intros st Hstep HI; simpl.
  - by intros [= <-].
  - destruct (JSExecutableRun.execute exe g _) as [res|]; simpl; [|done].
    apply IH.
    + intros st0 p res0 Hp. apply Hstep. by right.
    + apply (Hstep st (f, v) res); [by left | done].
Qed.

(** Whatever every executable keeps, the loop over the executables keeps. *)
Lemma exe_loop_invariant self g f_v_dict (I : bool * list v_result -> Prop) exes st st' :
  (forall st c r, _evaluate_js_exe self g f_v_dict c = Ok r -> I st ->
     I (st.1 || r.1, st.2 ++ r.2)) ->
  I st -> exe_loop self g f_v_dict exes st = Ok st' -> I st'.
Proof.
  intros Hstep. revert st. induction exes as [|c exes IH]; intros [nc reports] HI; simpl.
  - by intros [= <-].
  - destruct (_evaluate_js_exe self g f_v_dict c) as [r|] eqn:Er; simpl; [|done].
    apply IH. by apply (Hstep (nc, reports) c r).
Qed.

Lemma interpret_pass self f v res :
  (interpret self f v res []).1 = false -> (interpret self f v res []).2 = [].
Proof.
  destruct res as [| [|] | | | | l | | |]; simpl; try done.
  rewrite list_loop_eq. simpl. by destruct l.
Qed.

(** X7. A conformant outcome of [JSConstraint.evaluate] carries no report:
    whenever a report is made, for whatever pair and executable, the outcome
    is non-conformant. *)
Theorem conformant_has_no_reports self g f_v_dict reports :
  evaluate self g f_v_dict = Ok (true, reports) -> reports = [].
Proof.
  unfold evaluate.
  destruct (exe_loop self g f_v_dict (js_exes self) (false, [])) as [[nc rs]|] eqn:Eloop;
    simpl; [|done].
  intros [= Hnc <-]. apply negb_true_iff in Hnc.
  set (I := fun st : bool * list v_result => st.1 = false -> st.2 = []).
  assert (Hpairs : forall pairs c st st',
            I st -> pair_loop self g c pairs st = Ok st' -> I st').
  { intros pairs c st st'. apply pair_loop_invariant.
    intros st0 p res _ HI0. unfold I. simpl. intros [H0 Hi]%orb_false_iff.
    by rewrite (HI0 H0), (interpret_pass _ _ _ _ Hi). }
  assert (Hexes : I (nc, rs)).
  { refine (exe_loop_invariant self g f_v_dict I (js_exes self) (false, []) (nc, rs)
              _ _ Eloop); [|by unfold I].
    intros st c r Hr HI. unfold I. simpl. intros [Hst Hr1]%orb_false_iff.
    rewrite (HI Hst). simpl. unfold _evaluate_js_exe in Hr.
    rewrite focus_loop_flat in Hr.
    by apply (Hpairs _ _ (false, []) r ltac:(by unfold I) Hr). }
  by apply Hexes.
Qed.

Lemma dict_report_ok self f v d :
  focus_node (dict_report self f v d) = PyTerm f /\
  constraint_component (dict_report self f v d) = None /\
  value_node (dict_report self f v d) <> PyNone /\
  (is_property_shape (shape self) = true -> result_path (dict_report self f v d) = PyNone).
Proof.
  unfold dict_report. simpl. repeat split.
  - by destruct (dict_get_or_None "value" d).
  - by intros ->.
Qed.

Lemma scalar_reports_ok self f v e r :
  r ∈ scalar_reports self f v e ->
  focus_node r = PyTerm f /\ constraint_component r = None /\
  value_node r <> PyNone /\
  (is_property_shape (shape self) = true -> result_path r = PyNone).
Proof.
  destruct e as [| [|] | | s | d | | | t |]; simpl;
    try (by intros ?%elem_of_nil);
    intros ->%list_elem_of_singleton; try done.
  apply dict_report_ok.
Qed.

Lemma interpret_reports_ok self f v res r :
  r ∈ (interpret self f v res []).2 ->
  focus_node r = PyTerm f /\ constraint_component r = None /\
  value_node r <> PyNone /\
  (is_property_shape (shape self) = true -> result_path r = PyNone).
Proof.
  destruct res as [| [|] | | s | d | l | | t |]; simpl;
    try (by intros ?%elem_of_nil);
    try (intros ->%list_elem_of_singleton; first [done | apply dict_report_ok]).
  rewrite list_loop_eq. simpl.
  intros (e & _ & _ & He)%list_reports_from_failing. by apply scalar_reports_ok in He.
Qed.

(** X8. Every report of [JSConstraint.evaluate] is made for a focus node of
    the dictionary that has a value node, names no constraint component, and
    has a value node that is not [None]; on a property shape no report
    carries a path, whatever the scripts return. *)
Theorem reports_well_formed self g f_v_dict conformant reports :
  evaluate self g f_v_dict = Ok (conformant, reports) ->
  Forall (js_report_ok self f_v_dict) reports.
Proof.
  unfold evaluate.
  destruct (exe_loop self g f_v_dict (js_exes self) (false, [])) as [[nc rs]|] eqn:Eloop;
    simpl; [|done].
  intros [= _ <-].
  set (I := fun st : bool * list v_result => Forall (js_report_ok self f_v_dict) st.2).
  assert (Hpairs : forall c st st',
            I st -> pair_loop self g c (pairs_of f_v_dict) st = Ok st' -> I st').
  { intros c st st'. apply pair_loop_invariant.
    intros st0 p res Hp HI0. unfold I. simpl. apply Forall_app. split; [done|].
    apply Forall_forall. intros x Hx%interpret_reports_ok.
    destruct Hx as (Hf & Hc & Hv & Hpath). split; [by exists p | done]. }
  change (I (nc, rs)).
  refine (exe_loop_invariant self g f_v_dict I (js_exes self) (false, []) (nc, rs)
            _ _ Eloop); [|by constructor].
  intros st c r Hr HI. unfold I. simpl. apply Forall_app. split; [done|].
  unfold _evaluate_js_exe in Hr. rewrite focus_loop_flat in Hr.
  by apply (Hpairs _ (false, []) r ltac:(by constructor) Hr).
Qed.
End JSConstraintInvariants.

Lemma conformant_has_no_reports_witness :
  let js := Concrete.verdict_engine in
  let f_v_dict := [(Concrete.ex_f, [Literal "good"; Literal "fine"])] in
  JSConstraint.evaluate Concrete.ex_self [] f_v_dict = Ok (true, []) /\
  @nil v_result = [].
Proof.
  intros js f_v_dict.
  assert (Hev : JSConstraint.evaluate Concrete.ex_self [] f_v_dict = Ok (true, []))
    by reflexivity.
  split; [exact Hev|].
  exact (conformant_has_no_reports Concrete.ex_self [] f_v_dict [] Hev).
Defined.

Lemma reports_well_formed_witness :
  let js := Concrete.const_engine
              (PyList [PyDict [("path", PyTerm (URIRef "ex:p")); ("value", PyNone)];
                       PyStr "m"]) in
  let f_v_dict := [(Concrete.ex_f, [Concrete.ex_v])] in
  let r := mk_v_result (PyTerm Concrete.ex_f) (PyTerm Concrete.ex_v) PyNone in
  JSConstraint.evaluate Concrete.ex_prop_self [] f_v_dict
    = Ok (false, [r (Some []) None; r (Some [LiteralOf (PyStr "m")]) None]) /\
  Forall (js_report_ok Concrete.ex_prop_self f_v_dict)
    [r (Some []) None; r (Some [LiteralOf (PyStr "m")]) None].
Proof.
  intros js f_v_dict r.
  assert (Hev : JSConstraint.evaluate Concrete.ex_prop_self [] f_v_dict
                = Ok (false, [r (Some []) None; r (Some [LiteralOf (PyStr "m")]) None]))
    by reflexivity.
  split; [exact Hev|].
  exact (reports_well_formed Concrete.ex_prop_self [] f_v_dict _ _ Hev).
Defined.

Section JSConstraintExecutables.
Context {js : JSEngine}.
Import JSConstraint.

Lemma exe_loop_app self g f_v_dict exes1 exes2 st :
  exe_loop self g f_v_dict (exes1 ++ exes2) st =
  (st' <-- exe_loop self g f_v_dict exes1 st ;; exe_loop self g f_v_dict exes2 st').
Proof.
  revert st. induction exes1 as [|c exes1 IH]; intros [nc reports]; simpl; [done|].
  destruct (_evaluate_js_exe self g f_v_dict c); simpl; [apply IH | done].
Qed.

Lemma exe_loop_Ok self g f_v_dict exes results st :
  Forall2 (fun c r => _evaluate_js_exe self g f_v_dict c = Ok r) exes results ->
  exe_loop self g f_v_dict exes st =
    Ok (st.1 || existsb fst results, st.2 ++ concat (results.*2)).
Proof.
  intros Hall. revert st. induction Hall as [|c r exes results Hc _ IH]; intros [nc reports].
  - simpl. by rewrite orb_false_r, app_nil_r.
  - simpl. rewrite Hc. simpl. rewrite IH. simpl. by rewrite orb_assoc, app_assoc.
Qed.

(** X9. [JSConstraint.evaluate] runs the executables of the constraint one
    after the other over the whole dictionary.  When all of them return, the
    reports are those of the first executable, then those of the second, and
    so on, and the outcome is conformant exactly when no executable found a
    failure.  When one of them raises, after the ones before it have
    returned, [evaluate] raises the same exception. *)
Theorem evaluate_all_executables self g f_v_dict :
  (forall results,
     Forall2 (fun c r => _evaluate_js_exe self g f_v_dict c = Ok r) (js_exes self) results ->
     evaluate self g f_v_dict = Ok (negb (existsb fst results), concat (results.*2))) /\
  (forall before c after results e,
     js_exes self = before ++ c :: after ->
     Forall2 (fun c r => _evaluate_js_exe self g f_v_dict c = Ok r) before results ->
     _evaluate_js_exe self g f_v_dict c = Raise e ->
     evaluate self g f_v_dict = Raise e).
Proof.
  unfold evaluate. split.
  - intros results Hall. by rewrite (exe_loop_Ok _ _ _ _ _ _ Hall).
  - intros before c after results e -> Hbefore Hraise.
    rewrite exe_loop_app, (exe_loop_Ok _ _ _ _ _ _ Hbefore). simpl. by rewrite Hraise.
Qed.

(** X10. A script that answers every pair with a boolean: the reports are
    one for each pair answered [false], in the order of the pairs, on the
    focus node and the value node of the pair, without path and without
    message; and the executable is non-conformant exactly when some pair was
    answered [false]. *)
Theorem boolean_script_reports self g exe (ok : term -> term -> bool) f_v_dict :
  (forall p, p ∈ pairs_of f_v_dict ->
     JSExecutableRun.execute exe g [PyTerm p.1; PyTerm p.2] = Ok (PyBool (ok p.1 p.2))) ->
  _evaluate_js_exe self g f_v_dict exe =
    Ok (existsb (fun p => negb (ok p.1 p.2)) (pairs_of f_v_dict),
        (fun p => mk_v_result (PyTerm p.1) (PyTerm p.2) PyNone None None)
          <$> filter (fun p => ok p.1 p.2 = false) (pairs_of f_v_dict)).
Proof.
  intros Hall. unfold _evaluate_js_exe. rewrite focus_loop_flat.
  rewrite (pair_loop_Ok _ _ _ (fun f v => PyBool (ok f v))) by done. simpl.
  f_equal. generalize (pairs_of f_v_dict) as pairs. clear Hall.
  induction pairs as [|[f v] pairs IH]; [done|].
  injection IH as IH1 IH2. rewrite filter_cons. cbn [existsb flat_map fst snd].
  unfold pair_failed at 1, pair_reports at 1. cbn [fst snd].
  destruct (decide (ok f v = false)) as [E|E].
  - rewrite E, fmap_cons. simpl. by rewrite IH2.
  - apply not_false_is_true in E. rewrite E. simpl. by rewrite IH1, IH2.
Qed.
End JSConstraintExecutables.

Lemma evaluate_all_executables_witness :
  let js := Concrete.named_engine in
  let f_v_dict := [(Concrete.ex_f, [Concrete.ex_v])] in
  let r := mk_v_result (PyTerm Concrete.ex_f) (PyTerm Concrete.ex_v) PyNone in
  let results := [(true, [r None None]);
                  (true, [r (Some [LiteralOf (PyStr "careful")]) None])] in
  Forall2 (fun c r => JSConstraint._evaluate_js_exe (Concrete.self_with ["check"; "warn"])
                        [] f_v_dict c = Ok r)
    (JSConstraint.js_exes (Concrete.self_with ["check"; "warn"])) results /\
  JSConstraint.evaluate (Concrete.self_with ["check"; "warn"]) [] f_v_dict
    = Ok (false, [r None None; r (Some [LiteralOf (PyStr "careful")]) None]) /\
  JSConstraint.evaluate (Concrete.self_with ["check"; "boom"; "warn"]) [] f_v_dict
    = Raise (JSError "boom").
Proof.
  intros js f_v_dict r results.
  assert (Hall : Forall2 (fun c r => JSConstraint._evaluate_js_exe
                                       (Concrete.self_with ["check"; "warn"]) [] f_v_dict c = Ok r)
                   (JSConstraint.js_exes (Concrete.self_with ["check"; "warn"])) results)
    by (repeat constructor).
  split; [exact Hall|]. split.
  - exact (proj1 (evaluate_all_executables (Concrete.self_with ["check"; "warn"]) [] f_v_dict)
             results Hall).
  - refine (proj2 (evaluate_all_executables (Concrete.self_with ["check"; "boom"; "warn"])
                     [] f_v_dict)
              [Concrete.exe_named "check"] (Concrete.exe_named "boom")
              [Concrete.exe_named "warn"] [(true, [r None None])] (JSError "boom")
              eq_refl _ eq_refl).
    repeat constructor.
Defined.

Lemma boolean_script_reports_witness :
  let js := Concrete.verdict_engine in
  let F := Concrete.ex_f in
  let f_v_dict := [(F, [Literal "bad"; Literal "good"])] in
  (forall p, p ∈ pairs_of f_v_dict ->
     JSExecutableRun.execute Concrete.ex_exe [] [PyTerm p.1; PyTerm p.2]
       = Ok (PyBool (Concrete.verdict p.1 p.2))) /\
  JSConstraint._evaluate_js_exe Concrete.ex_self [] f_v_dict Concrete.ex_exe =
    Ok (true, [mk_v_result (PyTerm F) (PyTerm (Literal "bad")) PyNone None None]).
Proof.
  intros js F f_v_dict.
  assert (Hall : forall p, p ∈ pairs_of f_v_dict ->
     JSExecutableRun.execute Concrete.ex_exe [] [PyTerm p.1; PyTerm p.2]
       = Ok (PyBool (Concrete.verdict p.1 p.2))).
  { intros p Hp. vm_compute in Hp.
    repeat (apply elem_of_cons in Hp as [->|Hp]; [reflexivity|]).
    by apply elem_of_nil in Hp. }
  split; [exact Hall|].
  exact (boolean_script_reports Concrete.ex_self [] Concrete.ex_exe Concrete.verdict
           f_v_dict Hall).
Defined.

(** ** BoundShapeJSValidatorComponent: construction and evaluation *)

Section BoundFacts.
Context {rt : Runtime}.
Import BoundShapeJSValidatorComponent.

(** X11. Constructing a bound validator component raises nothing but
    [ReportableRuntimeError].  When it returns, the component keeps the
    shape, the constraint and the validator it was given, has no messages,
    and its parameter map is the one [bind_params] computes: every key is
    the local name of a declared parameter and none is a reserved name. *)
Theorem bound_init_outcome constraint shape validator :
  runtime_error_or
    (fun self =>
       BoundShapeJSValidatorComponent.shape self = shape /\
       BoundShapeJSValidatorComponent.constraint self = constraint /\
       BoundShapeJSValidatorComponent.validator self = validator /\
       messages self = [] /\
       bind_params constraint shape = Ok (param_bind_map self) /\
       forall name, is_Some (param_bind_map self !! name) ->
         (name ∉ invalid_parameter_names) /\
         exists p, p ∈ parameters constraint /\ localname p = name)
    (init constraint shape validator).
Proof.
  unfold init, bind_params.
  pose proof (bind_loop_spec shape (parameters constraint) ∅) as Hspec.
  destruct (bind_loop shape (parameters constraint) ∅) as [m|e]; simpl in Hspec |- *; [|done].
  destruct Hspec as (Ha & Hb & _). do 5 (split; [done|]).
  intros name [x Hx]. destruct (Hb name x Hx) as [He|(p & Hp & Hn & _)].
  - by rewrite lookup_empty in He.
  - split; [|by exists p]. rewrite <-Hn. by apply Ha.
Qed.

Lemma report_of_ok self f result_val v rept :
  report_of self f result_val v = Ok rept -> bound_report_ok self rept.
Proof.
  unfold report_of.
  destruct v as [| [|] | | | | | elems | |]; try (by intros [= <-]).
  destruct elems as [|t [|p [|v [|]]]]; try done. by intros [= <-].
Qed.

Lemma violation_loop_ok self f result_val violations st st' :
  violation_loop self f result_val violations st = Ok st' ->
  (st.1 = true <-> st.2 <> []) /\ Forall (bound_report_ok self) st.2 ->
  (st'.1 = true <-> st'.2 <> []) /\ Forall (bound_report_ok self) st'.2.
Proof.
  revert st. induction violations as [|v rest IH]; intros [nc reports]; simpl.
  - by intros [= <-].
  - destruct (report_of self f result_val v) as [rept|] eqn:Er; simpl; [|done].
    intros Hloop [Hnc Hall]. apply (IH _ Hloop). simpl. split.
    + split; [intros _ | done]. by destruct reports.
    + apply Forall_app. split; [done|]. constructor; [|done]. by apply report_of_ok in Er.
Qed.

Lemma bound_focus_loop_ok validate self g items st st' :
  focus_loop validate self g items st = Ok st' ->
  (st.1 = true <-> st.2 <> []) /\ Forall (bound_report_ok self) st.2 ->
  (st'.1 = true <-> st'.2 <> []) /\ Forall (bound_report_ok self) st'.2.
Proof.
  revert st. induction items as [|[f value_nodes] items IH]; intros st; simpl.
  - by intros [= <-].
  - destruct (validate f value_nodes g (param_bind_map self)) as [[violations|]|]; simpl;
      [|done|done].
    destruct (violation_loop self f _ violations st) as [st1|] eqn:Ev; simpl; [|done].
    intros Hloop Hst. apply (IH _ Hloop). by apply (violation_loop_ok _ _ _ _ _ _ Ev).
Qed.

(** X12. Whatever the validator is, an outcome of [evaluate] is conformant
    exactly when it carries no report, and every report names the node of
    the constraint component and carries the messages of the bound
    component, which are none for a component made by [__init__]. *)
Theorem bound_evaluate_outcome validate self g items conformant reports :
  evaluate validate self g items = Ok (conformant, reports) ->
  (conformant = true <-> reports = []) /\
  Forall (bound_report_ok self) reports /\
  (messages self = [] -> Forall (fun r => extra_messages r = None) reports).
Proof.
  unfold evaluate.
  destruct (focus_loop validate self g items (false, [])) as [[nc rs]|] eqn:Eloop;
    simpl; [|done].
  intros [= <- <-].
  apply bound_focus_loop_ok in Eloop as [Hnc Hall]; [|by split; [split|constructor]].
  simpl in Hnc, Hall. split; [|split; [done|]].
  - rewrite negb_true_iff. destruct nc.
    + split; [done|]. intros ->. destruct Hnc as [Hnc _]. by destruct (Hnc eq_refl).
    + split; [intros _ | done]. destruct rs as [|r rs]; [done|].
      destruct Hnc as [_ Hnc]. by assert (false = true) by (by apply Hnc).
  - intros Hm. eapply Forall_impl; [exact Hall|]. intros r [_ Hr].
    rewrite Hr. unfold messages_or_None. by rewrite Hm.
Qed.
End BoundFacts.

Lemma bound_evaluate_outcome_witness :
  let rt := Concrete.runtime in
  let self := Concrete.ex_bound Concrete.ex_node_shape in
  let items := [(Concrete.ex_f, [Concrete.ex_v])] in
  let r := fun f v p => mk_v_result f v p None (Some (URIRef "ex:Component")) in
  let reports := [r (PyTerm Concrete.ex_f) (PyTerm Concrete.ex_f) PyNone;
                  r (PyTerm Concrete.ex_f) (PyTerm Concrete.ex_f) (PyTerm (URIRef "ex:path"));
                  r (PyTerm Concrete.ex_f) (PyTerm (Literal "raw")) PyNone] in
  BoundShapeJSValidatorComponent.evaluate Concrete.ex_validate self [] items
    = Ok (false, reports) /\
  (false = true <-> reports = []) /\
  Forall (fun r => extra_messages r = None) reports.
Proof.
  intros rt self items r reports.
  assert (Hev : BoundShapeJSValidatorComponent.evaluate Concrete.ex_validate self [] items
                = Ok (false, reports)) by reflexivity.
  destruct (bound_evaluate_outcome Concrete.ex_validate self [] items false reports Hev)
    as (Hc & _ & Hm).
  split; [exact Hev|]. split; [exact Hc | exact (Hm eq_refl)].
Defined.

(** ** JSConstraintComponentValidator.validate and its use by the bound component *)

Section ValidateFacts.
Context {rt : Runtime} {js : JSEngine}.
Import JSConstraintComponentValidator.

Lemma set_add_NoDup x s : NoDup s -> NoDup (set_add x s).
Proof.
  intros Hnd. unfold set_add. destruct (decide (x ∈ s)); [done|].
  apply NoDup_app. split; [done|]. split; [|apply NoDup_singleton].
  by intros y Hy ->%list_elem_of_singleton.
Qed.

Lemma set_add_Forall (P : pyval -> Prop) x s : P x -> Forall P s -> Forall P (set_add x s).
Proof.
  intros Hx Hs. unfold set_add. destruct (decide (x ∈ s)); [done|].
  apply Forall_app. split; [done | by constructor].
Qed.

Lemma row_step_shape violations r :
  NoDup violations /\ Forall violation_shape violations ->
  NoDup (row_step violations r) /\ Forall violation_shape (row_step violations r).
Proof.
  intros [Hnd Hall]. unfold row_step.
  destruct (py_truthy (item_or_None "path" r) || py_truthy (item_or_None "value" r)
            || py_truthy (item_or_None "this" r)) eqn:E.
  - split; [by apply set_add_NoDup|]. apply set_add_Forall; [|done].
    right. by eexists _, _, _.
  - destruct (Dict.get "failure" r); [|done].
    split; [by apply set_add_NoDup|]. apply set_add_Forall; [by left | done].
Qed.

Lemma rows_shape bindings violations :
  NoDup violations /\ Forall violation_shape violations ->
  NoDup (foldl row_step violations bindings) /\
  Forall violation_shape (foldl row_step violations bindings).
Proof.
  revert violations. induction bindings as [|r rest IH]; intros violations Hv; [done|].
  simpl. by apply IH, row_step_shape.
Qed.

Lemma validate_body_shape self g bind_vals v l :
  validate_body self g bind_vals v = Ok (Return l) ->
  NoDup l /\ Forall violation_shape l.
Proof.
  unfold validate_body. destruct (bind_vals !! "maxLength"); simpl; [|done].
  destruct (js_exe self); simpl; [|done].
  destruct (JSExecutableRun.execute _ _ _) as [results|]; simpl; [|done].
  destruct (py_truthy results); simpl; [|intros [= <-]; split; constructor].
  destruct (get_bindings results) as [bindings|]; simpl; [|done].
  destruct (length bindings <? 1)%nat; intros [= <-]; [split; constructor|].
  apply rows_shape. split; constructor.
Qed.

Lemma validate_Some_shape self focus value_nodes g binds new_binds l :
  validate self focus value_nodes g binds new_binds = Ok (Some l) ->
  NoDup l /\ Forall violation_shape l.
Proof.
  unfold validate. destruct value_nodes as [|v rest]; [done|]. simpl.
  pose proof (validate_body_returns self g (default ∅ new_binds ∪ binds) v) as Hret.
  destruct (validate_body _ _ _ v) as [[a|]|] eqn:Eb; simpl; [|done|done].
  intros [= <-]. by apply validate_body_shape in Eb.
Qed.

Lemma violation_shape_triple x : violation_shape x -> tuples_are_triples x.
Proof.
  intros [->|(t & p & v & -> & _)] elems; [done|]. by intros [= <-].
Qed.

(** X13. What [validate] returns, when it returns: [None] exactly when
    there is no value node; otherwise a collection without duplicates, each
    member of which is the generic violation [True] or a triple (this, path,
    value) of which at least one component is true, never a bare value
    node. *)
Theorem validate_result_shape self focus value_nodes g binds new_binds :
  (validate self focus value_nodes g binds new_binds = Ok None <-> value_nodes = []) /\
  (forall l, validate self focus value_nodes g binds new_binds = Ok (Some l) ->
     value_nodes <> [] /\ NoDup l /\ Forall violation_shape l /\
     Forall tuples_are_triples l).
Proof.
  split.
  - split; [|by intros ->]. unfold validate. destruct value_nodes as [|v rest]; [done|].
    simpl. pose proof (validate_body_returns self g (default ∅ new_binds ∪ binds) v) as Hret.
    by destruct (validate_body _ _ _ v) as [[a|]|].
  - intros l Hl. split; [by intros ->|].
    destruct (validate_Some_shape _ _ _ _ _ _ _ Hl) as [Hnd Hall].
    split; [done|]. split; [done|].
    eapply Forall_impl; [exact Hall|]. apply violation_shape_triple.
Qed.
End ValidateFacts.

Lemma validate_result_shape_witness :
  let rt := Concrete.runtime in
  let js := Concrete.rows_engine in
  let l := [PyTuple [PyNone; PyNone; PyTerm Concrete.ex_v]; PyBool true] in
  JSConstraintComponentValidator.validate Concrete.ex_instance Concrete.ex_f [Concrete.ex_v]
    [] Concrete.ex_binds None = Ok (Some l) /\
  NoDup l /\ Forall violation_shape l.
Proof.
  intros rt js l.
  assert (Hv : JSConstraintComponentValidator.validate Concrete.ex_instance Concrete.ex_f
                 [Concrete.ex_v] [] Concrete.ex_binds None = Ok (Some l)) by reflexivity.
  destruct (validate_result_shape Concrete.ex_instance Concrete.ex_f [Concrete.ex_v] []
              Concrete.ex_binds None) as [_ Hshape].
  destruct (Hshape l Hv) as (_ & Hnd & Hall & _).
  split; [exact Hv|]. split; [exact Hnd | exact Hall].
Defined.

Section BoundWithValidator.
Context {rt : Runtime} {js : JSEngine}.
Import BoundShapeJSValidatorComponent.

Lemma bound_focus_loop_app validate self g items1 items2 st :
  focus_loop validate self g (items1 ++ items2) st =
  (st' <-- focus_loop validate self g items1 st ;; focus_loop validate self g items2 st').
Proof.
  revert st. induction items1 as [|[f value_nodes] items1 IH]; intros st; simpl; [done|].
  destruct (validate f value_nodes g (param_bind_map self)) as [[violations|]|]; simpl;
    [|done|done].
  destruct (violation_loop self f _ violations st); simpl; [apply IH | done].
Qed.

(** X14. A focus node without value node makes the evaluation of a bound
    JS validator component fail: [validate] hands back [None] for it, which
    [evaluate] cannot iterate over, and the evaluation ends in a [TypeError],
    whatever the other focus nodes are, once the focus nodes before it have
    been evaluated. *)
Theorem evaluate_bound_without_value_nodes w bound g before f after inst :
  JSConstraintComponentValidator.heap w !! validator bound = Some inst ->
  is_raise (JSConstraintComponentValidator.evaluate_bound w bound g before) = false ->
  JSConstraintComponentValidator.evaluate_bound w bound g (before ++ (f, []) :: after)
    = Raise (TypeError "'NoneType' object is not iterable").
Proof.
  intros Hinst. unfold JSConstraintComponentValidator.evaluate_bound. rewrite Hinst.
  unfold evaluate. rewrite bound_focus_loop_app.
  destruct (focus_loop _ bound g before (false, [])) as [st|]; simpl; [|done].
  by intros _.
Qed.

(** X15. A bound component evaluated with the JS validator, when the
    validator returns a collection for every focus node: the evaluation
    returns (the violations being [True] or triples, no unpacking can fail),
    with one report for each violation, in the order of the focus nodes, and
    is conformant exactly when no violation was returned. *)
Theorem evaluate_bound_reports w bound g items inst :
  JSConstraintComponentValidator.heap w !! validator bound = Some inst ->
  (forall item, item ∈ items ->
     exists violations,
       validate_of inst item.1 item.2 g (param_bind_map bound) = Ok (Some violations)) ->
  JSConstraintComponentValidator.evaluate_bound w bound g items =
    Ok (forallb (fun item => bool_decide (violations_of (validate_of inst) bound g item = []))
          items,
        flat_map (fun item =>
                    spec_report bound item.1 <$> violations_of (validate_of inst) bound g item)
          items).
Proof.
  intros Hinst Hall. unfold JSConstraintComponentValidator.evaluate_bound. rewrite Hinst.
  change (evaluate (validate_of inst) bound g items = Ok
    (forallb (fun item => bool_decide (violations_of (validate_of inst) bound g item = []))
       items,
     flat_map (fun item =>
                 spec_report bound item.1 <$> violations_of (validate_of inst) bound g item)
       items)).
  assert (Hwf : forall item, item ∈ items ->
            exists violations,
              validate_of inst item.1 item.2 g (param_bind_map bound) = Ok (Some violations) /\
              Forall tuples_are_triples violations).
  { intros item Hitem. destruct (Hall item Hitem) as [violations Hv].
    exists violations. split; [done|]. unfold validate_of in Hv.
    destruct (validate_Some_shape _ _ _ _ _ _ _ Hv) as [_ Hshape].
    eapply Forall_impl; [exact Hshape|]. apply violation_shape_triple. }
  unfold evaluate. rewrite (focus_loop_spec _ _ _ _ false [] Hwf). simpl.
  f_equal. f_equal. clear Hall Hwf. induction items as [|item items IH]; [done|].
  simpl. by rewrite negb_orb, negb_involutive, IH.
Qed.
End BoundWithValidator.

Lemma evaluate_bound_without_value_nodes_witness :
  let rt := Concrete.runtime in
  let js := Concrete.rows_engine in
  let bound := Concrete.ex_bound_js Concrete.ex_node_shape in
  JSConstraintComponentValidator.heap Concrete.ex_world
    !! BoundShapeJSValidatorComponent.validator bound = Some Concrete.ex_instance /\
  is_raise (JSConstraintComponentValidator.evaluate_bound Concrete.ex_world bound []
              [(Concrete.ex_f, [Concrete.ex_v])]) = false /\
  JSConstraintComponentValidator.evaluate_bound Concrete.ex_world bound []
    ([(Concrete.ex_f, [Concrete.ex_v])] ++ (URIRef "ex:G", []) :: [])
    = Raise (TypeError "'NoneType' object is not iterable").
Proof.
  intros rt js bound. split; [reflexivity|]. split; [reflexivity|].
  exact (evaluate_bound_without_value_nodes Concrete.ex_world bound []
           [(Concrete.ex_f, [Concrete.ex_v])] (URIRef "ex:G") [] Concrete.ex_instance
           eq_refl eq_refl).
Defined.

Lemma evaluate_bound_reports_witness :
  let rt := Concrete.runtime in
  let js := Concrete.rows_engine in
  let bound := Concrete.ex_bound_js Concrete.ex_node_shape in
  let items := [(Concrete.ex_f, [Concrete.ex_v])] in
  let r := fun v => mk_v_result (PyTerm Concrete.ex_f) v PyNone None
                      (Some (URIRef "ex:Component")) in
  JSConstraintComponentValidator.heap Concrete.ex_world
    !! BoundShapeJSValidatorComponent.validator bound = Some Concrete.ex_instance /\
  (forall item, item ∈ items ->
     exists violations,
       validate_of Concrete.ex_instance item.1 item.2 []
         (BoundShapeJSValidatorComponent.param_bind_map bound) = Ok (Some violations)) /\
  JSConstraintComponentValidator.evaluate_bound Concrete.ex_world bound [] items
    = Ok (false, [r (PyTerm Concrete.ex_v); r (PyTerm Concrete.ex_f)]).
Proof.
  intros rt js bound items r.
  assert (Hall : forall item, item ∈ items ->
     exists violations,
       validate_of Concrete.ex_instance item.1 item.2 []
         (BoundShapeJSValidatorComponent.param_bind_map bound) = Ok (Some violations)).
  { intros item Hitem. apply elem_of_cons in Hitem as [->|Hitem].
    - eexists. reflexivity.
    - by apply elem_of_nil in Hitem. }
  split; [reflexivity|]. split; [exact Hall|].
  exact (evaluate_bound_reports Concrete.ex_world bound [] items Concrete.ex_instance
           eq_refl Hall).
Defined.

(** ** JSConstraintComponentValidator: objects and cache over time *)

Section ValidatorObjects.
Context {rt : Runtime}.
Import JSConstraintComponentValidator.

Lemma check_messages_Ok message_nodes :
  check_messages message_nodes = Ok () -> Forall message_ok message_nodes.
Proof.
  induction message_nodes as [|m rest IH]; simpl; [by constructor|].
  destruct (is_literal m && literal_value_is_str m) eqn:E; simpl; [|done].
  intros Hrest. apply andb_true_iff in E. constructor; [done | by apply IH].
Qed.

Lemma check_messages_raise message_nodes e :
  check_messages message_nodes = Raise e -> exists msg link, e = ConstraintLoadError msg link.
Proof.
  induction message_nodes as [|m rest IH]; simpl; [done|].
  destruct (is_literal m && literal_value_is_str m); simpl; [done|].
  intros [= <-]. by eexists _, _.
Qed.

(** [__init__] leaves every other object alone. *)
Lemma init_other self sg n w a :
  a <> self -> heap (init self sg n w).2 !! a = heap w !! a.
Proof.
  intros Hne. unfold init. destruct (heap w !! self) as [inst|]; [|done].
  destruct (initialised inst); [done|].
  destruct (check_messages _); simpl; [|by rewrite list_lookup_alter_ne].
  destruct (JSExecutable.init sg n); simpl; by rewrite !list_lookup_alter_ne.
Qed.

(** When [__init__] runs to its end on an object that was not initialised,
    the messages passed the check, the executable could be constructed, and
    the object has all its attributes. *)
Lemma init_Ok_attributes self sg n w w' inst :
  heap w !! self = Some inst -> initialised inst = false ->
  init self sg n w = (Ok (), w') ->
  exists exe, JSExecutable.init sg n = Ok exe /\
    Forall message_ok (set_order (objects sg n SH_message)) /\
    heap w' !! self = Some (initialised_instance sg n exe).
Proof.
  intros Hheap Hinit. unfold init. rewrite Hheap, Hinit.
  destruct (check_messages _) as [[]|] eqn:Ec; [|done].
  destruct (JSExecutable.init sg n) as [exe|]; [|done].
  intros [= <-]. exists exe. split; [done|]. split; [by apply check_messages_Ok|].
  simpl. by rewrite !list_lookup_alter_eq, Hheap.
Qed.

(** When [__init__] raises, it raises [ConstraintLoadError] and leaves the
    object not initialised. *)
Lemma init_raise self sg n w w' inst e :
  heap w !! self = Some inst ->
  init self sg n w = (Raise e, w') ->
  (exists msg link, e = ConstraintLoadError msg link) /\
  exists inst', heap w' !! self = Some inst' /\ initialised inst' = false.
Proof.
  intros Hheap. unfold init. rewrite Hheap.
  destruct (initialised inst) eqn:Einit; [done|].
  destruct (check_messages _) as [[]|e1] eqn:Ec.
  - pose proof (executable_init_load_error sg n) as Hload.
    destruct (JSExecutable.init sg n) as [exe|e2]; [done|].
    intros [= <- <-]. destruct Hload as [msg ->]. split; [by eexists _, _|].
    simpl. rewrite !list_lookup_alter_eq, Hheap. simpl. by eexists.
  - intros [= <- <-]. split; [by apply check_messages_raise in Ec|].
    simpl. rewrite list_lookup_alter_eq, Hheap. simpl. by eexists.
Qed.

(** [__new__]: the object for a cached key, or a new blank object. *)
Lemma new_cases sg n w :
  (exists a, validator_cache w !! (graph_id sg, term_str n) = Some a /\ new sg n w = (a, w)) \/
  (validator_cache w !! (graph_id sg, term_str n) = None /\
   new sg n w = (length (heap w),
                 mkWorld (heap w ++ [blank])
                   (<[(graph_id sg, term_str n) := length (heap w)]> (validator_cache w)))).
Proof.
  unfold new. destruct (validator_cache w !! (graph_id sg, term_str n)) as [a|]; [left|right].
  - by exists a.
  - done.
Qed.

(** One construction keeps every cache entry and every initialised object,
    and allocates at most one object. *)
Lemma construct_keeps sg n w :
  let w' := (construct sg n w).2 in
  (forall key a, validator_cache w !! key = Some a -> validator_cache w' !! key = Some a) /\
  (length (heap w) <= length (heap w') <= S (length (heap w)))%nat /\
  (forall a inst, heap w !! a = Some inst -> initialised inst = true ->
                  heap w' !! a = Some inst).
Proof.
  unfold construct.
  destruct (new_cases sg n w) as [(a0 & Hc & ->)|[Hc ->]].
  - pose proof (init_validator_cache a0 sg n w) as Hcache.
    pose proof (init_heap_length a0 sg n w) as Hlen.
    pose proof (init_other a0 sg n w) as Hother.
    destruct (init a0 sg n w) as [r w'] eqn:Einit. simpl in *.
    split; [by rewrite Hcache|]. split; [lia|].
    intros a inst Ha Hi. destruct (decide (a = a0)) as [->|Hne]; [|by rewrite Hother].
    rewrite (init_initialised _ _ _ _ _ Ha Hi) in Einit. by injection Einit as _ <-.
  - set (w0 := mkWorld _ _).
    pose proof (init_validator_cache (length (heap w)) sg n w0) as Hcache.
    pose proof (init_heap_length (length (heap w)) sg n w0) as Hlen.
    pose proof (init_other (length (heap w)) sg n w0) as Hother.
    destruct (init (length (heap w)) sg n w0) as [r w'] eqn:Einit. simpl in *.
    rewrite length_app in Hlen. simpl in Hlen. split; [|split; [lia|]].
    + intros key a Ha. rewrite Hcache. rewrite lookup_insert_ne; [done|].
      intros <-. by rewrite Hc in Ha.
    + intros a inst Ha Hi. apply lookup_lt_Some in Ha as Hlt.
      rewrite Hother by lia. by rewrite lookup_app_l.
Qed.

(** X16. Over any run of constructions, returning or raising, the cache
    only grows: an entry is never removed nor given another object; every
    construction allocates at most one object; and an object that is
    initialised is never changed again. *)
Theorem cache_only_grows requests w :
  let w' := construct_all requests w in
  (forall key a, validator_cache w !! key = Some a -> validator_cache w' !! key = Some a) /\
  (length (heap w) <= length (heap w') <= length (heap w) + length requests)%nat /\
  (forall a inst, heap w !! a = Some inst -> initialised inst = true ->
                  heap w' !! a = Some inst).
Proof.
  revert w. induction requests as [|[sg n] requests IH]; intros w; cbv zeta.
  - simpl. split; [done|]. split; [lia | done].
  - pose proof (construct_keeps sg n w) as Hstep. cbv zeta in Hstep.
    destruct Hstep as (Hc1 & Hl1 & Hh1).
    pose proof (IH (construct sg n w).2) as Hrest. cbv zeta in Hrest.
    destruct Hrest as (Hc2 & Hl2 & Hh2).
    change (construct_all ((sg, n) :: requests) w)
      with (construct_all requests (construct sg n w).2).
    split; [|split].
    + intros key a Ha. by apply Hc2, Hc1.
    + cbn [length]. lia.
    + intros a inst Ha Hi. by apply Hh2; [apply Hh1|].
Qed.

(** X17. The first successful construction for a key that is not in the
    cache: the object is a new one; its messages all passed the check (each
    is a Literal with a string value); its executable is the one constructed
    from the same shapes graph and node; and it holds the graph, the node,
    the messages and the executable, and is marked initialised. *)
Theorem first_construction sg n w a w1 :
  validator_cache w !! (graph_id sg, term_str n) = None ->
  construct sg n w = (Ok a, w1) ->
  a = length (heap w) /\
  validator_cache w1 = <[(graph_id sg, term_str n) := a]> (validator_cache w) /\
  exists exe, JSExecutable.init sg n = Ok exe /\
    Forall message_ok (set_order (objects sg n SH_message)) /\
    heap w1 !! a = Some (initialised_instance sg n exe).
Proof.
  intros Hnone. unfold construct.
  destruct (new_cases sg n w) as [(a0 & Hc & _)|[_ ->]]; [by rewrite Hnone in Hc|].
  set (w0 := mkWorld _ _).
  pose proof (init_validator_cache (length (heap w)) sg n w0) as Hcache.
  destruct (init (length (heap w)) sg n w0) as [[[]|e] w'] eqn:Einit; [|done].
  simpl in Hcache |- *. intros [= <- <-]. split; [done|]. split; [done|].
  apply (init_Ok_attributes _ _ _ _ _ blank) in Einit; [done | | done].
  unfold w0. simpl. by rewrite lookup_app_r, Nat.sub_diag.
Qed.
End ValidatorObjects.

Lemma first_construction_witness :
  let rt := Concrete.runtime in
  let sg := Concrete.lib_graph [Concrete.lib1] [] in
  let exe := JSExecutable.mk sg Concrete.js_node "check"
               [(Concrete.lib1, ["a.js"]); (Concrete.lib2, ["b.js"])] in
  let w1 := (JSConstraintComponentValidator.construct sg Concrete.js_node
               JSConstraintComponentValidator.empty_world).2 in
  JSConstraintComponentValidator.validator_cache JSConstraintComponentValidator.empty_world
    !! (graph_id sg, term_str Concrete.js_node) = None /\
  JSConstraintComponentValidator.construct sg Concrete.js_node
    JSConstraintComponentValidator.empty_world = (Ok 0%nat, w1) /\
  JSConstraintComponentValidator.heap w1 !! 0%nat
    = Some (JSConstraintComponentValidator.mkInstance true (Some sg) (Some Concrete.js_node)
              (Some []) (Some exe)).
Proof.
  intros rt sg exe w1.
  assert (Hc : JSConstraintComponentValidator.construct sg Concrete.js_node
                 JSConstraintComponentValidator.empty_world = (Ok 0%nat, w1)) by reflexivity.
  destruct (first_construction sg Concrete.js_node
              JSConstraintComponentValidator.empty_world 0%nat w1 eq_refl Hc)
    as (_ & _ & exe' & Hexe & _ & Hheap).
  split; [reflexivity|]. split; [exact Hc|].
  assert (exe' = exe) as <- by (by injection Hexe as <-).
  exact Hheap.
Defined.

Section ValidatorRetry.
Context {rt : Runtime}.
Import JSConstraintComponentValidator.

(** X18. A construction that raises, raises [ConstraintLoadError], and it
    leaves its object in the cache, not initialised.  A later construction
    for the same key does not allocate: it takes that object from the cache
    and runs the initialisation again, with the graph and node it is given;
    when it returns, it returns that object, now with all its attributes. *)
Theorem failed_construction_is_retried sg n w e w1 :
  reachable w ->
  construct sg n w = (Raise e, w1) ->
  (exists msg link, e = ConstraintLoadError msg link) /\
  exists a inst,
    validator_cache w1 !! (graph_id sg, term_str n) = Some a /\
    heap w1 !! a = Some inst /\ initialised inst = false /\
    forall sg' n' b w2,
      graph_id sg' = graph_id sg -> term_str n' = term_str n ->
      construct sg' n' w1 = (Ok b, w2) ->
      b = a /\ length (heap w2) = length (heap w1) /\
      exists exe, JSExecutable.init sg' n' = Ok exe /\
                  heap w2 !! a = Some (initialised_instance sg' n' exe).
Proof.
  intros [Hbound _]%reachable_cache_inv. unfold construct at 1.
  assert (Hcases : exists a w0 inst0,
            new sg n w = (a, w0) /\ heap w0 !! a = Some inst0 /\
            validator_cache w0 !! (graph_id sg, term_str n) = Some a).
  { destruct (new_cases sg n w) as [(a & Hc & Hnew)|[Hc Hnew]].
    - destruct (lookup_lt_is_Some_2 (heap w) a (Hbound _ _ Hc)) as [inst0 Hinst0].
      by exists a, w, inst0.
    - eexists _, _, blank. split; [exact Hnew|]. simpl.
      split; [by rewrite lookup_app_r, Nat.sub_diag | apply lookup_insert_eq]. }
  destruct Hcases as (a & w0 & inst0 & -> & Hheap0 & Hcache0).
  pose proof (init_validator_cache a sg n w0) as Hcache.
  destruct (init a sg n w0) as [[[]|e0] w'] eqn:Einit; simpl; [done|].
  intros [= <- <-]. simpl in Hcache.
  destruct (init_raise _ _ _ _ _ _ _ Hheap0 Einit) as (Hload & inst' & Hheap' & Hinit').
  split; [done|]. exists a, inst'. split; [by rewrite Hcache|]. split; [done|]. split; [done|].
  intros sg' n' b w2 Hg Hn. unfold construct, new. rewrite Hg, Hn, Hcache, Hcache0.
  pose proof (init_heap_length a sg' n' w') as Hlen.
  destruct (init a sg' n' w') as [[[]|e1] w''] eqn:Einit2; simpl; [|done].
  intros [= <- <-]. split; [done|]. split; [done|].
  destruct (init_Ok_attributes _ _ _ _ _ _ Hheap' Hinit' Einit2) as (exe & Hexe & _ & Hobj).
  by exists exe.
Qed.
End ValidatorRetry.

Lemma failed_construction_is_retried_witness :
  let rt := Concrete.runtime in
  let n := Concrete.js_node in
  let w1 := (JSConstraintComponentValidator.construct Concrete.unfinished_graph n
               JSConstraintComponentValidator.empty_world).2 in
  let w2 := (JSConstraintComponentValidator.construct (Concrete.lib_graph [] []) n w1).2 in
  reachable JSConstraintComponentValidator.empty_world /\
  is_raise (JSConstraintComponentValidator.construct Concrete.unfinished_graph n
              JSConstraintComponentValidator.empty_world).1 = true /\
  JSConstraintComponentValidator.construct (Concrete.lib_graph [] []) n w1 = (Ok 0%nat, w2) /\
  length (JSConstraintComponentValidator.heap w2) = 1%nat.
Proof.
  intros rt n w1 w2.
  assert (Hc1 : exists e, JSConstraintComponentValidator.construct Concrete.unfinished_graph n
                            JSConstraintComponentValidator.empty_world = (Raise e, w1))
    by (eexists; reflexivity).
  destruct Hc1 as [e Hc1].
  assert (Hc2 : JSConstraintComponentValidator.construct (Concrete.lib_graph [] []) n w1
                = (Ok 0%nat, w2)) by reflexivity.
  destruct (failed_construction_is_retried _ _ _ _ _ reachable_start Hc1)
    as (_ & a & inst & _ & _ & _ & Hretry).
  destruct (Hretry (Concrete.lib_graph [] []) n 0%nat w2 eq_refl eq_refl Hc2)
    as (_ & Hlen & _).
  split; [exact reachable_start|]. split; [reflexivity|]. split; [exact Hc2|].
  rewrite Hlen. reflexivity.
Defined.

Lemma cache_only_grows_witness :
  let rt := Concrete.runtime in
  let sg := Concrete.lib_graph [] [] in
  let n := Concrete.js_node in
  let w := (JSConstraintComponentValidator.construct sg n
              JSConstraintComponentValidator.empty_world).2 in
  let requests := [(Concrete.other_graph, n); (Concrete.unfinished_graph, URIRef "ex:none");
                   (sg, n)] in
  JSConstraintComponentValidator.validator_cache w !! (graph_id sg, term_str n) = Some 0%nat /\
  JSConstraintComponentValidator.validator_cache (construct_all requests w)
    !! (graph_id sg, term_str n) = Some 0%nat /\
  exists inst,
    JSConstraintComponentValidator.heap w !! 0%nat = Some inst /\
    JSConstraintComponentValidator.initialised inst = true /\
    JSConstraintComponentValidator.heap (construct_all requests w) !! 0%nat = Some inst.
Proof.
  intros rt sg n w requests.
  assert (Hc : JSConstraintComponentValidator.validator_cache w !! (graph_id sg, term_str n)
               = Some 0%nat) by reflexivity.
  destruct (cache_only_grows requests w) as (Hcache & _ & Hheap).
  split; [exact Hc|]. split; [exact (Hcache _ _ Hc)|].
  eexists. split; [reflexivity|]. split; [reflexivity|].
  apply Hheap; reflexivity.
Defined.

(** ** JSConstraintComponent.make_validator_for_shape as a whole *)

Section MakeValidator.
Context {rt : Runtime}.
Import JSConstraintComponentValidator.

Lemma construct_world_ok sg n w : world_ok w -> world_ok (construct sg n w).2.
Proof.
  intros [Hinv Hobj]. split; [by apply construct_cache_inv|].
  destruct Hinv as [Hbound Hinj]. unfold construct.
  destruct (new_cases sg n w) as [(a0 & Hc & ->)|[Hc ->]].
  - pose proof (init_validator_cache a0 sg n w) as Hcache.
    pose proof (init_other a0 sg n w) as Hother.
    destruct (lookup_lt_is_Some_2 (heap w) a0 (Hbound _ _ Hc)) as [inst0 Hinst0].
    destruct (init a0 sg n w) as [r w'] eqn:Einit. simpl in *.
    intros a inst Ha Hi. rewrite Hcache.
    destruct (decide (a = a0)) as [->|Hne]; [|rewrite Hother in Ha by done; by apply Hobj].
    destruct (initialised inst0) eqn:Ei0.
    + rewrite (init_initialised _ _ _ _ _ Hinst0 Ei0) in Einit.
      injection Einit as _ <-. by apply Hobj.
    + destruct r as [[]|e].
      * destruct (init_Ok_attributes _ _ _ _ _ _ Hinst0 Ei0 Einit) as (exe & Hexe & _ & Hnew).
        rewrite Hnew in Ha. injection Ha as <-. exists sg, n, exe.
        split; [done|]. split; [done|]. intros key Hkey. by apply (Hinj _ _ a0).
      * destruct (init_raise _ _ _ _ _ _ _ Hinst0 Einit) as (_ & inst' & Hnew & Hi').
        rewrite Hnew in Ha. injection Ha as <-. congruence.
  - set (a0 := length (heap w)). set (w0 := mkWorld _ _).
    pose proof (init_validator_cache a0 sg n w0) as Hcache.
    pose proof (init_other a0 sg n w0) as Hother.
    assert (Hblank : heap w0 !! a0 = Some blank)
      by (unfold w0, a0; simpl; by rewrite lookup_app_r, Nat.sub_diag).
    destruct (init a0 sg n w0) as [r w'] eqn:Einit. simpl in Hcache, Hother |- *.
    intros a inst Ha Hi. rewrite Hcache.
    change (validator_cache w0)
      with (<[(graph_id sg, term_str n) := a0]> (validator_cache w)).
    destruct (decide (a = a0)) as [->|Hne].
    + destruct r as [[]|e].
      * destruct (init_Ok_attributes _ _ _ _ _ _ Hblank eq_refl Einit)
          as (exe & Hexe & _ & Hnew).
        rewrite Hnew in Ha. injection Ha as <-. exists sg, n, exe.
        split; [done|]. split; [done|]. intros key.
        destruct (decide ((graph_id sg, term_str n) = key)) as [<-|Hk]; [done|].
        rewrite lookup_insert_ne by done. intros Hkey%Hbound. unfold a0 in Hkey. lia.
      * destruct (init_raise _ _ _ _ _ _ _ Hblank Einit) as (_ & inst' & Hnew & Hi').
        rewrite Hnew in Ha. injection Ha as <-. congruence.
    + rewrite Hother in Ha by done. unfold w0 in Ha. simpl in Ha.
      assert (Hold : heap w !! a = Some inst).
      { apply lookup_lt_Some in Ha as Hlt. rewrite length_app in Hlt. simpl in Hlt.
        rewrite lookup_app_l in Ha; [done|]. unfold a0 in Hne. lia. }
      destruct (Hobj a inst Hold Hi) as (sg0 & n0 & exe & -> & Hexe & Hkeys).
      exists sg0, n0, exe. split; [done|]. split; [done|]. intros key.
      destruct (decide ((graph_id sg, term_str n) = key)) as [<-|Hk].
      * rewrite lookup_insert_eq. intros [= Heq]. by destruct Hne.
      * rewrite lookup_insert_ne by done. apply Hkeys.
Qed.

Lemma reachable_world_ok w : reachable w -> world_ok w.
Proof.
  induction 1 as [|sg n w _ IH].
  - split.
    + split; intros *; simpl; by rewrite lookup_empty.
    + intros a inst. simpl. by rewrite lookup_nil.
  - by apply construct_world_ok.
Qed.

(** X19. What [make_validator_for_shape] returns, in a running process: a
    component bound to the given shape and to this constraint component,
    without messages, whose parameter map is the one [bind_params] computes
    for them, and whose validator is an initialised object of the heap; the
    executable of that object was constructed from a shapes graph with the
    identity of the component's graph and a node with the string of the
    chosen validator node (the graph and node of the first construction
    under that key that returned). *)
Theorem make_validator_outcome self shape w bound w' :
  reachable w ->
  JSConstraintComponent.make_validator_for_shape self shape w = (Ok bound, w') ->
  BoundShapeJSValidatorComponent.shape bound = shape /\
  BoundShapeJSValidatorComponent.constraint bound = self /\
  BoundShapeJSValidatorComponent.messages bound = [] /\
  BoundShapeJSValidatorComponent.bind_params self shape
    = Ok (BoundShapeJSValidatorComponent.param_bind_map bound) /\
  reachable w' /\
  exists validator_node sg n exe,
    JSConstraintComponent.select_validator_node self shape = Ok validator_node /\
    heap w' !! BoundShapeJSValidatorComponent.validator bound
      = Some (initialised_instance sg n exe) /\
    JSExecutable.init sg n = Ok exe /\
    graph_id sg = graph_id (component_sg self) /\
    term_str n = term_str validator_node.
Proof.
  intros Hreach. unfold JSConstraintComponent.make_validator_for_shape.
  destruct (JSConstraintComponent.select_validator_node self shape) as [vn|]; [|done].
  pose proof (reachable_construct (component_sg self) vn w Hreach) as Hreach1.
  destruct (construct (component_sg self) vn w) as [r w1] eqn:Ec.
  destruct r as [a|]; [|done].
  unfold apply_to_shape_via_constraint, BoundShapeJSValidatorComponent.init.
  destruct (BoundShapeJSValidatorComponent.bind_params self shape) as [m|]; simpl; [|done].
  intros [= <- <-]. simpl. do 4 (split; [done|]). split; [done|].
  pose proof (construct_cached _ _ _ _ _ Ec) as Hcached.
  assert (Hobj : exists inst, heap w1 !! a = Some inst /\ initialised inst = true).
  { unfold construct in Ec. destruct (new _ vn w) as [self0 w0].
    destruct (init self0 _ vn w0) as [[[]|e] w2] eqn:Einit; [|done].
    injection Ec as <- <-. by apply init_Ok_initialised in Einit. }
  destruct Hobj as (inst & Hheap & Hinit).
  destruct (reachable_world_ok _ Hreach1) as [_ Hok].
  destruct (Hok a inst Hheap Hinit) as (sg & n & exe & -> & Hexe & Hkeys).
  specialize (Hkeys _ Hcached). injection Hkeys as Hg Hn.
  by exists vn, sg, n, exe.
Qed.
End MakeValidator.

Lemma make_validator_outcome_witness :
  let rt := Concrete.runtime in
  let sg := Concrete.lib_graph [] [] in
  let shape := Concrete.ex_param_shape in
  let w' := (JSConstraintComponent.make_validator_for_shape Concrete.lib_component shape
               JSConstraintComponentValidator.empty_world).2 in
  let bound := BoundShapeJSValidatorComponent.mk shape Concrete.lib_component 0
                 Concrete.ex_binds [] in
  reachable JSConstraintComponentValidator.empty_world /\
  JSConstraintComponent.make_validator_for_shape Concrete.lib_component shape
    JSConstraintComponentValidator.empty_world = (Ok bound, w') /\
  BoundShapeJSValidatorComponent.bind_params Concrete.lib_component shape
    = Ok Concrete.ex_binds /\
  reachable w'.
Proof.
  intros rt sg shape w' bound.
  assert (Hm : JSConstraintComponent.make_validator_for_shape Concrete.lib_component shape
                 JSConstraintComponentValidator.empty_world = (Ok bound, w')) by reflexivity.
  destruct (make_validator_outcome Concrete.lib_component shape _ bound w' reachable_start Hm)
    as (_ & _ & _ & Hbind & Hreach & _).
  split; [exact reachable_start|]. split; [exact Hm|]. split; [exact Hbind | exact Hreach].
Defined.

(** ** JSConstraintComponentValidator.validate: arguments and results of the script *)

Section ValidateEdges.
Context {rt : Runtime} {js : JSEngine}.
Import JSConstraintComponentValidator.

Lemma validate_body_maxLength self g bind_vals bind_vals' v :
  bind_vals !! "maxLength" = bind_vals' !! "maxLength" ->
  validate_body self g bind_vals v = validate_body self g bind_vals' v.
Proof. intros Heq. unfold validate_body. by rewrite Heq. Qed.

Lemma for_each_ext {X A} (body body' : X -> outcome (ctl A)) xs :
  (forall x, body x = body' x) -> for_each body xs = for_each body' xs.
Proof.
  intros Hext. induction xs as [|x xs IH]; simpl; [done|].
  rewrite Hext. destruct (body' x) as [[a|]|]; simpl; [done | apply IH | done].
Qed.

(** X20. Of all the bound parameters, [validate] reads the binding of
    [maxLength] and no other: two calls whose bindings agree on [maxLength]
    behave alike, whatever else is bound; a binding in [new_bind_vals] takes
    precedence over one in [param_bind_vals]; and with [maxLength] unbound
    and a value node to validate, the call raises [KeyError] before the
    script is run. *)
Theorem validate_reads_only_maxLength self focus value_nodes g binds new_binds :
  (forall binds' new_binds',
     (default ∅ new_binds ∪ binds) !! "maxLength"
       = (default ∅ new_binds' ∪ binds') !! "maxLength" ->
     validate self focus value_nodes g binds new_binds
       = validate self focus value_nodes g binds' new_binds') /\
  (forall nb x, new_binds = Some nb -> nb !! "maxLength" = Some x ->
     validate self focus value_nodes g binds new_binds
       = validate self focus value_nodes g {[ "maxLength" := x ]} None) /\
  ((default ∅ new_binds ∪ binds) !! "maxLength" = None -> value_nodes <> [] ->
     validate self focus value_nodes g binds new_binds = Raise (KeyError "maxLength")).
Proof.
  split; [|split].
  - intros binds' new_binds' Heq. unfold validate. apply for_each_ext.
    intros v. by apply validate_body_maxLength.
  - intros nb x -> Hx. unfold validate. apply for_each_ext.
    intros v. apply validate_body_maxLength. simpl.
    rewrite (lookup_union_Some_l _ _ _ _ Hx).
    rewrite (lookup_union_r ∅) by apply lookup_empty. by rewrite lookup_singleton_eq.
  - intros Hnone Hne. destruct value_nodes as [|v rest]; [done|].
    unfold validate. simpl. unfold validate_body. by rewrite Hnone.
Qed.

(** X21. What [validate] makes of the result of the script for the first
    value node, on an initialised validator with [maxLength] bound: a result
    that is false ([None], [False], zero, an empty string or collection) or
    a table without rows means no violation, and the call returns the empty
    list; a result that is true but is no table has no [bindings], and the
    call raises [AttributeError]; an exception of the script is raised
    unchanged. *)
Theorem validate_script_results self focus v rest g binds new_binds x exe :
  (default ∅ new_binds ∪ binds) !! "maxLength" = Some x ->
  js_exe self = Some exe ->
  (forall results,
     JSExecutableRun.execute exe g [PyTerm v; PyTerm x] = Ok results ->
     (py_truthy results = false ->
        validate self focus (v :: rest) g binds new_binds = Ok (Some [])) /\
     (results = PyResult [] ->
        validate self focus (v :: rest) g binds new_binds = Ok (Some [])) /\
     (py_truthy results = true -> (forall bindings, results <> PyResult bindings) ->
        validate self focus (v :: rest) g binds new_binds
          = Raise (AttributeError "bindings"))) /\
  (forall e,
     JSExecutableRun.execute exe g [PyTerm v; PyTerm x] = Raise e ->
     validate self focus (v :: rest) g binds new_binds = Raise e).
Proof.
  intros Hx Hexe. unfold validate. simpl. unfold validate_body. rewrite Hx, Hexe. simpl.
  split.
  - intros results ->. simpl. split; [|split].
    + by intros ->.
    + by intros ->.
    + intros -> Hnot. simpl.
      destruct results as [| | | | | | | |bindings]; try done. by destruct (Hnot bindings).
  - by intros e ->.
Qed.
End ValidateEdges.

Lemma validate_reads_only_maxLength_witness :
  let rt := Concrete.runtime in
  let js := Concrete.echo_engine in
  let validate := JSConstraintComponentValidator.validate Concrete.ex_instance Concrete.ex_f
                    [Concrete.ex_v] [] in
  let binds : gmap string term := {[ "maxLength" := Literal "5"; "pattern" := Literal "x" ]} in
  (default ∅ None ∪ binds) !! "maxLength"
    = (default ∅ None ∪ Concrete.ex_binds) !! "maxLength" /\
  validate binds None = validate Concrete.ex_binds None /\
  validate binds (Some {[ "maxLength" := Literal "9" ]})
    = validate {[ "maxLength" := Literal "9" ]} None.
Proof.
  intros rt js validate binds.
  destruct (validate_reads_only_maxLength Concrete.ex_instance Concrete.ex_f [Concrete.ex_v]
              [] binds None) as (Hsame & _ & _).
  destruct (validate_reads_only_maxLength Concrete.ex_instance Concrete.ex_f [Concrete.ex_v]
              [] binds (Some {[ "maxLength" := Literal "9" ]})) as (_ & Hnew & _).
  split; [reflexivity|]. split.
  - exact (Hsame Concrete.ex_binds None eq_refl).
  - exact (Hnew _ (Literal "9") eq_refl eq_refl).
Defined.

Lemma validate_script_results_witness :
  let rt := Concrete.runtime in
  let js := Concrete.const_engine (PyStr "no table") in
  (default ∅ None ∪ Concrete.ex_binds) !! "maxLength" = Some (Literal "5") /\
  JSConstraintComponentValidator.js_exe Concrete.ex_instance = Some Concrete.ex_exe /\
  JSExecutableRun.execute Concrete.ex_exe [] [PyTerm Concrete.ex_v; PyTerm (Literal "5")]
    = Ok (PyStr "no table") /\
  JSConstraintComponentValidator.validate Concrete.ex_instance Concrete.ex_f
    [Concrete.ex_v; Literal "next"] [] Concrete.ex_binds None
    = Raise (AttributeError "bindings").
Proof.
  intros rt js.
  destruct (validate_script_results Concrete.ex_instance Concrete.ex_f Concrete.ex_v
              [Literal "next"] [] Concrete.ex_binds None (Literal "5") Concrete.ex_exe
              eq_refl eq_refl) as [Hres _].
  destruct (Hres (PyStr "no table") eq_refl) as (_ & _ & Hattr).
  split; [reflexivity|]. split; [reflexivity|]. split; [reflexivity|].
  apply Hattr; [reflexivity | intros bindings; discriminate].
Defined.
